(** * Stella container: RLEVOX voxel codec, archive packer and manifest schema

    A shallow embedding of [stella/vox_rle.py], [stella/package.py] and
    [stella/manifest.py], with the properties of the specification that
    concern them.

    Conventions of the embedding:
    - Python integers are [Z]; the fixed-width fields of [struct.pack] are
      written out byte by byte, little-endian, with their range checks.
    - [bytes] objects are [list byte].
    - Python [float] is the kernel's binary64 [float]; the binary32 fields
      of the header go through [SpecFloat] rounding to 24 bits of precision.
    - A function that may raise returns [result]: [Ok v] or [Err e]. *)

From Stdlib Require Import ZArith List Lia Bool String Ascii Floats.
From Stdlib.Strings Require Import Byte.
From Stdlib Require Import QArith Qround Lqa DecimalString.
From Stdlib Require Import Sorting.Permutation Sorting.Sorted.
From Equations Require Import Equations.
Import ListNotations.

Local Open Scope Z_scope.

(* ===================================================================== *)
(** ** Exceptions and results *)
(* ===================================================================== *)

(** The exceptions the modelled code raises.  The [ValueError]s of
    [read_rlevox] are kept apart by their message. *)
Inductive exn : Type :=
| InvalidMagic (magic : list byte)          (* ValueError "Invalid magic" *)
| UnsupportedVersion (version : Z)          (* ValueError "Unsupported version" *)
| UnsupportedEncoding (encoding : list byte)(* ValueError "Unsupported encoding" *)
| UnexpectedEof (z y x : Z)                 (* ValueError "Unexpected EOF" *)
| InvalidRunLength (z y : Z)                (* ValueError "Invalid run_length=0" *)
| RowLengthMismatch (z y got expected : Z)  (* ValueError "Row length mismatch" *)
| StructError                               (* struct.error *)
| OverflowError                             (* float too large for "<f" *)
| TypeError                                 (* TypeError *)
| AttributeError                            (* AttributeError *)
| KeyError                                  (* KeyError *)
| UnicodeDecodeError                        (* bytes.decode("utf-8") *)
| JSONDecodeError (msg : string)            (* json.JSONDecodeError *)
| BadZipFile                                (* zipfile.BadZipFile *)
| FileNotFoundError                         (* FileNotFoundError *)
| FileExistsError                           (* FileExistsError *)
| NotADirectoryError                        (* NotADirectoryError *)
| IsADirectoryError                         (* IsADirectoryError *)
| IndexError.                               (* IndexError *)

Inductive result (A : Type) : Type :=
| Ok (a : A)
| Err (e : exn).
Arguments Ok {A} a.
Arguments Err {A} e.

Definition bind {A B} (r : result A) (k : A -> result B) : result B :=
  match r with
  | Ok a => k a
  | Err e => Err e
  end.

Notation "x <- r ;; k" := (bind r (fun x => k))
  (at level 61, r at next level, right associativity).
Notation "' p <- r ;; k" := (bind r (fun p => k))
  (at level 61, p pattern, r at next level, right associativity).

(** [for i in idx: s = body(i, s)], stopping at the first exception. *)
Fixpoint for_each {I S : Type} (body : I -> S -> result S) (idx : list I) (s : S)
  : result S :=
  match idx with
  | [] => Ok s
  | i :: rest => s' <- body i s ;; for_each body rest s'
  end.

(** Python's [range(n)]. *)
Definition range (n : Z) : list Z := map Z.of_nat (seq 0 (Z.to_nat n)).

(* ===================================================================== *)
(** ** Bytes and [struct] *)
(* ===================================================================== *)

Definition u8 (b : byte) : Z := Z.of_N (Byte.to_N b).

Definition byte_of_Z (z : Z) : byte :=
  match Byte.of_N (Z.to_N (z mod 256)) with
  | Some b => b
  | None => x00
  end.

(** [struct.pack("<B", n)] *)
Definition pack_B (n : Z) : result (list byte) :=
  if (0 <=? n) && (n <=? 255) then Ok [byte_of_Z n] else Err StructError.

(** [struct.pack("<H", n)] *)
Definition pack_H (n : Z) : result (list byte) :=
  if (0 <=? n) && (n <=? 65535)
  then Ok [byte_of_Z n; byte_of_Z (n / 256)]
  else Err StructError.

(** [struct.pack("<I", n)] *)
Definition pack_I (n : Z) : result (list byte) :=
  if (0 <=? n) && (n <=? 4294967295)
  then Ok [byte_of_Z n; byte_of_Z (n / 256);
           byte_of_Z (n / 65536); byte_of_Z (n / 16777216)]
  else Err StructError.

(** [struct.unpack("<B", b)[0]], [struct.unpack("<H", b)[0]] and
    [struct.unpack("<I", b)[0]]: a buffer of the wrong size is a
    [struct.error]. *)
Definition unpack_B (b : list byte) : result Z :=
  match b with
  | [b0] => Ok (u8 b0)
  | _ => Err StructError
  end.

Definition unpack_H (b : list byte) : result Z :=
  match b with
  | [b0; b1] => Ok (u8 b0 + 256 * u8 b1)
  | _ => Err StructError
  end.

Definition unpack_I (b : list byte) : result Z :=
  match b with
  | [b0; b1; b2; b3] =>
      Ok (u8 b0 + 256 * u8 b1 + 65536 * u8 b2 + 16777216 * u8 b3)
  | _ => Err StructError
  end.

(** *** binary32 fields *)

(** The binary32 value nearest to a binary64 one (round to nearest, ties
    to even), as a [spec_float] with 24 bits of precision. *)
Definition f32_round (x : float) : spec_float :=
  match Prim2SF x with
  | S754_finite s m e => binary_round 24 128 s m e
  | other => other
  end.

Definition sign_bit (s : bool) : Z := if s then 2147483648 else 0.

(** The IEEE 754 binary32 bit pattern of a 24-bit [spec_float]. *)
Definition f32_bits (f : spec_float) : Z :=
  match f with
  | S754_zero s => sign_bit s
  | S754_infinity s => sign_bit s + 2139095040
  | S754_nan => 2143289344
  | S754_finite s m e =>
      if 8388608 <=? Z.pos m
      then sign_bit s + (e + 150) * 8388608 + (Z.pos m - 8388608)
      else sign_bit s + Z.pos m
  end.

Definition f32_of_bits (w : Z) : spec_float :=
  let s := 2147483648 <=? w in
  let e := (w / 8388608) mod 256 in
  let m := w mod 8388608 in
  if e =? 0 then
    match m with
    | Z.pos p => S754_finite s p (-149)
    | _ => S754_zero s
    end
  else if e =? 255 then
    if m =? 0 then S754_infinity s else S754_nan
  else
    match m + 8388608 with
    | Z.pos p => S754_finite s p (e - 150)
    | _ => S754_nan
    end.

Definition is_finite (f : spec_float) : bool :=
  match f with
  | S754_finite _ _ _ | S754_zero _ => true
  | _ => false
  end.

(** [struct.pack("<f", x)]: a finite [x] whose binary32 rounding overflows
    raises [OverflowError]. *)
Definition pack_f (x : float) : result (list byte) :=
  let r := f32_round x in
  if is_finite (Prim2SF x) && negb (is_finite r) then Err OverflowError
  else pack_I (f32_bits r).

(** [struct.unpack("<f", b)[0]] *)
Definition unpack_f (b : list byte) : result float :=
  w <- unpack_I b ;; Ok (SF2Prim (f32_of_bits w)).

(** What a Python float becomes when stored as binary32 and read back. *)
Definition as_float32 (x : float) : float :=
  SF2Prim (f32_of_bits (f32_bits (f32_round x))).

(* ===================================================================== *)
(** ** [stella/vox_rle.py] *)
(* ===================================================================== *)

Module VoxRle.

(** Constants *)
Definition MAGIC : list byte := [x53; x54; x56; x58].      (* b"STVX" *)
Definition VERSION : Z := 1.
Definition HEADER_SIZE : Z := 64.
Definition ENCODING : list byte := [x52; x4c; x45; x31].   (* b"RLE1" *)

(** A 3D boolean numpy array indexed [[x, y, z]]: its shape and its cells. *)
Record Grid : Type := mkGrid {
  dim_x : Z;
  dim_y : Z;
  dim_z : Z;
  cell : Z -> Z -> Z -> bool
}.

(** [np.array_equal]: same shape and the same value in every cell. *)
Definition array_equal (a b : Grid) : Prop :=
  dim_x a = dim_x b /\ dim_y a = dim_y b /\ dim_z a = dim_z b /\
  forall x y z, 0 <= x < dim_x a -> 0 <= y < dim_y a -> 0 <= z < dim_z a ->
    cell a x y z = cell b x y z.

(** [np.zeros((dim_x, dim_y, dim_z), dtype=bool)] *)
Definition zeros (dx dy dz : Z) : Grid := mkGrid dx dy dz (fun _ _ _ => false).

(** [grid[x0:x1, y, z] = True] *)
Definition set_slice (g : Grid) (x0 x1 y z : Z) : Grid :=
  mkGrid (dim_x g) (dim_y g) (dim_z g)
    (fun x' y' z' =>
       if (x0 <=? x') && (x' <? x1) && (y' =? y) && (z' =? z)
       then true else cell g x' y' z').

(** [grid[:, y, z]] *)
Definition row_of (g : Grid) (y z : Z) : list bool :=
  map (fun x => cell g x y z) (range (dim_x g)).

(** [int(b)] for a numpy bool *)
Definition int_of_bool (b : bool) : Z := if b then 1 else 0.

(** *** [_encode_rle_row] *)

(** The loop state: [(runs, current_value, run_length)]. *)
Definition rle_step (st : list (Z * Z) * Z * Z) (b : bool)
  : list (Z * Z) * Z * Z :=
  let '(runs, current_value, run_length) := st in
  let value := int_of_bool b in
  if value =? current_value
  then (runs, current_value, run_length + 1)
  else (runs ++ [(run_length, current_value)], value, 1).

Definition _encode_rle_row (row : list bool) : list (Z * Z) :=
  match row with
  | [] => []
  | b0 :: rest =>
      let '(runs, current_value, run_length) :=
        fold_left rle_step rest ([], int_of_bool b0, 1) in
      runs ++ [(run_length, current_value)]
  end.

(** *** [write_rlevox] *)

(** The inner [while remaining > 0] loop: one run written as records of at
    most 65535 cells. *)
Equations? write_run (remaining value : Z) : result (list byte)
  by wf (Z.to_nat remaining) lt :=
  write_run remaining value with Z_lt_dec 0 remaining := {
    | left _ =>
        let chunk := Z.min remaining 65535 in
        b_len <- pack_H chunk ;;
        b_val <- pack_B value ;;
        b_flg <- pack_B 0 ;;
        rest <- write_run (remaining - chunk) value ;;
        Ok (b_len ++ b_val ++ b_flg ++ rest)
    | right _ => Ok []
    }.
Proof. lia. Qed.

(** [for run_length, value in runs: ...] *)
Fixpoint write_runs (runs : list (Z * Z)) : result (list byte) :=
  match runs with
  | [] => Ok []
  | (run_length, value) :: rest =>
      b <- write_run run_length value ;;
      bs <- write_runs rest ;;
      Ok (b ++ bs)
  end.

(** The payload loops: [z] outer, [y] inner; the state is what has been
    written so far. *)
Definition write_payload (grid : Grid) (out : list byte) : result (list byte) :=
  for_each (fun z out =>
    for_each (fun y out =>
      let row := row_of grid y z in
      let runs := _encode_rle_row row in
      b <- write_runs runs ;;
      Ok (out ++ b))
    (range (dim_y grid)) out)
  (range (dim_z grid)) out.

Definition write_header (grid : Grid) (voxel_size : float)
    (origin : float * float * float) : result (list byte) :=
  let '(origin_x, origin_y, origin_z) := origin in
  b_ver <- pack_H VERSION ;;
  b_hsz <- pack_H HEADER_SIZE ;;
  b_dx <- pack_I (dim_x grid) ;;
  b_dy <- pack_I (dim_y grid) ;;
  b_dz <- pack_I (dim_z grid) ;;
  b_vs <- pack_f voxel_size ;;
  b_ox <- pack_f origin_x ;;
  b_oy <- pack_f origin_y ;;
  b_oz <- pack_f origin_z ;;
  b_res <- pack_I 0 ;;
  let f := MAGIC ++ b_ver ++ b_hsz ++ b_dx ++ b_dy ++ b_dz ++ b_vs
                 ++ b_ox ++ b_oy ++ b_oz ++ ENCODING ++ b_res in
  let current_pos := Z.of_nat (List.length f) in
  Ok (if current_pos <? HEADER_SIZE
      then f ++ repeat x00 (Z.to_nat (HEADER_SIZE - current_pos))
      else f).

(** The bytes of the file [write_rlevox] leaves at [path]. *)
Definition write_rlevox (grid : Grid) (voxel_size : float)
    (origin : float * float * float) : result (list byte) :=
  header <- write_header grid voxel_size origin ;;
  write_payload grid header.

(** *** [read_rlevox] *)

(** [f.read(n)] on the unread part of the file: the bytes read and what is
    left. *)
Definition read (n : nat) (f : list byte) : list byte * list byte :=
  (firstn n f, skipn n f).

Definition list_byte_eqb (a b : list byte) : bool :=
  if list_eq_dec Byte.byte_eq_dec a b then true else false.

(** The [while x < dim_x] loop of one row.  Every turn reads one 4-byte
    record, so the recursion is on the unread bytes. *)
Fixpoint read_row (dx y z : Z) (grid : Grid) (x : Z) (f : list byte)
  {struct f} : result (Grid * list byte) :=
  if x <? dx then
    match f with
    | b0 :: b1 :: b2 :: b3 :: f' =>
        run_length <- unpack_H [b0; b1] ;;
        value <- unpack_B [b2] ;;
        _flags <- unpack_B [b3] ;;
        if run_length =? 0 then Err (InvalidRunLength z y)
        else
          let end_x := Z.min (x + run_length) dx in
          let grid' := if value =? 1 then set_slice grid x end_x y z else grid in
          read_row dx y z grid' end_x f'
    | _ => Err (UnexpectedEof z y x)
    end
  else if negb (x =? dx) then Err (RowLengthMismatch z y x dx)
  else Ok (grid, f).

Definition read_payload (dx dy dz : Z) (f : list byte)
  : result (Grid * list byte) :=
  for_each (fun z st =>
    for_each (fun y (st : Grid * list byte) =>
      let '(grid, f) := st in
      read_row dx y z grid 0 f)
    (range dy) st)
  (range dz) (zeros dx dy dz, f).

Definition read_rlevox (data : list byte)
  : result (Grid * float * (float * float * float)) :=
  let '(magic, f) := read 4 data in
  if negb (list_byte_eqb magic MAGIC) then Err (InvalidMagic magic) else
  let '(b, f) := read 2 f in
  version <- unpack_H b ;;
  if negb (version =? VERSION) then Err (UnsupportedVersion version) else
  let '(b, f) := read 2 f in
  header_size <- unpack_H b ;;
  let '(b, f) := read 4 f in
  dx <- unpack_I b ;;
  let '(b, f) := read 4 f in
  dy <- unpack_I b ;;
  let '(b, f) := read 4 f in
  dz <- unpack_I b ;;
  let '(b, f) := read 4 f in
  voxel_size <- unpack_f b ;;
  let '(b, f) := read 4 f in
  origin_x <- unpack_f b ;;
  let '(b, f) := read 4 f in
  origin_y <- unpack_f b ;;
  let '(b, f) := read 4 f in
  origin_z <- unpack_f b ;;
  let '(encoding, f) := read 4 f in
  if negb (list_byte_eqb encoding ENCODING) then Err (UnsupportedEncoding encoding) else
  let '(b, f) := read 4 f in
  _reserved <- unpack_I b ;;
  (* f.seek(header_size) *)
  let f := skipn (Z.to_nat header_size) data in
  '(grid, _) <- read_payload dx dy dz f ;;
  Ok (grid, voxel_size, (origin_x, origin_y, origin_z)).

(** *** [grid_to_world] and [world_to_grid] *)

(** The arithmetic the two helpers use.  numpy computes them in binary64;
    the same expressions are also read over the rationals, where no
    operation rounds. *)
Class Arith (num : Type) : Type := {
  n_add : num -> num -> num;
  n_sub : num -> num -> num;
  n_mul : num -> num -> num;
  n_div : num -> num -> num;
  n_of_int : Z -> num;            (* an integer index as a number *)
  n_half : num;                   (* the literal 0.5 *)
  n_floor : num -> option Z       (* np.floor(..).astype(int); None when
                                     the value is not finite *)
}.

(** An int64 as a binary64, rounded to nearest. *)
Definition float_of_Z (z : Z) : float :=
  if z <? 0 then PrimFloat.opp (PrimFloat.of_uint63 (Uint63.of_Z (- z)))
  else PrimFloat.of_uint63 (Uint63.of_Z z).

(** The integer part, towards minus infinity, of a finite binary64. *)
Definition floor_float (f : float) : option Z :=
  match Prim2SF f with
  | S754_zero _ => Some 0
  | S754_finite s m e =>
      let q := if 0 <=? e then Z.pos m * 2 ^ e else Z.pos m / 2 ^ (- e) in
      let exact := if 0 <=? e then true else Z.pos m mod 2 ^ (- e) =? 0 in
      Some (if s then (if exact then - q else - q - 1) else q)
  | _ => None
  end.

#[export] Instance float_arith : Arith float := {
  n_add := PrimFloat.add;
  n_sub := PrimFloat.sub;
  n_mul := PrimFloat.mul;
  n_div := PrimFloat.div;
  n_of_int := float_of_Z;
  n_half := 0.5%float;
  n_floor := floor_float
}.

#[export] Instance exact_arith : Arith Q := {
  n_add := Qplus;
  n_sub := Qminus;
  n_mul := Qmult;
  n_div := Qdiv;
  n_of_int := inject_Z;
  n_half := Qmake 1 2;
  n_floor := fun q => Some (Qfloor q)
}.

Section Coordinates.
Context {num : Type} `{Arith num}.

(** One coordinate of [origin_arr + (indices + 0.5) * voxel_size]. *)
Definition grid_to_world1 (index : Z) (voxel_size origin : num) : num :=
  n_add origin (n_mul (n_add (n_of_int index) n_half) voxel_size).

(** One coordinate of
    [np.floor((positions - origin_arr) / voxel_size).astype(int)]. *)
Definition world_to_grid1 (position voxel_size origin : num) : option Z :=
  n_floor (n_div (n_sub position origin) voxel_size).

(** One row of the [N x 3] arrays. *)
Definition grid_to_world (index : Z * Z * Z) (voxel_size : num)
    (origin : num * num * num) : num * num * num :=
  let '(ix, iy, iz) := index in
  let '(ox, oy, oz) := origin in
  (grid_to_world1 ix voxel_size ox,
   grid_to_world1 iy voxel_size oy,
   grid_to_world1 iz voxel_size oz).

Definition world_to_grid (position : num * num * num) (voxel_size : num)
    (origin : num * num * num) : option (Z * Z * Z) :=
  let '(px, py, pz) := position in
  let '(ox, oy, oz) := origin in
  match world_to_grid1 px voxel_size ox,
        world_to_grid1 py voxel_size oy,
        world_to_grid1 pz voxel_size oz with
  | Some x, Some y, Some z => Some (x, y, z)
  | _, _, _ => None
  end.

End Coordinates.

(** *** Run records, as the specification describes them *)

(** One 4-byte run record: [(run_length: uint16, value: uint8, flags: uint8 = 0)]. *)
Definition record_bytes (r : Z * Z) : list byte :=
  [byte_of_Z (fst r); byte_of_Z (fst r / 256); byte_of_Z (snd r); x00].

(** The run records held by a payload, four bytes at a time. *)
Fixpoint parse_records (f : list byte) : list (Z * Z) :=
  match f with
  | b0 :: b1 :: b2 :: _ :: f' => (u8 b0 + 256 * u8 b1, u8 b2) :: parse_records f'
  | _ => []
  end.

(** The maximal runs of a row, following the specification's words: a run
    is a maximal contiguous span of identical cell values, [(length, value)].
    Built from the right, unlike the loop of [_encode_rle_row]. *)
Definition merge_run (r : Z * Z) (runs : list (Z * Z)) : list (Z * Z) :=
  match runs with
  | (n, v) :: rest =>
      if v =? snd r then (n + fst r, v) :: rest else r :: (n, v) :: rest
  | [] => [r]
  end.

Fixpoint maximal_runs (row : list bool) : list (Z * Z) :=
  match row with
  | [] => []
  | b :: rest => merge_run (1, int_of_bool b) (maximal_runs rest)
  end.

(** No two neighbouring runs hold the same value. *)
Fixpoint neighbours_differ (runs : list (Z * Z)) : Prop :=
  match runs with
  | r1 :: ((r2 :: _) as rest) => snd r1 <> snd r2 /\ neighbours_differ rest
  | _ => True
  end.

(** A run as the encoder produces it: at least one cell, value 0 or 1. *)
Definition good_run (r : Z * Z) : Prop := 1 <= fst r /\ (snd r = 0 \/ snd r = 1).

(** A record as the encoder writes it. *)
Definition good_record (r : Z * Z) : Prop :=
  1 <= fst r <= 65535 /\ (snd r = 0 \/ snd r = 1).

(** The cells a list of runs stands for. *)
Definition expand (runs : list (Z * Z)) : list bool :=
  flat_map (fun r => repeat (snd r =? 1) (Z.to_nat (fst r))) runs.

(** A run of [n] cells cut into records of at most 65535 cells, as the
    specification asks: full records first, the remainder last. *)
Definition chunks (n : Z) : list Z :=
  repeat 65535 (Z.to_nat (n / 65535))
  ++ (if 0 <? n mod 65535 then [n mod 65535] else []).

Definition split_run (r : Z * Z) : list (Z * Z) :=
  map (fun c => (c, snd r)) (chunks (fst r)).

Definition sumZ (l : list Z) : Z := fold_right Z.add 0 l.

(** The payload as the specification lays it out: for [z] in [0, dim_z),
    for [y] in [0, dim_y), the records of the row along [x]. *)
Definition row_payload (grid : Grid) (y z : Z) : list byte :=
  flat_map record_bytes (flat_map split_run (maximal_runs (row_of grid y z))).

Definition payload_of (grid : Grid) : list byte :=
  flat_map (fun z => flat_map (fun y => row_payload grid y z) (range (dim_y grid)))
           (range (dim_z grid)).

(** *** Sample inputs *)

(** A 3 x 2 x 2 grid. *)
Definition sample_grid : Grid :=
  mkGrid 3 2 2 (fun x y z => (x =? 1) || (y =? z)).

(** A well-formed file for a 1 x 1 x 1 grid whose only row holds one record
    of two solid cells: one cell more than [dim_x]. *)
Definition overshoot_file : list byte :=
  MAGIC ++ [x01; x00] ++ [x40; x00]
  ++ [x01; x00; x00; x00] ++ [x01; x00; x00; x00] ++ [x01; x00; x00; x00]
  ++ [x00; x00; x80; x3f]
  ++ [x00; x00; x00; x00] ++ [x00; x00; x00; x00] ++ [x00; x00; x00; x00]
  ++ ENCODING ++ [x00; x00; x00; x00] ++ repeat x00 20
  ++ [x02; x00; x01; x00].

End VoxRle.

(* ===================================================================== *)
(** ** [stella/vox_rle.py]: collision queries, voxelization, statistics *)
(* ===================================================================== *)

Module VoxGrid.
Import VoxRle.

(** What the helpers below need beyond [Arith]: [np.ceil(..).astype(int)],
    and the [min] and [max] numpy reduces an axis with. *)
Class Bounds (num : Type) : Type := {
  n_ceil : num -> option Z;       (* None when the value is not finite *)
  n_min : num -> num -> num;
  n_max : num -> num -> num
}.

(** The least integer not below a finite binary64. *)
Definition ceil_float (f : float) : option Z :=
  match Prim2SF f with
  | S754_zero _ => Some 0
  | S754_finite s m e =>
      let q := if 0 <=? e then Z.pos m * 2 ^ e else Z.pos m / 2 ^ (- e) in
      let exact := if 0 <=? e then true else Z.pos m mod 2 ^ (- e) =? 0 in
      Some (if s then - q else (if exact then q else q + 1))
  | _ => None
  end.

Definition is_nan (f : float) : bool := negb (PrimFloat.eqb f f).

(** [np.minimum] and [np.maximum] on binary64: a NaN wins. *)
Definition min_float (a b : float) : float :=
  if is_nan a then a else if is_nan b then b
  else if PrimFloat.ltb b a then b else a.

Definition max_float (a b : float) : float :=
  if is_nan a then a else if is_nan b then b
  else if PrimFloat.ltb a b then b else a.

#[export] Instance float_bounds : Bounds float := {
  n_ceil := ceil_float;
  n_min := min_float;
  n_max := max_float
}.

#[export] Instance exact_bounds : Bounds Q := {
  n_ceil := fun q => Some (Qceiling q);
  n_min := fun a b => if Qle_bool a b then a else b;
  n_max := fun a b => if Qle_bool a b then b else a
}.

(** [range(a, b)] *)
Definition range2 (a b : Z) : list Z := map (fun i => a + i) (range (b - a)).

(** [lo <= i < hi] *)
Definition within (i lo hi : Z) : bool := (lo <=? i) && (i <? hi).

Section Geometry.
Context {num : Type} `{Arith num} `{Bounds num}.

(** *** [check_collision_point] *)

Definition check_collision_point (grid : Grid) (position : num * num * num)
    (voxel_size : num) (origin : num * num * num) : option bool :=
  match world_to_grid position voxel_size origin with
  | Some (ix, iy, iz) =>
      Some (if (ix <? 0) || (ix >=? dim_x grid)
               || (iy <? 0) || (iy >=? dim_y grid)
               || (iz <? 0) || (iz >=? dim_z grid)
            then false
            else cell grid ix iy iz)
  | None => None
  end.

(** *** [check_collision_capsule] *)

(** One coordinate of [np.ceil((positions - origin_arr) / voxel_size).astype(int)]. *)
Definition world_to_grid_ceil1 (position voxel_size origin : num) : option Z :=
  n_ceil (n_div (n_sub position origin) voxel_size).

Definition check_collision_capsule (grid : Grid) (position : num * num * num)
    (radius height voxel_size : num) (origin : num * num * num) : option bool :=
  let '(px, py, pz) := position in
  let '(ox, oy, oz) := origin in
  let min_pos := (n_sub px radius, n_sub py (n_of_int 0), n_sub pz radius) in
  let max_pos := (n_add px radius, n_add py height, n_add pz radius) in
  let '(min_x, min_y, min_z) := min_pos in
  let '(max_x, max_y, max_z) := max_pos in
  match world_to_grid1 min_x voxel_size ox, world_to_grid1 min_y voxel_size oy,
        world_to_grid1 min_z voxel_size oz,
        world_to_grid_ceil1 max_x voxel_size ox,
        world_to_grid_ceil1 max_y voxel_size oy,
        world_to_grid_ceil1 max_z voxel_size oz with
  | Some a0, Some a1, Some a2, Some b0, Some b1, Some b2 =>
      let '(a0, a1, a2) := (Z.max a0 0, Z.max a1 0, Z.max a2 0) in
      let '(b0, b1, b2) :=
        (Z.min b0 (dim_x grid), Z.min b1 (dim_y grid), Z.min b2 (dim_z grid)) in
      Some (existsb (fun x =>
              existsb (fun y =>
                existsb (fun z => cell grid x y z) (range2 a2 b2))
                (range2 a1 b1))
              (range2 a0 b0))
  | _, _, _, _, _, _ => None
  end.

(** *** [voxelize_points] *)

(** [points.min(axis=0)] and [points.max(axis=0)] of a non-empty array. *)
Definition axis_min (p0 : num * num * num) (rest : list (num * num * num))
  : num * num * num :=
  fold_left (fun acc p =>
               let '(ax, ay, az) := acc in let '(x, y, z) := p in
               (n_min ax x, n_min ay y, n_min az z)) rest p0.

Definition axis_max (p0 : num * num * num) (rest : list (num * num * num))
  : num * num * num :=
  fold_left (fun acc p =>
               let '(ax, ay, az) := acc in let '(x, y, z) := p in
               (n_max ax x, n_max ay y, n_max az z)) rest p0.

(** [np.clip(i, 0, d - 1)] *)
Definition clip (i d : Z) : Z := Z.min (Z.max i 0) (d - 1).

Definition voxelize_points (points : list (num * num * num)) (voxel_size : num)
    (padding : Z) : option (Grid * (num * num * num)) :=
  match points with
  | [] => Some (zeros 1 1 1, (n_of_int 0, n_of_int 0, n_of_int 0))
  | p0 :: rest =>
      let pad := n_mul (n_of_int padding) voxel_size in
      let '(lx, ly, lz) := axis_min p0 rest in
      let '(hx, hy, hz) := axis_max p0 rest in
      let min_pt := (n_sub lx pad, n_sub ly pad, n_sub lz pad) in
      let max_pt := (n_add hx pad, n_add hy pad, n_add hz pad) in
      let '(ox, oy, oz) := min_pt in
      let '(mx, my, mz) := max_pt in
      match world_to_grid_ceil1 mx voxel_size ox,
            world_to_grid_ceil1 my voxel_size oy,
            world_to_grid_ceil1 mz voxel_size oz with
      | Some dx, Some dy, Some dz =>
          let '(dx, dy, dz) := (Z.max dx 1, Z.max dy 1, Z.max dz 1) in
          let indices := map (fun p => world_to_grid p voxel_size min_pt) points in
          if forallb (fun i => match i with Some _ => true | None => false end) indices
          then
            Some (mkGrid dx dy dz
                    (fun x y z =>
                       existsb (fun i =>
                                  match i with
                                  | Some (ix, iy, iz) =>
                                      (clip ix dx =? x) && (clip iy dy =? y)
                                      && (clip iz dz =? z)
                                  | None => false
                                  end) indices),
                  min_pt)
          else None
      | _, _, _ => None
      end
  end.

(** *** [get_grid_stats] *)

(** [grid.sum()] *)
Definition grid_sum (grid : Grid) : Z :=
  sumZ (map (fun x =>
         sumZ (map (fun y =>
           sumZ (map (fun z => int_of_bool (cell grid x y z)) (range (dim_z grid))))
           (range (dim_y grid))))
         (range (dim_x grid))).

Record GridStats : Type := mkGridStats {
  dimensions : Z * Z * Z;
  voxel_size_m : num;
  total_voxels : Z;
  solid_voxels : Z;
  empty_voxels : Z;
  fill_ratio : num;
  world_size_m : num * num * num
}.

Definition get_grid_stats (grid : Grid) (voxel_size : num) : GridStats :=
  let '(dx, dy, dz) := (dim_x grid, dim_y grid, dim_z grid) in
  let total_voxels := dx * dy * dz in
  let solid_voxels := grid_sum grid in
  mkGridStats (dx, dy, dz) voxel_size total_voxels solid_voxels
    (total_voxels - solid_voxels)
    (if 0 <? total_voxels
     then n_div (n_of_int solid_voxels) (n_of_int total_voxels)
     else n_of_int 0)
    (n_mul (n_of_int dx) voxel_size, n_mul (n_of_int dy) voxel_size,
     n_mul (n_of_int dz) voxel_size).

End Geometry.

(** Coordinate by coordinate, [a <= b]. *)
Definition below (a b : Q * Q * Q) : Prop :=
  let '(ax, ay, az) := a in let '(bx, by_, bz) := b in
  Qle ax bx /\ Qle ay by_ /\ Qle az bz.

End VoxGrid.

(* ===================================================================== *)
(** ** [hashlib] *)
(* ===================================================================== *)

(** SHA-256 (FIPS 180-4), the digest [compute_sha256] asks [hashlib] for.
    The properties below hold for any digest function; this one is there
    so that examples run on the real one. *)
Module Hashlib.

Definition w32 (x : Z) : Z := x mod 4294967296.
Definition rotr (n x : Z) : Z := w32 (Z.lor (Z.shiftr x n) (Z.shiftl x (32 - n))).
Definition shr (n x : Z) : Z := Z.shiftr x n.
Definition ch (x y z : Z) : Z := Z.lxor (Z.land x y) (Z.land (w32 (Z.lnot x)) z).
Definition maj (x y z : Z) : Z :=
  Z.lxor (Z.lxor (Z.land x y) (Z.land x z)) (Z.land y z).
Definition big_sigma0 (x : Z) : Z := Z.lxor (Z.lxor (rotr 2 x) (rotr 13 x)) (rotr 22 x).
Definition big_sigma1 (x : Z) : Z := Z.lxor (Z.lxor (rotr 6 x) (rotr 11 x)) (rotr 25 x).
Definition small_sigma0 (x : Z) : Z := Z.lxor (Z.lxor (rotr 7 x) (rotr 18 x)) (shr 3 x).
Definition small_sigma1 (x : Z) : Z := Z.lxor (Z.lxor (rotr 17 x) (rotr 19 x)) (shr 10 x).

Definition K : list Z :=
  [1116352408; 1899447441; 3049323471; 3921009573; 961987163; 1508970993; 2453635748; 2870763221; 3624381080; 310598401; 607225278; 1426881987; 1925078388; 2162078206; 2614888103; 3248222580; 3835390401; 4022224774; 264347078; 604807628; 770255983; 1249150122; 1555081692; 1996064986; 2554220882; 2821834349; 2952996808; 3210313671; 3336571891; 3584528711; 113926993; 338241895; 666307205; 773529912; 1294757372; 1396182291; 1695183700; 1986661051; 2177026350; 2456956037; 2730485921; 2820302411; 3259730800; 3345764771; 3516065817; 3600352804; 4094571909; 275423344; 430227734; 506948616; 659060556; 883997877; 958139571; 1322822218; 1537002063; 1747873779; 1955562222; 2024104815; 2227730452; 2361852424; 2428436474; 2756734187; 3204031479; 3329325298].

Definition state : Type := Z * Z * Z * Z * Z * Z * Z * Z.

Definition H0 : state :=
  (1779033703, 3144134277, 1013904242, 2773480762,
   1359893119, 2600822924, 528734635, 1541459225).

(** The message padded to a whole number of 64-byte blocks. *)
Definition pad (msg : list byte) : list Z :=
  let len := Z.of_nat (List.length msg) in
  let zeros := (55 - len) mod 64 in
  let bits := 8 * len in
  map u8 msg ++ [128] ++ repeat 0 (Z.to_nat zeros)
  ++ map (fun i => (bits / 2 ^ (8 * (7 - i))) mod 256) [0; 1; 2; 3; 4; 5; 6; 7].

(** Big-endian 32-bit words. *)
Fixpoint words (b : list Z) : list Z :=
  match b with
  | b0 :: b1 :: b2 :: b3 :: rest =>
      (16777216 * b0 + 65536 * b1 + 256 * b2 + b3) :: words rest
  | _ => []
  end.

(** The message schedule, latest word first. *)
Fixpoint schedule (n : nat) (rev_w : list Z) : list Z :=
  match n with
  | O => rev_w
  | S n' =>
      let w := w32 (small_sigma1 (nth 1 rev_w 0) + nth 6 rev_w 0
                    + small_sigma0 (nth 14 rev_w 0) + nth 15 rev_w 0) in
      schedule n' (w :: rev_w)
  end.

Definition round (s : state) (kw : Z * Z) : state :=
  let '(a, b, c, d, e, f, g, h) := s in
  let t1 := h + big_sigma1 e + ch e f g + fst kw + snd kw in
  let t2 := big_sigma0 a + maj a b c in
  (w32 (t1 + t2), a, b, c, w32 (d + t1), e, f, g).

Definition compress (s : state) (block : list Z) : state :=
  let w := rev (schedule 48 (rev block)) in
  let '(a, b, c, d, e, f, g, h) := fold_left round (combine K w) s in
  let '(a0, b0, c0, d0, e0, f0, g0, h0) := s in
  (w32 (a0 + a), w32 (b0 + b), w32 (c0 + c), w32 (d0 + d),
   w32 (e0 + e), w32 (f0 + f), w32 (g0 + g), w32 (h0 + h)).

Fixpoint blocks (fuel : nat) (w : list Z) (s : state) : state :=
  match fuel with
  | O => s
  | S fuel' =>
      match w with
      | [] => s
      | _ => blocks fuel' (skipn 16 w) (compress s (firstn 16 w))
      end
  end.

Definition hex_char (n : Z) : ascii :=
  match n mod 16 with
  | 0 => "0" | 1 => "1" | 2 => "2" | 3 => "3" | 4 => "4" | 5 => "5"
  | 6 => "6" | 7 => "7" | 8 => "8" | 9 => "9" | 10 => "a" | 11 => "b"
  | 12 => "c" | 13 => "d" | 14 => "e" | _ => "f"
  end%char.

Definition hex_word (w : Z) (tail : string) : string :=
  String (hex_char (w / 268435456)) (String (hex_char (w / 16777216))
  (String (hex_char (w / 1048576)) (String (hex_char (w / 65536))
  (String (hex_char (w / 4096)) (String (hex_char (w / 256))
  (String (hex_char (w / 16)) (String (hex_char w) tail))))))).

(** [hashlib.sha256(data).hexdigest()] *)
Definition sha256_hex (data : list byte) : string :=
  let w := words (pad data) in
  let '(a, b, c, d, e, f, g, h) := blocks (List.length w) w H0 in
  hex_word a (hex_word b (hex_word c (hex_word d
    (hex_word e (hex_word f (hex_word g (hex_word h EmptyString))))))).

End Hashlib.

(* ===================================================================== *)
(** ** Python [str], [bytes] and [dict] *)
(* ===================================================================== *)

(** A Python [str] is a [string] holding the UTF-8 code units of the text,
    the convention of Rocq's own string literals.  Code-point order and
    byte order agree on UTF-8, so [sorted] on paths is the bytewise
    lexicographic order. *)

Local Open Scope string_scope.

Module PyStr.

(** [s.encode("utf-8")] *)
Definition encode (s : string) : list byte := list_byte_of_string s.

Definition in_range (lo hi : Z) (b : byte) : bool :=
  (lo <=? u8 b)%Z && (u8 b <=? hi)%Z.

(** Well-formed UTF-8 (Unicode 15, table 3-7). *)
Fixpoint utf8_valid (b : list byte) : bool :=
  match b with
  | [] => true
  | b0 :: rest =>
      if in_range 0 127 b0 then utf8_valid rest
      else if in_range 194 223 b0 then
        match rest with
        | b1 :: rest' => in_range 128 191 b1 && utf8_valid rest'
        | _ => false
        end
      else if in_range 224 239 b0 then
        match rest with
        | b1 :: b2 :: rest' =>
            (if (u8 b0 =? 224)%Z then in_range 160 191 b1
             else if (u8 b0 =? 237)%Z then in_range 128 159 b1
             else in_range 128 191 b1)
            && in_range 128 191 b2 && utf8_valid rest'
        | _ => false
        end
      else if in_range 240 244 b0 then
        match rest with
        | b1 :: b2 :: b3 :: rest' =>
            (if (u8 b0 =? 240)%Z then in_range 144 191 b1
             else if (u8 b0 =? 244)%Z then in_range 128 143 b1
             else in_range 128 191 b1)
            && in_range 128 191 b2 && in_range 128 191 b3 && utf8_valid rest'
        | _ => false
        end
      else false
  end.

(** [b.decode("utf-8")] *)
Definition decode (b : list byte) : result string :=
  if utf8_valid b then Ok (string_of_list_byte b) else Err UnicodeDecodeError.

Definition str_of_codes (codes : list nat) : string :=
  string_of_list_ascii (map ascii_of_nat codes).

Definition newline : string := str_of_codes [10%nat].

(** The characters [str.isspace] accepts, UTF-8 encoded: U+0009..U+000D,
    U+001C..U+0020, U+0085, U+00A0, U+1680, U+2000..U+200A, U+2028,
    U+2029, U+202F, U+205F, U+3000. *)
Definition whitespace : list string :=
  map str_of_codes
    [[9]; [10]; [11]; [12]; [13]; [28]; [29]; [30]; [31]; [32];
     [194; 133]; [194; 160]; [225; 154; 128];
     [226; 128; 128]; [226; 128; 129]; [226; 128; 130]; [226; 128; 131];
     [226; 128; 132]; [226; 128; 133]; [226; 128; 134]; [226; 128; 135];
     [226; 128; 136]; [226; 128; 137]; [226; 128; 138];
     [226; 128; 168]; [226; 128; 169]; [226; 128; 175];
     [226; 129; 159]; [227; 128; 128]]%nat.

Fixpoint drop (n : nat) (s : string) : string :=
  match n, s with
  | S n', String _ s' => drop n' s'
  | _, _ => s
  end.

Definition string_rev (s : string) : string :=
  string_of_list_ascii (rev (list_ascii_of_string s)).

(** What is left of [s] after one leading character of [chars], if any. *)
Fixpoint strip_one (chars : list string) (s : string) : option string :=
  match chars with
  | [] => None
  | w :: chars' =>
      if prefix w s then Some (drop (String.length w) s) else strip_one chars' s
  end.

Fixpoint strip_leading (chars : list string) (fuel : nat) (s : string) : string :=
  match fuel with
  | O => s
  | S fuel' =>
      match strip_one chars s with
      | Some s' => strip_leading chars fuel' s'
      | None => s
      end
  end.

(** [s.lstrip()], [s.rstrip()], [s.strip()] *)
Definition lstrip (s : string) : string :=
  strip_leading whitespace (String.length s) s.

Definition rstrip (s : string) : string :=
  string_rev (strip_leading (map string_rev whitespace) (String.length s)
                            (string_rev s)).

Definition strip (s : string) : string := rstrip (lstrip s).

(** [s.split(c)] for a separator of one character *)
Fixpoint split_char (c : ascii) (s : string) : list string :=
  match s with
  | EmptyString => [EmptyString]
  | String a s' =>
      if Ascii.eqb a c then EmptyString :: split_char c s'
      else match split_char c s' with
           | h :: t => String a h :: t
           | [] => [String a EmptyString]
           end
  end.

(** [s.split(sep, 1)] for a non-empty [sep]: [None] when [sep] does not
    occur (the result has one part), [Some (before, after)] when it does. *)
Fixpoint split_once (sep : string) (s : string) : option (string * string) :=
  if prefix sep s then Some (EmptyString, drop (String.length sep) s)
  else match s with
       | EmptyString => None
       | String a s' =>
           match split_once sep s' with
           | Some (before, after) => Some (String a before, after)
           | None => None
           end
       end.

(** Characters of a hexadecimal digest, and printable ASCII other than the
    space. *)
Definition is_hex_digit (a : ascii) : bool :=
  let n := nat_of_ascii a in
  ((48 <=? n) && (n <=? 57) || (97 <=? n) && (n <=? 102))%nat.

Definition is_ascii7 (a : ascii) : bool := (nat_of_ascii a <=? 127)%nat.

Definition is_plain (a : ascii) : bool :=
  let n := nat_of_ascii a in ((33 <=? n) && (n <=? 126))%nat.

Fixpoint all_chars (p : ascii -> bool) (s : string) : bool :=
  match s with
  | EmptyString => true
  | String a s' => p a && all_chars p s'
  end.

(** What [hexdigest()] returns for SHA-256: 64 hexadecimal digits. *)
Definition hex_digest (s : string) : Prop :=
  String.length s = 64%nat /\ all_chars is_hex_digit s = true.

End PyStr.

(** A [dict] with [str] keys: its items in insertion order.  The keys of a
    dict are distinct; every operation below keeps them so. *)
Definition dict (V : Type) : Type := list (string * V).

Section Dict.
Context {V : Type}.

(** [d.get(k)] *)
Fixpoint dict_get (k : string) (d : dict V) : option V :=
  match d with
  | [] => None
  | (k', v) :: d' => if String.eqb k k' then Some v else dict_get k d'
  end.

(** [d[k] = v]: an existing key keeps its place. *)
Fixpoint dict_set (d : dict V) (k : string) (v : V) : dict V :=
  match d with
  | [] => [(k, v)]
  | (k', v') :: d' =>
      if String.eqb k k' then (k', v) :: d' else (k', v') :: dict_set d' k v
  end.

(** [d.update(other)] *)
Definition dict_update (d other : dict V) : dict V :=
  fold_left (fun d kv => dict_set d (fst kv) (snd kv)) other d.

Definition keys (d : dict V) : list string := map fst d.

(** [k in d] *)
Definition dict_mem (k : string) (d : dict V) : bool :=
  existsb (String.eqb k) (keys d).

(** [sorted(d.items())]: the keys of a dict are distinct, so the items are
    ordered by key. *)
Fixpoint insert_item (kv : string * V) (l : list (string * V))
  : list (string * V) :=
  match l with
  | [] => [kv]
  | kv' :: l' =>
      if String.leb (fst kv) (fst kv') then kv :: l else kv' :: insert_item kv l'
  end.

Definition sorted_items (d : dict V) : list (string * V) :=
  fold_right insert_item [] d.

End Dict.

(** [sorted(l)] on a list of [str] *)
Fixpoint insert_str (k : string) (l : list string) : list string :=
  match l with
  | [] => [k]
  | k' :: l' => if String.leb k k' then k :: l else k' :: insert_str k l'
  end.

Definition sorted (l : list string) : list string := fold_right insert_str [] l.

Definition differs (k : string) (x : string) : bool := negb (String.eqb k x).

(** The order [sorted] puts paths in. *)
Definition path_le (a b : string) : Prop := String.leb a b = true.

(** [k in l] and [l.remove(k)] on a list of [str] *)
Definition list_mem (k : string) (l : list string) : bool :=
  existsb (String.eqb k) l.

Fixpoint list_remove (k : string) (l : list string) : list string :=
  match l with
  | [] => []
  | k' :: l' => if String.eqb k k' then l' else k' :: list_remove k l'
  end.

(* ===================================================================== *)
(** ** [stella/manifest.py] *)
(* ===================================================================== *)

Module ManifestPy.

(** The values [json.loads] returns and [json.dumps] accepts.  Dataclass
    fields are not checked at run time, so they hold such values too. *)
Inductive json : Type :=
| JNull                      (* None *)
| JBool (b : bool)
| JInt (n : Z)
| JFloat (f : float)
| JStr (s : string)
| JList (l : list json)
| JDict (d : list (string * json)).

(** [bool(v)] *)
Definition truthy (v : json) : bool :=
  match v with
  | JNull => false
  | JBool b => b
  | JInt n => negb (n =? 0)%Z
  | JFloat f => negb (PrimFloat.eqb f 0%float)
  | JStr s => negb (String.eqb s "")
  | JList l => match l with [] => false | _ => true end
  | JDict d => match d with [] => false | _ => true end
  end.

(** [v is not None] *)
Definition is_not_none (v : json) : bool :=
  match v with
  | JNull => false
  | _ => true
  end.

(** [d.get(k, default)]: only a dict has [get]. *)
Definition py_get (d : json) (k : string) (default : json) : result json :=
  match d with
  | JDict items =>
      Ok (match dict_get k items with Some v => v | None => default end)
  | _ => Err AttributeError
  end.

(** [iter(v)]: the elements of a list, the keys of a dict, the characters
    of a str (here one per code unit; every use below rejects a str
    element whatever it is). *)
Definition py_iter (v : json) : result (list json) :=
  match v with
  | JList l => Ok l
  | JDict d => Ok (map (fun kv => JStr (fst kv)) d)
  | JStr s => Ok (map (fun c => JStr (String c "")) (list_ascii_of_string s))
  | _ => Err TypeError
  end.

(** The keyword arguments when a dataclass with the given fields is
    built from the unpacked mapping [v]: [v] must be a mapping, every key must name a field and every
    field without a default must be given. *)
Definition kwargs (fields required : list string) (v : json)
  : result (dict json) :=
  match v with
  | JDict kw =>
      if forallb (fun k => list_mem k fields) (keys kw)
         && forallb (fun k => dict_mem k kw) required
      then Ok kw
      else Err TypeError
  | _ => Err TypeError
  end.

Definition kwarg (kw : dict json) (k : string) (default : json) : json :=
  match dict_get k kw with
  | Some v => v
  | None => default
  end.

Record Axis : Type := mkAxis {
  up : json;
  forward : json;
  handedness : json
}.

Record Generator : Type := mkGenerator {
  gen_name : json;
  gen_version : json;
  git_commit : json
}.

Record World : Type := mkWorld {
  title : json;
  tags : json;
  privacy : json
}.

Record Level : Type := mkLevel {
  id : json;
  path : json;
  name : json
}.

Record Manifest : Type := mkManifest {
  format : json;
  version : json;
  created_utc : json;
  units : json;
  axis : Axis;
  levels : list Level;
  generator : option Generator;
  world : option World;
  assets : json
}.

(** The dataclass defaults *)
Definition default_Axis : Axis := mkAxis (JStr "Y") (JStr "-Z") (JStr "right").

Definition default_Generator : Generator :=
  mkGenerator (JStr "stella-cli") (JStr "0.1.0") JNull.

Definition default_privacy : json :=
  JDict [("contains_source_media", JBool false)].

(** [Axis], [Level], [Generator] and [World] built from an unpacked
    mapping *)
Definition Axis_of (v : json) : result Axis :=
  kw <- kwargs ["up"; "forward"; "handedness"] [] v ;;
  Ok (mkAxis (kwarg kw "up" (JStr "Y")) (kwarg kw "forward" (JStr "-Z"))
             (kwarg kw "handedness" (JStr "right"))).

Definition Level_of (v : json) : result Level :=
  kw <- kwargs ["id"; "path"; "name"] ["id"; "path"] v ;;
  Ok (mkLevel (kwarg kw "id" JNull) (kwarg kw "path" JNull)
              (kwarg kw "name" JNull)).

Definition Generator_of (v : json) : result Generator :=
  kw <- kwargs ["name"; "version"; "git_commit"] [] v ;;
  Ok (mkGenerator (kwarg kw "name" (JStr "stella-cli"))
                  (kwarg kw "version" (JStr "0.1.0"))
                  (kwarg kw "git_commit" JNull)).

Definition World_of (v : json) : result World :=
  kw <- kwargs ["title"; "tags"; "privacy"] [] v ;;
  Ok (mkWorld (kwarg kw "title" (JStr "Untitled World"))
              (kwarg kw "tags" (JList []))
              (kwarg kw "privacy" default_privacy)).

(** [[f(x) for x in l]] *)
Fixpoint map_result {A B : Type} (f : A -> result B) (l : list A)
  : result (list B) :=
  match l with
  | [] => Ok []
  | x :: l' => y <- f x ;; ys <- map_result f l' ;; Ok (y :: ys)
  end.

(** [{k: v for k, v in items if v is not None}] *)
Definition drop_none (items : dict json) : dict json :=
  filter (fun kv => is_not_none (snd kv)) items.

(** [asdict] of the small dataclasses *)
Definition asdict_Axis (a : Axis) : dict json :=
  [("up", up a); ("forward", forward a); ("handedness", handedness a)].

Definition asdict_Level (l : Level) : dict json :=
  [("id", id l); ("path", path l); ("name", name l)].

Definition asdict_Generator (g : Generator) : dict json :=
  [("name", gen_name g); ("version", gen_version g);
   ("git_commit", git_commit g)].

Definition asdict_World (w : World) : dict json :=
  [("title", title w); ("tags", tags w); ("privacy", privacy w)].

(** [Manifest.to_dict] *)
Definition to_dict (m : Manifest) : json :=
  let d :=
    [("format", format m); ("version", version m);
     ("created_utc", created_utc m); ("units", units m);
     ("axis", JDict (asdict_Axis (axis m)));
     ("levels", JList (map (fun lvl => JDict (drop_none (asdict_Level lvl)))
                           (levels m)))] in
  let d := match generator m with
           | Some g => dict_set d "generator" (JDict (drop_none (asdict_Generator g)))
           | None => d
           end in
  let d := match world m with
           | Some w => dict_set d "world" (JDict (asdict_World w))
           | None => d
           end in
  let d := if truthy (assets m) then dict_set d "assets" (assets m) else d in
  JDict d.

(** [Manifest.from_dict]; [now] is [datetime.now(timezone.utc).isoformat()]. *)
Definition from_dict (now : string) (d : json) : result Manifest :=
  v_axis <- py_get d "axis" (JDict []) ;;
  axis <- Axis_of v_axis ;;
  v_levels <- py_get d "levels" (JList []) ;;
  l_levels <- py_iter v_levels ;;
  levels <- map_result Level_of l_levels ;;
  generator <-
    match d with
    | JDict items =>
        match dict_get "generator" items with
        | Some v => if truthy v then g <- Generator_of v ;; Ok (Some g)
                    else Ok None
        | None => Ok None
        end
    | _ => Err TypeError
    end ;;
  world <-
    match d with
    | JDict items =>
        match dict_get "world" items with
        | Some v => if truthy v then w <- World_of v ;; Ok (Some w)
                    else Ok None
        | None => Ok None
        end
    | _ => Err TypeError
    end ;;
  v_format <- py_get d "format" (JStr "stella.world") ;;
  v_version <- py_get d "version" (JInt 1) ;;
  v_created <- py_get d "created_utc" (JStr now) ;;
  v_units <- py_get d "units" (JStr "meters") ;;
  v_assets <- py_get d "assets" (JDict []) ;;
  Ok (mkManifest v_format v_version v_created v_units axis levels
                 generator world v_assets).

(** The four nested constructions of [from_dict], in the order they run. *)
Definition nested_parts (d : dict json)
  : result Axis * result (list Level) * result (option Generator)
    * result (option World) :=
  (Axis_of (match dict_get "axis" d with Some v => v | None => JDict [] end),
   (l <- py_iter (match dict_get "levels" d with Some v => v | None => JList [] end) ;;
    map_result Level_of l),
   match dict_get "generator" d with
   | Some v => if truthy v then g <- Generator_of v ;; Ok (Some g) else Ok None
   | None => Ok None
   end,
   match dict_get "world" d with
   | Some v => if truthy v then w <- World_of v ;; Ok (Some w) else Ok None
   | None => Ok None
   end).

(** The keys [from_dict] looks up in its argument. *)
Definition manifest_fields : list string :=
  ["axis"; "levels"; "generator"; "world"; "format"; "version";
   "created_utc"; "units"; "assets"].

(** [make_manifest(title, levels, tags, thumbnail)] *)
Definition make_manifest (now : string) (title : string)
    (levels : option (list Level)) (tags : option (list string))
    (thumbnail : option string) : Manifest :=
  let levels :=
    match levels with
    | Some l => l
    | None => [mkLevel (JStr "0") (JStr "levels/0/level.json") (JStr "Floor 0")]
    end in
  let assets :=
    match thumbnail with
    | Some t => if negb (String.eqb t "") then [("thumbnail", JStr t)] else []
    | None => []
    end in
  let tags := match tags with Some t => map JStr t | None => [] end in
  mkManifest (JStr "stella.world") (JInt 1) (JStr now) (JStr "meters")
             default_Axis levels (Some default_Generator)
             (Some (mkWorld (JStr title) (JList tags) default_privacy))
             (JDict assets).

Section Json.
(** The [json] library: [json.dumps(v, indent=2)], and [json.loads(s)],
    whose [inl msg] is a [JSONDecodeError]. *)
Variable json_dumps : json -> string.
Variable json_loads : string -> string + json.

(** [Manifest.to_json] *)
Definition to_json (m : Manifest) : string := json_dumps (to_dict m).

(** [Manifest.from_json] *)
Definition from_json (now : string) (json_str : string) : result Manifest :=
  match json_loads json_str with
  | inl msg => Err (JSONDecodeError msg)
  | inr d => from_dict now d
  end.

End Json.

End ManifestPy.

(* ===================================================================== *)
(** ** [json] *)
(* ===================================================================== *)

(** A printer and a parser for JSON text, standing for the [json] module
    where an example has to run. *)
Module JsonText.
Import ManifestPy.

Definition code (a : ascii) : Z := Z.of_nat (nat_of_ascii a).
Definition chr (n : Z) : ascii := ascii_of_nat (Z.to_nat n).
Definition str1 (n : Z) : string := String (chr n) "".

Definition quote : string := str1 34.
Definition backslash : string := str1 92.

Definition hex_digit (n : Z) : ascii :=
  chr (if (n mod 16 <? 10)%Z then 48 + n mod 16 else 87 + n mod 16)%Z.

(** A [\u] escape with its four digits *)
Definition u_escape (cp : Z) : string :=
  backslash ++ "u"
  ++ String (hex_digit (cp / 4096)) (String (hex_digit (cp / 256))
       (String (hex_digit (cp / 16)) (String (hex_digit cp) ""))).

(** A code point above the ASCII range, escaped as [json.dumps] does with
    [ensure_ascii]: two escapes for one beyond the basic plane. *)
Definition escape_code_point (cp : Z) : string :=
  if (cp <? 65536)%Z then u_escape cp
  else u_escape (55296 + (cp - 65536) / 1024)
       ++ u_escape (56320 + (cp - 65536) mod 1024).

Definition cont (a : ascii) : Z := (code a mod 64)%Z.

Fixpoint escape (s : string) : string :=
  match s with
  | EmptyString => ""
  | String a s1 =>
      let c := code a in
      if (c =? 34)%Z then backslash ++ quote ++ escape s1
      else if (c =? 92)%Z then backslash ++ backslash ++ escape s1
      else if (c =? 10)%Z then backslash ++ "n" ++ escape s1
      else if (c =? 13)%Z then backslash ++ "r" ++ escape s1
      else if (c =? 9)%Z then backslash ++ "t" ++ escape s1
      else if (c =? 8)%Z then backslash ++ "b" ++ escape s1
      else if (c =? 12)%Z then backslash ++ "f" ++ escape s1
      else if (c <? 32)%Z then u_escape c ++ escape s1
      else if (c <? 128)%Z then String a (escape s1)
      else if (c <? 224)%Z then
        match s1 with
        | String a1 s2 => escape_code_point ((c mod 32) * 64 + cont a1) ++ escape s2
        | _ => ""
        end
      else if (c <? 240)%Z then
        match s1 with
        | String a1 (String a2 s3) =>
            escape_code_point ((c mod 16) * 4096 + cont a1 * 64 + cont a2)
            ++ escape s3
        | _ => ""
        end
      else
        match s1 with
        | String a1 (String a2 (String a3 s4)) =>
            escape_code_point ((c mod 8) * 262144 + cont a1 * 4096
                               + cont a2 * 64 + cont a3)
            ++ escape s4
        | _ => ""
        end
  end.

Definition spaces (n : nat) : string := string_of_list_ascii (repeat " "%char n).

Definition dec (z : Z) : string := NilZero.string_of_int (Z.to_int z).

(** The digits of [n] after the point, [k] of them, without the zeros at
    the end. *)
Fixpoint fraction (k : nat) (n : Z) : string :=
  match k with
  | O => ""
  | S k' =>
      let top := (n / 10 ^ Z.of_nat k')%Z in
      let rest := (n mod 10 ^ Z.of_nat k')%Z in
      String (chr (48 + top)) (if (rest =? 0)%Z then "" else fraction k' rest)
  end.

(** A float, written exactly.  ([json.dumps] prints the shortest decimal
    that reads back as the same float; the one printed here reads back as
    the same float too.) *)
Definition dumps_float (f : float) : string :=
  match Prim2SF f with
  | S754_zero s => if s then "-0.0" else "0.0"
  | S754_infinity s => if s then "-Infinity" else "Infinity"
  | S754_nan => "NaN"
  | S754_finite s m e =>
      let sign := if s then "-" else "" in
      if (0 <=? e)%Z then sign ++ dec (Z.pos m * 2 ^ e) ++ ".0"
      else
        let n := (Z.pos m * 5 ^ (- e))%Z in
        sign ++ dec (n / 10 ^ (- e)) ++ "."
        ++ fraction (Z.to_nat (- e)) (n mod 10 ^ (- e))
  end.

(** [json.dumps(v, indent=2)], at a nesting depth *)
Fixpoint dumps (depth : nat) (v : json) : string :=
  match v with
  | JNull => "null"
  | JBool b => if b then "true" else "false"
  | JInt n => dec n
  | JFloat f => dumps_float f
  | JStr s => quote ++ escape s ++ quote
  | JList l =>
      match l with
      | [] => "[]"
      | _ =>
          "[" ++ PyStr.newline
          ++ String.concat ("," ++ PyStr.newline)
               (map (fun x => spaces (2 * S depth) ++ dumps (S depth) x) l)
          ++ PyStr.newline ++ spaces (2 * depth) ++ "]"
      end
  | JDict d =>
      match d with
      | [] => "{}"
      | _ =>
          "{" ++ PyStr.newline
          ++ String.concat ("," ++ PyStr.newline)
               (map (fun kv => spaces (2 * S depth) ++ quote ++ escape (fst kv)
                               ++ quote ++ ": " ++ dumps (S depth) (snd kv)) d)
          ++ PyStr.newline ++ spaces (2 * depth) ++ "}"
      end
  end.

Definition json_dumps (v : json) : string := dumps 0 v.

(** *** Reading *)

Definition is_ws (a : ascii) : bool :=
  let c := code a in ((c =? 32) || (c =? 9) || (c =? 10) || (c =? 13))%Z.

Fixpoint skip_ws (s : string) : string :=
  match s with
  | String a s1 => if is_ws a then skip_ws s1 else s
  | EmptyString => s
  end.

Definition is_digit (a : ascii) : bool := ((48 <=? code a) && (code a <=? 57))%Z.

(** A run of decimal digits: its value, its length and what follows. *)
Fixpoint digits (s : string) (acc : Z) (n : nat) : Z * nat * string :=
  match s with
  | String a s1 =>
      if is_digit a then digits s1 (acc * 10 + (code a - 48))%Z (S n)
      else (acc, n, s)
  | EmptyString => (acc, n, s)
  end.

(** The float nearest to [(-1)^neg * n * 10^e10], ties to even. *)
Definition float_of_decimal (neg : bool) (n e10 : Z) : float :=
  if (n =? 0)%Z then (if neg then (-0)%float else 0%float)
  else
    let num := (n * 10 ^ Z.max e10 0)%Z in
    let den := (10 ^ Z.max (- e10) 0)%Z in
    let shift := Z.max 0 (66 + Z.log2 den - Z.log2 num) in
    let q := (num * 2 ^ shift / den)%Z in
    let sticky := if (num * 2 ^ shift mod den =? 0)%Z then 0%Z else 1%Z in
    let m := (2 * q + sticky)%Z in
    SF2Prim (binary_normalize 53 1024 (if neg then - m else m)%Z (- shift - 1) neg).

(** A JSON number: an int when it has neither fraction nor exponent. *)
Definition parse_number (s : string) : option (json * string) :=
  let '(neg, s1) := match s with
                    | String "-" s1 => (true, s1)
                    | _ => (false, s)
                    end in
  let '(ip, n, s2) := match s1 with
                      | String "0" s2 => (0%Z, 1%nat, s2)
                      | _ => digits s1 0 0
                      end in
  match n with
  | O => None
  | _ =>
      let '(fp, k, s3) := match s2 with
                          | String "." r =>
                              let '(fp, k, r') := digits r 0 0 in
                              match k with
                              | O => (0%Z, 0%nat, s2)
                              | _ => (fp, k, r')
                              end
                          | _ => (0%Z, 0%nat, s2)
                          end in
      let '(has_exp, ex, s4) :=
        match s3 with
        | String a r =>
            if ((code a =? 101) || (code a =? 69))%Z then
              let '(eneg, r1) := match r with
                                 | String "-" r1 => (true, r1)
                                 | String "+" r1 => (false, r1)
                                 | _ => (false, r)
                                 end in
              let '(ev, en, r2) := digits r1 0 0 in
              match en with
              | O => (false, 0%Z, s3)
              | _ => (true, if eneg then (- ev)%Z else ev, r2)
              end
            else (false, 0%Z, s3)
        | EmptyString => (false, 0%Z, s3)
        end in
      match k, has_exp with
      | O, false => Some (JInt (if neg then - ip else ip)%Z, s4)
      | _, _ =>
          Some (JFloat (float_of_decimal neg (ip * 10 ^ Z.of_nat k + fp)
                                         (ex - Z.of_nat k)), s4)
      end
  end.

Definition hex_value (a : ascii) : option Z :=
  let c := code a in
  if ((48 <=? c) && (c <=? 57))%Z then Some (c - 48)%Z
  else if ((97 <=? c) && (c <=? 102))%Z then Some (c - 87)%Z
  else if ((65 <=? c) && (c <=? 70))%Z then Some (c - 55)%Z
  else None.

Definition hex4 (s : string) : option (Z * string) :=
  match s with
  | String a (String b (String c (String d r))) =>
      match hex_value a, hex_value b, hex_value c, hex_value d with
      | Some x, Some y, Some z, Some w => Some (4096 * x + 256 * y + 16 * z + w, r)%Z
      | _, _, _, _ => None
      end
  | _ => None
  end.

(** The UTF-8 code units of a code point *)
Definition utf8_of (cp : Z) : string :=
  if (cp <? 128)%Z then str1 cp
  else if (cp <? 2048)%Z then str1 (192 + cp / 64) ++ str1 (128 + cp mod 64)
  else if (cp <? 65536)%Z then
    str1 (224 + cp / 4096) ++ str1 (128 + (cp / 64) mod 64) ++ str1 (128 + cp mod 64)
  else
    str1 (240 + cp / 262144) ++ str1 (128 + (cp / 4096) mod 64)
    ++ str1 (128 + (cp / 64) mod 64) ++ str1 (128 + cp mod 64).

(** The inside of a string, after the opening quote.  A surrogate that is
    not half of a pair has no UTF-8 form and is refused. *)
Fixpoint parse_string (fuel : nat) (s acc : string) : option (string * string) :=
  match fuel with
  | O => None
  | S fuel' =>
      match s with
      | EmptyString => None
      | String a r =>
          let c := code a in
          if (c =? 34)%Z then Some (acc, r)
          else if (c <? 32)%Z then None
          else if (c =? 92)%Z then
            match r with
            | String e r1 =>
                let ce := code e in
                if (ce =? 117)%Z then
                  match hex4 r1 with
                  | Some (cp, r2) =>
                      if ((55296 <=? cp) && (cp <=? 56319))%Z then
                        match r2 with
                        | String b1 (String b2 r3) =>
                            match hex4 r3 with
                            | Some (lo, r4) =>
                                if ((code b1 =? 92) && (code b2 =? 117)
                                    && (56320 <=? lo) && (lo <=? 57343))%Z
                                then parse_string fuel' r4
                                       (acc ++ utf8_of (65536 + (cp - 55296) * 1024
                                                        + (lo - 56320)))
                                else None
                            | None => None
                            end
                        | _ => None
                        end
                      else if ((56320 <=? cp) && (cp <=? 57343))%Z then None
                      else parse_string fuel' r2 (acc ++ utf8_of cp)
                  | None => None
                  end
                else
                  match (if (ce =? 34)%Z then Some 34
                         else if (ce =? 92)%Z then Some 92
                         else if (ce =? 47)%Z then Some 47
                         else if (ce =? 98)%Z then Some 8
                         else if (ce =? 102)%Z then Some 12
                         else if (ce =? 110)%Z then Some 10
                         else if (ce =? 114)%Z then Some 13
                         else if (ce =? 116)%Z then Some 9
                         else None)%Z with
                  | Some x => parse_string fuel' r1 (acc ++ str1 x)
                  | None => None
                  end
            | EmptyString => None
            end
          else parse_string fuel' r (acc ++ String a "")
      end
  end.

Definition is_quote (a : ascii) : bool := (code a =? 34)%Z.

Fixpoint parse_value (fuel : nat) (s : string) : option (json * string) :=
  match fuel with
  | O => None
  | S fuel' =>
      match skip_ws s with
      | String "n" (String "u" (String "l" (String "l" r))) => Some (JNull, r)
      | String "t" (String "r" (String "u" (String "e" r))) => Some (JBool true, r)
      | String "f" (String "a" (String "l" (String "s" (String "e" r)))) =>
          Some (JBool false, r)
      | String "N" (String "a" (String "N" r)) => Some (JFloat nan, r)
      | String "I" (String "n" (String "f" (String "i" (String "n"
          (String "i" (String "t" (String "y" r))))))) => Some (JFloat infinity, r)
      | String "-" (String "I" (String "n" (String "f" (String "i" (String "n"
          (String "i" (String "t" (String "y" r)))))))) =>
          Some (JFloat neg_infinity, r)
      | String "[" r =>
          match skip_ws r with
          | String "]" r1 => Some (JList [], r1)
          | _ => parse_elems fuel' r []
          end
      | String "{" r =>
          match skip_ws r with
          | String "}" r1 => Some (JDict [], r1)
          | _ => parse_members fuel' r []
          end
      | String a r as s1 =>
          if is_quote a then
            match parse_string (String.length r) r "" with
            | Some (str, r1) => Some (JStr str, r1)
            | None => None
            end
          else parse_number s1
      | EmptyString => None
      end
  end
with parse_elems (fuel : nat) (s : string) (acc : list json)
  : option (json * string) :=
  match fuel with
  | O => None
  | S fuel' =>
      match parse_value fuel' s with
      | Some (v, r) =>
          match skip_ws r with
          | String "," r1 => parse_elems fuel' r1 (acc ++ [v])%list
          | String "]" r1 => Some (JList (acc ++ [v])%list, r1)
          | _ => None
          end
      | None => None
      end
  end
with parse_members (fuel : nat) (s : string) (acc : dict json)
  : option (json * string) :=
  match fuel with
  | O => None
  | S fuel' =>
      match skip_ws s with
      | String a r =>
          if is_quote a then
            match parse_string (String.length r) r "" with
            | Some (key, r1) =>
                match skip_ws r1 with
                | String ":" r2 =>
                    match parse_value fuel' r2 with
                    | Some (v, r3) =>
                        match skip_ws r3 with
                        | String "," r4 => parse_members fuel' r4 (dict_set acc key v)
                        | String "}" r4 => Some (JDict (dict_set acc key v), r4)
                        | _ => None
                        end
                    | None => None
                    end
                | _ => None
                end
            | None => None
            end
          else None
      | EmptyString => None
      end
  end.

(** [str(v)] for a value that is not a str.  For a float, a list or a dict
    Python prints its [repr]; the JSON text stands for it here. *)
Definition py_str (v : json) : string :=
  match v with
  | JNull => "None"
  | JBool b => if b then "True" else "False"
  | JInt n => dec n
  | JStr s => s
  | _ => json_dumps v
  end.

(** [json.loads(s)]; the messages are shorter than the library's. *)
Definition json_loads (s : string) : string + json :=
  match parse_value (S (String.length s)) s with
  | Some (v, r) =>
      match skip_ws r with
      | EmptyString => inr v
      | _ => inl "Extra data"
      end
  | None => inl "Expecting value"
  end.

End JsonText.

(* ===================================================================== *)
(** ** [stella/package.py] *)
(* ===================================================================== *)

Module PackagePy.
Import PyStr ManifestPy.

(** A ZIP archive that [zipfile] reads without error: the names and the
    contents of its entries, in the order they were written.  (An archive
    with a damaged entry, on which [zf.read] raises, is not of this
    type.) *)
Definition archive : Type := list (string * list byte).

(** A [pathlib.Path] on a POSIX system: the anchor (empty for a relative
    path, or the root) and the parts after it.  Two paths are the same
    file only when they are the same [Path]: no [..] part is resolved and
    no symbolic link followed. *)
Record Path : Type := mkPath {
  anchor : string;
  parts : list string
}.

Fixpoint parts_eqb (a b : list string) : bool :=
  match a, b with
  | [], [] => true
  | x :: a', y :: b' => String.eqb x y && parts_eqb a' b'
  | _, _ => false
  end.

Definition path_eqb (p q : Path) : bool :=
  String.eqb (anchor p) (anchor q) && parts_eqb (parts p) (parts q).

(** [str(path)] *)
Definition str_of_path (p : Path) : string :=
  match anchor p, parts p with
  | EmptyString, [] => "."
  | a, l => a ++ String.concat "/" l
  end.

(** [path.parent]: a path without parts is its own parent. *)
Definition parent (p : Path) : Path := mkPath (anchor p) (removelast (parts p)).

(** What a path of the file system holds. *)
Inductive file : Type :=
| Zip (zf : archive)
| NotZip (data : list byte)
| Dir.

(** The files the packer sees: what each path holds, [None] where nothing
    exists. *)
Definition filesystem : Type := Path -> option file.

Definition fs_write (fs : filesystem) (path : Path) (f : file) : filesystem :=
  fun p => if path_eqb p path then Some f else fs p.

(** What is found at a path: the root and the working directory are
    directories. *)
Definition lookup (fs : filesystem) (p : Path) : option file :=
  match parts p with
  | [] => Some Dir
  | _ => fs p
  end.

(** The directories a path goes through, outermost first. *)
Definition ancestors (p : Path) : list Path :=
  map (fun n => mkPath (anchor p) (firstn n (parts p)))
      (seq 1 (List.length (parts p) - 1)%nat).

(** The walk down to a path: every directory on the way has to be
    there. *)
Fixpoint all_dirs (fs : filesystem) (l : list Path) : result unit :=
  match l with
  | [] => Ok tt
  | a :: l' =>
      match fs a with
      | Some Dir => all_dirs fs l'
      | Some _ => Err NotADirectoryError
      | None => Err FileNotFoundError
      end
  end.

(** [path.exists()] and [path.is_dir()] *)
Definition path_exists (fs : filesystem) (p : Path) : bool :=
  match all_dirs fs (ancestors p), lookup fs p with
  | Ok _, Some _ => true
  | _, _ => false
  end.

Definition is_dir (fs : filesystem) (p : Path) : bool :=
  match all_dirs fs (ancestors p), lookup fs p with
  | Ok _, Some Dir => true
  | _, _ => false
  end.

(** [os.mkdir(path)] *)
Definition os_mkdir (fs : filesystem) (p : Path) : result filesystem :=
  _ <- all_dirs fs (ancestors p) ;;
  match lookup fs p with
  | Some _ => Err FileExistsError
  | None => Ok (fs_write fs p Dir)
  end.

(** [path.mkdir(parents=True, exist_ok=True)]; [n] is the number of parts
    of the path. *)
Fixpoint mkdir_parents (n : nat) (fs : filesystem) (p : Path)
  : filesystem * result unit :=
  match os_mkdir fs p with
  | Ok fs' => (fs', Ok tt)
  | Err FileNotFoundError =>
      match n with
      | O => (fs, Err FileNotFoundError)
      | S n' =>
          match mkdir_parents n' fs (parent p) with
          | (fs1, Err e) => (fs1, Err e)
          | (fs1, Ok _) =>
              match os_mkdir fs1 p with
              | Ok fs2 => (fs2, Ok tt)
              | Err FileNotFoundError => (fs1, Err FileNotFoundError)
              | Err e => if is_dir fs1 p then (fs1, Ok tt) else (fs1, Err e)
              end
          end
      end
  | Err e => if is_dir fs p then (fs, Ok tt) else (fs, Err e)
  end.

Definition mkdir (fs : filesystem) (p : Path) : filesystem * result unit :=
  mkdir_parents (List.length (parts p)) fs p.

(** [zipfile.ZipFile(path, "w")]: the file is created, or emptied. *)
Definition zip_create (fs : filesystem) (path : Path) : result filesystem :=
  _ <- all_dirs fs (ancestors path) ;;
  match lookup fs path with
  | Some Dir => Err IsADirectoryError
  | _ => Ok (fs_write fs path (Zip []))
  end.

(** [zipfile.ZipFile(path, "r")] *)
Definition zip_open (fs : filesystem) (path : Path) : result archive :=
  _ <- all_dirs fs (ancestors path) ;;
  match lookup fs path with
  | None => Err FileNotFoundError
  | Some Dir => Err IsADirectoryError
  | Some (NotZip _) => Err BadZipFile
  | Some (Zip zf) => Ok zf
  end.

(** The name [zipfile] stores an entry under: the name given, cut at its
    first NUL character. *)
Fixpoint zip_name (arcname : string) : string :=
  match arcname with
  | EmptyString => EmptyString
  | String c rest =>
      if Ascii.eqb c "000"%char then EmptyString else String c (zip_name rest)
  end.

(** A name without a NUL character: one that is stored as it is. *)
Definition nul_free (arcname : string) : bool :=
  String.eqb (zip_name arcname) arcname.

(** A name [writestr] can store. *)
Definition storable (arcname : string) : bool :=
  negb (String.eqb (zip_name arcname) "")
  && (Z.of_nat (String.length (zip_name arcname)) <=? 65535)%Z.

(** [zf.writestr(arcname, data)] on an archive open for writing:
    [writestr] looks at the last character of the stored name, which is
    an [IndexError] when there is none, and packs the length of the name
    into 16 bits. *)
Definition writestr (zf : archive) (arcname : string) (data : list byte)
  : result archive :=
  let filename := zip_name arcname in
  if String.eqb filename "" then Err IndexError
  else if (65535 <? Z.of_nat (String.length filename))%Z then Err StructError
  else Ok (zf ++ [(filename, data)])%list.

(** [zf.namelist()] *)
Definition namelist (zf : archive) : list string := map fst zf.

(** [zf.read(name)]: the last entry written under that name. *)
Fixpoint zip_read (name : string) (zf : archive) : result (list byte) :=
  match zf with
  | [] => Err KeyError
  | (n, data) :: zf' =>
      match zip_read name zf' with
      | Ok d => Ok d
      | Err _ => if String.eqb n name then Ok data else Err KeyError
      end
  end.

(** [x in v] for a str [x] *)
Fixpoint contains (sub s : string) : bool :=
  prefix sub s
  || match s with
     | EmptyString => false
     | String _ s' => contains sub s'
     end.

Definition is_str (x : string) (v : json) : bool :=
  match v with
  | JStr s => String.eqb s x
  | _ => false
  end.

Definition py_contains (v : json) (x : string) : result bool :=
  match v with
  | JDict d => Ok (dict_mem x d)
  | JList l => Ok (existsb (is_str x) l)
  | JStr s => Ok (contains x s)
  | _ => Err TypeError
  end.

(** [v[k]] for a str [k] *)
Definition py_getitem (v : json) (k : string) : result json :=
  match v with
  | JDict d => match dict_get k d with Some x => Ok x | None => Err KeyError end
  | _ => Err TypeError
  end.

(** A path other than the two the packer places itself. *)
Definition ordinary (k : string) : bool :=
  differs "manifest.json" k && differs "checksums.sha256" k.

(** The entries [zf.writestr] adds for a list of paths. *)
Definition entries_of (all_files : dict (list byte)) (paths : list string)
  : archive :=
  flat_map (fun path => match dict_get path all_files with
                        | Some data => [(path, data)]
                        | None => []
                        end) paths.

(** Two dicts that hold the same items, whatever the insertion order. *)
Definition dict_equiv {V : Type} (d d' : dict V) : Prop :=
  NoDup (keys d) /\ NoDup (keys d') /\ forall k, dict_get k d = dict_get k d'.

Definition is_empty {A : Type} (l : list A) : bool :=
  match l with
  | [] => true
  | _ => false
  end.

Section Package.

(** [hashlib.sha256(data).hexdigest()] *)
Variable sha256_hex : list byte -> string.
(** [json.dumps(v, indent=2)] and [json.loads(s)] *)
Variable json_dumps : json -> string.
Variable json_loads : string -> string + json.
(** [str(v)] for a value that is not a str *)
Variable py_str : json -> string.

Definition compute_sha256 (data : list byte) : string := sha256_hex data.

(** *** [pack_stella] *)

(** The manifest argument: a [Manifest] object or a plain dict. *)
Definition manifest_bytes_of (manifest : Manifest + json) : list byte :=
  match manifest with
  | inl m => encode (to_json json_dumps m)
  | inr d => encode (json_dumps d)
  end.

(** [f"{hash}  {path}"] *)
Definition checksum_line (item : string * string) : string :=
  snd item ++ "  " ++ fst item.

(** [all_files] as it stands when the archive is opened. *)
Definition build_all_files (manifest : Manifest + json)
    (file_map : dict (list byte)) (include_checksums : bool)
  : dict (list byte) :=
  let all_files :=
    dict_update [("manifest.json", manifest_bytes_of manifest)] file_map in
  if include_checksums then
    let checksums :=
      fold_left (fun cs item => dict_set cs (fst item) (compute_sha256 (snd item)))
                (sorted_items all_files) [] in
    let checksum_lines := map checksum_line (sorted_items checksums) in
    dict_set all_files "checksums.sha256"
             (encode (String.concat newline checksum_lines))
  else all_files.

(** The same, as the specification describes it: the manifest entry merged
    with the payloads, and the text of the checksum manifest, one line
    per item in the order of the paths. *)
Definition merged (manifest : Manifest + json) (file_map : dict (list byte))
  : dict (list byte) :=
  dict_update [("manifest.json", manifest_bytes_of manifest)] file_map.

Definition digest_item (item : string * list byte) : string * string :=
  (fst item, sha256_hex (snd item)).

Definition checksum_text (d : dict (list byte)) : string :=
  String.concat newline (map checksum_line (map digest_item (sorted_items d))).

(** [sorted_paths]: sorted, then [manifest.json] moved to the front and
    [checksums.sha256] to the back. *)
Definition order_paths (all_files : dict (list byte)) : list string :=
  let sorted_paths := sorted (keys all_files) in
  let sorted_paths :=
    if list_mem "manifest.json" sorted_paths
    then "manifest.json" :: list_remove "manifest.json" sorted_paths
    else sorted_paths in
  if list_mem "checksums.sha256" sorted_paths
  then (list_remove "checksums.sha256" sorted_paths ++ ["checksums.sha256"])%list
  else sorted_paths.

(** The [for path in sorted_paths: zf.writestr(path, all_files[path])]
    loop; [zf] is what the archive holds so far. *)
Fixpoint write_entries (all_files : dict (list byte)) (paths : list string)
    (zf : archive) : archive * result unit :=
  match paths with
  | [] => (zf, Ok tt)
  | path :: rest =>
      match dict_get path all_files with
      | None => (zf, Err KeyError)
      | Some data =>
          match writestr zf path data with
          | Ok zf' => write_entries all_files rest zf'
          | Err e => (zf, Err e)
          end
      end
  end.

(** [pack_stella(output_path, manifest, file_map, include_checksums)].
    The directory of the destination is made first.
    [ZipFile(output_path, "w")] creates the file, or empties the one that
    is there; leaving the [with] block, on a normal exit or on an
    exception, closes the archive with the entries written so far. *)
Definition pack_stella (fs : filesystem) (output_path : Path)
    (manifest : Manifest + json) (file_map : dict (list byte))
    (include_checksums : bool)
  : filesystem * result Path :=
  match mkdir fs (parent output_path) with
  | (fs, Err e) => (fs, Err e)
  | (fs, Ok _) =>
      let all_files := build_all_files manifest file_map include_checksums in
      let sorted_paths := order_paths all_files in
      match zip_create fs output_path with
      | Err e => (fs, Err e)
      | Ok fs =>
          let '(zf, r) := write_entries all_files sorted_paths [] in
          (fs_write fs output_path (Zip zf), _ <- r ;; Ok output_path)
      end
  end.

(** The archive of a manifest and one level descriptor, with no render
    mesh and no collision volume. *)
Definition descriptor_only (mb level_bytes : list byte) (include_checksums : bool)
  : archive :=
  ([("manifest.json", mb); ("levels/0/level.json", level_bytes)]
   ++ (if include_checksums
       then [("checksums.sha256",
              encode (String.concat newline
                        [(sha256_hex level_bytes ++ "  levels/0/level.json")%string;
                         (sha256_hex mb ++ "  manifest.json")%string]))]
       else []))%list.

(** *** [read_stella_file] *)

Definition read_stella_file (fs : filesystem) (stella_path : Path)
    (internal_path : string) : result (list byte) :=
  zf <- zip_open fs stella_path ;;
  zip_read internal_path zf.

(** *** [verify_stella_checksums] *)

(** One turn of the loop over the lines: the errors it appends. *)
Definition check_line (zf : archive) (line : string) : result (list string) :=
  if String.eqb line "" then Ok []
  else
    match split_once "  " line with
    | None => Ok ["Malformed checksum line: " ++ line]
    | Some (expected_hash, path) =>
        if String.eqb path "checksums.sha256" then Ok []
        else if negb (list_mem path (namelist zf))
        then Ok ["Missing file: " ++ path]
        else
          data <- zip_read path zf ;;
          let actual_hash := compute_sha256 data in
          if negb (String.eqb actual_hash expected_hash)
          then Ok ["Checksum mismatch for " ++ path]
          else Ok []
    end.

Definition verify_archive (zf : archive) : result (bool * list string) :=
  if negb (list_mem "checksums.sha256" (namelist zf))
  then Ok (true, ["No checksums.sha256 file found (not an error)"])
  else
    data <- zip_read "checksums.sha256" zf ;;
    checksum_content <- decode data ;;
    errors <-
      for_each (fun line errors => e <- check_line zf line ;; Ok (errors ++ e)%list)
               (split_char "010"%char (strip checksum_content)) [] ;;
    Ok (is_empty errors, errors).

Definition verify_stella_checksums (fs : filesystem) (stella_path : Path)
  : result (bool * list string) :=
  zf <- zip_open fs stella_path ;;
  verify_archive zf.

(** *** [validate_stella] *)

(** [f"{level_id}"] *)
Definition format_value (v : json) : string :=
  match v with
  | JStr s => s
  | _ => py_str v
  end.

(** The errors one level appends. *)
Definition check_level (zf : archive) (level : json) : result (list string) :=
  level_id <- py_get level "id" (JStr "unknown") ;;
  let level_dir := "levels/" ++ format_value level_id ++ "/" in
  let required_files :=
    [level_dir ++ "level.json"; level_dir ++ "render.glb";
     level_dir ++ "collision.rlevox"] in
  Ok (flat_map (fun req_file =>
                  if negb (list_mem req_file (namelist zf))
                  then ["Missing required file: " ++ req_file]
                  else [])
               required_files).

(** The checks on the parsed manifest. *)
Definition check_manifest_data (zf : archive) (manifest_data : json)
  : result (list string) :=
  has_levels <- py_contains manifest_data "levels" ;;
  if negb has_levels then Ok ["manifest.json missing 'levels' field"]
  else
    v_levels <- py_getitem manifest_data "levels" ;;
    if negb (truthy v_levels) then Ok ["manifest.json has empty 'levels' array"]
    else
      l_levels <- py_iter v_levels ;;
      for_each (fun level errors => e <- check_level zf level ;; Ok (errors ++ e)%list)
               l_levels [].

Definition validate_stella (fs : filesystem) (stella_path : Path)
  : result (bool * list string) :=
  if negb (path_exists fs stella_path)
  then Ok (false, ["File not found: " ++ str_of_path stella_path])
  else
  match zip_open fs stella_path with
  | Err BadZipFile => Ok (false, ["Not a valid ZIP file"])
  | Err e => Err e
  | Ok zf =>
      errors <-
        (if negb (list_mem "manifest.json" (namelist zf))
         then Ok ["Missing required file: manifest.json"]
         else
           manifest_bytes <- zip_read "manifest.json" zf ;;
           text <- decode manifest_bytes ;;
           match json_loads text with
           | inl msg => Ok ["Invalid JSON in manifest.json: " ++ msg]
           | inr manifest_data => check_manifest_data zf manifest_data
           end) ;;
      errors <-
        (if list_mem "checksums.sha256" (namelist zf)
         then
           '(checksum_valid, checksum_errors) <-
             verify_stella_checksums fs stella_path ;;
           Ok (if negb checksum_valid then (errors ++ checksum_errors)%list else errors)
         else Ok errors) ;;
      Ok (is_empty errors, errors)
  end.

End Package.

End PackagePy.

(** ** Text a checksum line can carry *)

Module PathText.
Import PyStr.

(** The last code unit of a text. *)
Fixpoint last_char (s : string) : option ascii :=
  match s with
  | EmptyString => None
  | String a EmptyString => Some a
  | String _ s' => last_char s'
  end.

(** [z] is the last code unit of a character [str.strip] removes. *)
Definition ends_space (z : ascii) : bool :=
  existsb (fun w => match last_char w with
                    | Some c => Ascii.eqb c z
                    | None => false
                    end) whitespace.

Definition not_newline (a : ascii) : bool := negb (Ascii.eqb a "010").

(** A path that a line of the checksum manifest can carry: text that
    encodes to UTF-8, on one line, whose last code unit does not end a
    blank character. *)
Definition line_safe (p : string) : bool :=
  utf8_valid (encode p) && all_chars not_newline p
  && match last_char p with
     | Some z => negb (ends_space z)
     | None => false
     end.

(** An item of the checksum manifest, a path and a digest, that one line
    can carry. *)
Definition line_item (it : string * string) : Prop :=
  line_safe (fst it) = true /\ hex_digest (snd it).

End PathText.

(** ** [Manifest.validate] *)

Module ManifestChecks.
Import PyStr ManifestPy PackagePy.

(** [v == 1] *)
Definition is_one (v : json) : bool :=
  match v with
  | JInt n => (n =? 1)%Z
  | JBool b => b
  | JFloat f => PrimFloat.eqb f 1%float
  | _ => false
  end.

Section Messages.
(** [str(v)] for a value that is not a str *)
Variable py_str : json -> string.

(** What one level appends to the errors. *)
Definition validate_level (errors : list string) (lvl : Level) : list string :=
  let errors :=
    if negb (truthy (id lvl))
    then (errors ++ ["Level missing required 'id' field"])%list
    else errors in
  if negb (truthy (path lvl))
  then (errors ++ [("Level " ++ format_value py_str (id lvl)
                    ++ " missing required 'path' field")%string])%list
  else errors.

(** [Manifest.validate] *)
Definition validate (m : Manifest) : list string :=
  let errors := [] in
  let errors :=
    if negb (is_str "stella.world" (format m))
    then (errors ++ [("Invalid format: " ++ format_value py_str (format m)
                      ++ ", expected 'stella.world'")%string])%list
    else errors in
  let errors :=
    if negb (is_one (version m))
    then (errors ++ [("Unsupported version: " ++ format_value py_str (version m)
                      ++ ", expected 1")%string])%list
    else errors in
  let errors :=
    if is_empty (levels m)
    then (errors ++ ["Manifest must contain at least one level"])%list
    else errors in
  let errors := fold_left validate_level (levels m) errors in
  let errors :=
    if negb (is_str "Y" (up (axis m)) || is_str "Z" (up (axis m)))
    then (errors ++ [("Invalid up axis: "
                      ++ format_value py_str (up (axis m)))%string])%list
    else errors in
  if negb (is_str "left" (handedness (axis m))
           || is_str "right" (handedness (axis m)))
  then (errors ++ [("Invalid handedness: "
                    ++ format_value py_str (handedness (axis m)))%string])%list
  else errors.

End Messages.

(** What [validate] asks of a manifest. *)
Definition level_ok (lvl : Level) : bool := truthy (id lvl) && truthy (path lvl).

Definition well_formed (m : Manifest) : bool :=
  is_str "stella.world" (format m) && is_one (version m)
  && negb (is_empty (levels m)) && forallb level_ok (levels m)
  && (is_str "Y" (up (axis m)) || is_str "Z" (up (axis m)))
  && (is_str "left" (handedness (axis m)) || is_str "right" (handedness (axis m))).

(** A manifest that [to_dict] writes down in full: no level without an
    id or a path, no generator without a name or a version, and assets
    that are either a non-empty value or the empty dict. *)
Definition level_kept (lvl : Level) : bool :=
  is_not_none (id lvl) && is_not_none (path lvl).

Definition kept (m : Manifest) : bool :=
  forallb level_kept (levels m)
  && match generator m with
     | Some g => is_not_none (gen_name g) && is_not_none (gen_version g)
     | None => true
     end
  && match assets m with
     | JDict [] => true
     | a => truthy a
     end.

End ManifestChecks.

(** ** [unpack_stella] and [list_stella_contents] *)

Module Unpack.
Import PyStr ManifestPy PackagePy.

(** What [unpack_stella] does: it returns the manifest and the open
    archive, raises its own [ValueError] when the archive has no
    [manifest.json], or lets another exception through. *)
Inductive unpacked : Type :=
| Unpacked (manifest : Manifest) (zf : archive)
| MissingManifest          (* ValueError "Invalid .stella file: missing manifest.json" *)
| Raised (e : exn).

Section Json.
(** [json.loads(s)] *)
Variable json_loads : string -> string + json.

(** [unpack_stella(stella_path)], [extract_to] left at its default;
    [now] is the clock [Manifest.from_dict] reads. *)
Definition unpack_stella (now : string) (fs : filesystem) (stella_path : Path)
  : unpacked :=
  match zip_open fs stella_path with
  | Err e => Raised e
  | Ok zf =>
      if negb (list_mem "manifest.json" (namelist zf)) then MissingManifest
      else
        match (manifest_bytes <- zip_read "manifest.json" zf ;;
               text <- decode manifest_bytes ;;
               from_json json_loads now text) with
        | Ok manifest => Unpacked manifest zf
        | Err e => Raised e
        end
  end.

End Json.

(** [list_stella_contents(stella_path)] *)
Definition list_stella_contents (fs : filesystem) (stella_path : Path)
  : result (list string) :=
  zf <- zip_open fs stella_path ;;
  Ok (namelist zf).

End Unpack.

(** ** [LevelJson] and [get_level_json] *)

Module LevelPy.
Import PyStr ManifestPy PackagePy Unpack.

Record PlayerCollision : Type := mkPlayerCollision {
  height_m : json;
  radius_m : json;
  step_height_m : json
}.

Record Spawn : Type := mkSpawn {
  position : json;
  yaw_degrees : json
}.

Record RenderAsset : Type := mkRenderAsset {
  render_type : json;
  render_uri : json
}.

Record CollisionAsset : Type := mkCollisionAsset {
  collision_type : json;
  collision_uri : json;
  player : PlayerCollision
}.

Record NavigationAsset : Type := mkNavigationAsset {
  navigation_type : json;
  navigation_uri : json
}.

Record CaptureInfo : Type := mkCaptureInfo {
  source : json;
  source_fps : json;
  notes : json
}.

Record LevelJson : Type := mkLevelJson {
  level_version : json;
  level_name : json;
  scale : json;
  spawn : Spawn;
  render : RenderAsset;
  collision : CollisionAsset;
  navigation : NavigationAsset;
  capture : option CaptureInfo
}.

(** The dataclass defaults *)
Definition default_PlayerCollision : PlayerCollision :=
  mkPlayerCollision (JFloat 0x1.b333333333333p+0) (JFloat 0x1.3333333333333p-2)
                    (JFloat 0x1.6666666666666p-2).

Definition default_position : json :=
  JList [JFloat 0; JFloat 0x1.b333333333333p+0; JFloat 0].

Definition default_scale : json := JDict [("meters_per_unit", JFloat 1)].

(** The dataclasses built from an unpacked mapping *)
Definition Spawn_of (v : json) : result Spawn :=
  kw <- kwargs ["position"; "yaw_degrees"] [] v ;;
  Ok (mkSpawn (kwarg kw "position" default_position)
              (kwarg kw "yaw_degrees" (JFloat 0))).

Definition RenderAsset_of (v : json) : result RenderAsset :=
  kw <- kwargs ["type"; "uri"] [] v ;;
  Ok (mkRenderAsset (kwarg kw "type" (JStr "glb"))
                    (kwarg kw "uri" (JStr "render.glb"))).

Definition PlayerCollision_of (v : json) : result PlayerCollision :=
  kw <- kwargs ["height_m"; "radius_m"; "step_height_m"] [] v ;;
  Ok (mkPlayerCollision (kwarg kw "height_m" (JFloat 0x1.b333333333333p+0))
                        (kwarg kw "radius_m" (JFloat 0x1.3333333333333p-2))
                        (kwarg kw "step_height_m" (JFloat 0x1.6666666666666p-2))).

Definition NavigationAsset_of (v : json) : result NavigationAsset :=
  kw <- kwargs ["type"; "uri"] [] v ;;
  Ok (mkNavigationAsset (kwarg kw "type" (JStr "none")) (kwarg kw "uri" JNull)).

Definition CaptureInfo_of (v : json) : result CaptureInfo :=
  kw <- kwargs ["source"; "source_fps"; "notes"] [] v ;;
  Ok (mkCaptureInfo (kwarg kw "source" (JStr "unknown"))
                    (kwarg kw "source_fps" JNull) (kwarg kw "notes" JNull)).

(** [d.pop(k, default)]: the dict without [k]. *)
Definition dict_remove (k : string) (d : dict json) : dict json :=
  filter (fun kv => negb (String.eqb (fst kv) k)) d.

(** [collision_data = d.get("collision", {}).copy()], then
    [collision_data.pop("player", {})]: what is left and what was popped.
    A list has [copy] but a [pop] of one argument; the other values have
    no [copy]. *)
Definition copy_and_pop_player (v : json) : result (dict json * json) :=
  match v with
  | JDict items =>
      Ok (dict_remove "player" items,
          match dict_get "player" items with Some p => p | None => JDict [] end)
  | JList _ => Err TypeError
  | _ => Err AttributeError
  end.

Definition CollisionAsset_of (v : json) : result CollisionAsset :=
  '(collision_data, player_data) <- copy_and_pop_player v ;;
  player <- PlayerCollision_of player_data ;;
  kw <- kwargs ["type"; "uri"] [] (JDict collision_data) ;;
  Ok (mkCollisionAsset (kwarg kw "type" (JStr "rlevox"))
                       (kwarg kw "uri" (JStr "collision.rlevox")) player).

(** [asdict] *)
Definition asdict_PlayerCollision (p : PlayerCollision) : dict json :=
  [("height_m", height_m p); ("radius_m", radius_m p);
   ("step_height_m", step_height_m p)].

Definition asdict_Spawn (s : Spawn) : dict json :=
  [("position", position s); ("yaw_degrees", yaw_degrees s)].

Definition asdict_RenderAsset (r : RenderAsset) : dict json :=
  [("type", render_type r); ("uri", render_uri r)].

Definition asdict_CollisionAsset (c : CollisionAsset) : dict json :=
  [("type", collision_type c); ("uri", collision_uri c);
   ("player", JDict (asdict_PlayerCollision (player c)))].

Definition asdict_NavigationAsset (n : NavigationAsset) : dict json :=
  [("type", navigation_type n); ("uri", navigation_uri n)].

Definition asdict_CaptureInfo (c : CaptureInfo) : dict json :=
  [("source", source c); ("source_fps", source_fps c); ("notes", notes c)].

(** [LevelJson.to_dict] *)
Definition to_dict (l : LevelJson) : json :=
  let collision_dict := asdict_CollisionAsset (collision l) in
  let nav_dict := drop_none (asdict_NavigationAsset (navigation l)) in
  let d :=
    [("level_version", level_version l); ("name", level_name l);
     ("scale", scale l);
     ("spawn", JDict (asdict_Spawn (spawn l)));
     ("render", JDict (asdict_RenderAsset (render l)));
     ("collision", JDict collision_dict);
     ("navigation", JDict nav_dict)] in
  let d := match capture l with
           | Some c => dict_set d "capture" (JDict (drop_none (asdict_CaptureInfo c)))
           | None => d
           end in
  JDict d.

(** [LevelJson.from_dict] *)
Definition from_dict (d : json) : result LevelJson :=
  spawn_data <- py_get d "spawn" (JDict []) ;;
  spawn <- Spawn_of spawn_data ;;
  render_data <- py_get d "render" (JDict []) ;;
  render <- RenderAsset_of render_data ;;
  v_collision <- py_get d "collision" (JDict []) ;;
  collision <- CollisionAsset_of v_collision ;;
  nav_data <- py_get d "navigation" (JDict []) ;;
  navigation <- NavigationAsset_of nav_data ;;
  capture <-
    match d with
    | JDict items =>
        match dict_get "capture" items with
        | Some v => if truthy v then c <- CaptureInfo_of v ;; Ok (Some c)
                    else Ok None
        | None => Ok None
        end
    | _ => Err TypeError
    end ;;
  v_version <- py_get d "level_version" (JInt 1) ;;
  v_name <- py_get d "name" (JStr "Level 0") ;;
  v_scale <- py_get d "scale" default_scale ;;
  Ok (mkLevelJson v_version v_name v_scale spawn render collision navigation capture).

(** [make_level_json(name, spawn_position, player_height, render_uri,
    collision_uri)] *)
Definition make_level_json (name : string) (spawn_position : option (list json))
    (player_height : float) (render_uri collision_uri : string) : LevelJson :=
  let spawn_pos :=
    match spawn_position with
    | Some (x :: l) => JList (x :: l)
    | _ => JList [JFloat 0; JFloat player_height; JFloat 0]
    end in
  mkLevelJson (JInt 1) (JStr name) default_scale
    (mkSpawn spawn_pos (JFloat 0))
    (mkRenderAsset (JStr "glb") (JStr render_uri))
    (mkCollisionAsset (JStr "rlevox") (JStr collision_uri)
       (mkPlayerCollision (JFloat player_height) (JFloat 0x1.3333333333333p-2)
                          (JFloat 0x1.6666666666666p-2)))
    (mkNavigationAsset (JStr "none") JNull)
    None.

(** A nested object that unpacks into a dataclass with the given fields:
    it is absent, or a dict with no other key. *)
Definition fits (fields : list string) (v : option json) : bool :=
  match v with
  | None => true
  | Some (JDict items) => forallb (fun k => list_mem k fields) (keys items)
  | Some _ => false
  end.

(** The dicts [from_dict] accepts, as the theorems below show. *)
Definition accepted (d : dict json) : bool :=
  fits ["position"; "yaw_degrees"] (dict_get "spawn" d)
  && fits ["type"; "uri"] (dict_get "render" d)
  && fits ["type"; "uri"; "player"] (dict_get "collision" d)
  && match dict_get "collision" d with
     | Some (JDict items) =>
         fits ["height_m"; "radius_m"; "step_height_m"] (dict_get "player" items)
     | _ => true
     end
  && fits ["type"; "uri"] (dict_get "navigation" d)
  && match dict_get "capture" d with
     | Some v => negb (truthy v) || fits ["source"; "source_fps"; "notes"] (Some v)
     | None => true
     end.

(** The keys [from_dict] looks up in its argument. *)
Definition level_fields : list string :=
  ["spawn"; "render"; "collision"; "navigation"; "capture"; "level_version";
   "name"; "scale"].

Section Json.
Variable json_dumps : json -> string.
Variable json_loads : string -> string + json.

(** [LevelJson.to_json] and [LevelJson.from_json] *)
Definition to_json (l : LevelJson) : string := json_dumps (to_dict l).

Definition from_json (json_str : string) : result LevelJson :=
  match json_loads json_str with
  | inl msg => Err (JSONDecodeError msg)
  | inr d => from_dict d
  end.

(** What [get_level_json] does: it returns the level, raises one of the
    two [ValueError]s, or lets another exception through. *)
Inductive level_outcome : Type :=
| GotLevel (l : LevelJson)
| LevelNotFound            (* ValueError "Level <id> not found in manifest" *)
| NoManifest               (* ValueError "Invalid .stella file: missing manifest.json" *)
| LevelRaised (e : exn).

(** [zf.read(name)] for a name that may not be a str: one that cannot be a
    dict key is a [TypeError], any other is not in the archive. *)
Definition zip_read_value (name : json) (zf : archive) : result (list byte) :=
  match name with
  | JStr s => zip_read s zf
  | JList _ | JDict _ => Err TypeError
  | _ => Err KeyError
  end.

(** [get_level_json(stella_path, level_id)] *)
Definition get_level_json (now : string) (fs : filesystem) (stella_path : Path)
    (level_id : string) : level_outcome :=
  match unpack_stella json_loads now fs stella_path with
  | Raised e => LevelRaised e
  | MissingManifest => NoManifest
  | Unpacked manifest zf =>
      match find (fun l => is_str level_id (id l)) (levels manifest) with
      | None => LevelNotFound
      | Some level_ref =>
          match (level_bytes <- zip_read_value (path level_ref) zf ;;
                 text <- decode level_bytes ;;
                 from_json text) with
          | Ok l => GotLevel l
          | Err e => LevelRaised e
          end
      end
  end.

End Json.

End LevelPy.

(** ** Sample data, from the package tests *)

Module Fixtures.
Import PyStr ManifestPy PackagePy.

(** A directory with nothing in it. *)
Definition no_files : filesystem := fun _ => None.

(** [Path("world.stella")] *)
Definition world_stella : Path := mkPath "" ["world.stella"].

Definition level_only : dict (list byte) :=
  [("levels/0/level.json", encode "{}")].

Definition full_level : dict (list byte) :=
  [("levels/0/level.json", encode "{}");
   ("levels/0/render.glb", encode "GLB_DATA");
   ("levels/0/collision.rlevox", encode "VOX_DATA")].

Definition default_manifest : Manifest :=
  make_manifest "2025-12-15T00:00:00+00:00" "Untitled World" None None None.

(** [pack_stella] on the real digest and the real JSON printer. *)
Definition pack (fs : filesystem) (output_path : Path)
    (manifest : Manifest + json) (file_map : dict (list byte))
    (include_checksums : bool)
  : filesystem * result Path :=
  pack_stella Hashlib.sha256_hex JsonText.json_dumps fs output_path manifest
              file_map include_checksums.

(** An archive whose checksum manifest has a good line for [a.txt] and a
    line for a file that is not there. *)
Definition checked_archive : archive :=
  [("a.txt", encode "hello");
   ("checksums.sha256",
    encode ("2cf24dba5fb0a30e26e83b2ac5b9e29e1b161e5c1fa7425e73043362938b9824  a.txt"
            ++ newline ++ "00  gone.bin"))].

End Fixtures.

(** ** More sample data *)

Module Samples.
Import PyStr ManifestPy PackagePy Fixtures.

Definition hello_files : dict (list byte) := [("a.txt", encode "hello")].

(** Payload maps with keys [zipfile] does not store as they are: an empty
    key, a key that ends in a NUL character. *)
Definition nul : string := String "000"%char "".

Definition empty_key_files : dict (list byte) :=
  [("", encode "x"); ("a.txt", encode "hello")].

Definition nul_key_files : dict (list byte) :=
  [("checksums.sha256" ++ nul, encode "x"); ("z.txt", encode "hello")].

Definition shadowing_files : dict (list byte) :=
  [("manifest.json", encode "{}"); ("manifest.json" ++ nul, encode "[]")].

(** The archive of [hello_files] packed under the manifest [{}], with the
    bytes of [a.txt] changed afterwards. *)
Definition tampered : archive :=
  [("manifest.json", encode "{}");
   ("a.txt", encode "HELLO");
   ("checksums.sha256",
    encode (checksum_text Hashlib.sha256_hex
              (merged JsonText.json_dumps (inr (JDict [])) hello_files)))].

(** A directory whose only file is an archive with a manifest that is
    not UTF-8. *)
Definition undecodable : filesystem :=
  fs_write no_files world_stella (Zip [("manifest.json", [xff])]).

End Samples.

Module LevelSamples.
Import PyStr ManifestPy PackagePy LevelPy.

(** A level as [make_level_json] builds it, and a payload that holds its
    text under the path of the default manifest's level. *)
Definition ground_floor : LevelJson :=
  make_level_json "Ground floor" None 0x1.b333333333333p+0 "render.glb"
                  "collision.rlevox".

Definition level_files : dict (list byte) :=
  [("levels/0/level.json",
    encode (LevelPy.to_json JsonText.json_dumps ground_floor));
   ("levels/0/render.glb", encode "GLB_DATA");
   ("levels/0/collision.rlevox", encode "VOX_DATA")].

End LevelSamples.

Local Close Scope string_scope.

(* ===================================================================== *)
(** * Properties *)
(* ===================================================================== *)

#[local] Arguments Z.mul : simpl never.
#[local] Arguments Z.add : simpl never.
#[local] Arguments Z.sub : simpl never.
#[local] Arguments Z.div : simpl never.
#[local] Arguments Z.modulo : simpl never.
#[local] Arguments Z.min : simpl never.

(** ** Bytes *)

Lemma u8_range (b : byte) : 0 <= u8 b <= 255.
Proof.
  unfold u8. pose proof (Byte.to_N_bounded b). lia.
Qed.

Lemma u8_byte_of_Z (z : Z) : u8 (byte_of_Z z) = z mod 256.
Proof.
  unfold u8, byte_of_Z.
  assert (Hr : 0 <= z mod 256 < 256) by (apply Z.mod_pos_bound; lia).
  destruct (Byte.of_N (Z.to_N (z mod 256))) as [b|] eqn:E.
  - apply Byte.to_of_N in E. rewrite E. lia.
  - apply Byte.of_N_None_iff in E. lia.
Qed.

Lemma byte_of_Z_u8 (b : byte) : byte_of_Z (u8 b) = b.
Proof.
  unfold byte_of_Z, u8. pose proof (Byte.to_N_bounded b) as Hb.
  rewrite Z.mod_small by lia. rewrite N2Z.id, Byte.of_to_N. reflexivity.
Qed.

Lemma unpack_pack_B (n : Z) (b : list byte) :
  pack_B n = Ok b -> unpack_B b = Ok n.
Proof.
  unfold pack_B. destruct ((0 <=? n) && (n <=? 255)) eqn:E; [|discriminate].
  intros [= <-]. cbn. rewrite u8_byte_of_Z. f_equal.
  apply Z.mod_small. lia.
Qed.

Lemma unpack_pack_H (n : Z) (b : list byte) :
  pack_H n = Ok b -> unpack_H b = Ok n.
Proof.
  unfold pack_H. destruct ((0 <=? n) && (n <=? 65535)) eqn:E; [|discriminate].
  intros [= <-]. cbn. rewrite !u8_byte_of_Z. f_equal.
  assert (0 <= n < 65536) by lia.
  rewrite (Z.mod_small (n / 256)) by (split; [apply Z.div_pos | apply Z.div_lt_upper_bound]; lia).
  pose proof (Z.div_mod n 256). lia.
Qed.

Lemma unpack_pack_I (n : Z) (b : list byte) :
  pack_I n = Ok b -> unpack_I b = Ok n.
Proof.
  unfold pack_I. destruct ((0 <=? n) && (n <=? 4294967295)) eqn:E; [|discriminate].
  intros [= <-]. cbn. rewrite !u8_byte_of_Z. f_equal.
  assert (Hn : 0 <= n < 4294967296) by lia.
  replace (n / 65536) with (n / 256 / 256) by (rewrite Z.div_div by lia; reflexivity).
  replace (n / 16777216) with (n / 256 / 256 / 256) by (rewrite !Z.div_div by lia; reflexivity).
  set (a := n / 256). set (b := a / 256). set (c := b / 256).
  pose proof (Z.div_mod n 256). pose proof (Z.div_mod a 256).
  pose proof (Z.div_mod b 256).
  assert (0 <= c < 256).
  { subst c b a. split.
    - repeat apply Z.div_pos; lia.
    - repeat apply Z.div_lt_upper_bound; lia. }
  rewrite (Z.mod_small c) by lia. fold a in H. fold b in H0. fold c in H1. lia.
Qed.

Lemma pack_I_length (n : Z) (b : list byte) :
  pack_I n = Ok b -> exists b0 b1 b2 b3, b = [b0; b1; b2; b3].
Proof.
  unfold pack_I. destruct (_ && _); [|discriminate]. intros [= <-]. eauto.
Qed.

Lemma pack_f_length (x : float) (b : list byte) :
  pack_f x = Ok b -> exists b0 b1 b2 b3, b = [b0; b1; b2; b3].
Proof.
  unfold pack_f. destruct (_ && _); [discriminate|]. apply pack_I_length.
Qed.

Lemma unpack_pack_f (x : float) (b : list byte) :
  pack_f x = Ok b -> unpack_f b = Ok (as_float32 x).
Proof.
  unfold pack_f, unpack_f, as_float32.
  destruct (_ && _); [discriminate|]. intros H.
  rewrite (unpack_pack_I _ _ H). reflexivity.
Qed.

(** ** Runs of a row *)

Section Runs.
Import VoxRle.

Lemma int_of_bool_eqb_1 (b : bool) : (int_of_bool b =? 1) = b.
Proof. destruct b; reflexivity. Qed.

Lemma int_of_bool_01 (b : bool) : int_of_bool b = 0 \/ int_of_bool b = 1.
Proof. destruct b; auto. Qed.

Lemma merge_run_good r runs :
  good_run r -> Forall good_run runs -> Forall good_run (merge_run r runs).
Proof.
  intros Hr Hruns. unfold merge_run.
  destruct runs as [|[n v] rest]; [auto|].
  inversion Hruns as [|? ? [Hn Hv] Hrest]; subst. cbn [fst snd] in *.
  destruct (Z.eqb_spec v (snd r)).
  - constructor; [|assumption]. destruct Hr. split; cbn [fst snd]; [lia|assumption].
  - constructor; [assumption|]. constructor; [split; assumption|assumption].
Qed.

Lemma maximal_runs_good row : Forall good_run (maximal_runs row).
Proof.
  induction row as [|b rest IH]; cbn [maximal_runs]; [constructor|].
  apply merge_run_good; [|assumption].
  split; cbn [fst snd]; [lia | apply int_of_bool_01].
Qed.

Lemma expand_merge_run b runs :
  Forall good_run runs ->
  expand (merge_run (1, int_of_bool b) runs) = b :: expand runs.
Proof.
  intros Hruns. unfold merge_run.
  destruct runs as [|[n v] rest]; cbn [fst snd].
  - cbn. rewrite int_of_bool_eqb_1. reflexivity.
  - inversion Hruns as [|? ? [Hn Hv] Hrest]; subst. cbn [fst snd] in *.
    destruct (Z.eqb_spec v (int_of_bool b)) as [->|Hne]; unfold expand; cbn [flat_map fst snd].
    + rewrite int_of_bool_eqb_1.
      replace (Z.to_nat (n + 1)) with (S (Z.to_nat n)) by lia. reflexivity.
    + rewrite int_of_bool_eqb_1. reflexivity.
Qed.

Lemma expand_maximal_runs row : expand (maximal_runs row) = row.
Proof.
  induction row as [|b rest IH]; [reflexivity|].
  cbn [maximal_runs]. rewrite expand_merge_run by apply maximal_runs_good.
  rewrite IH. reflexivity.
Qed.

Lemma merge_run_head b runs :
  exists n rest, merge_run (1, int_of_bool b) runs = (n, int_of_bool b) :: rest.
Proof.
  unfold merge_run. destruct runs as [|[n v] rest]; cbn [fst snd]; [eauto|].
  destruct (Z.eqb_spec v (int_of_bool b)) as [->|]; eauto.
Qed.

Lemma maximal_runs_neighbours_differ row : neighbours_differ (maximal_runs row).
Proof.
  induction row as [|b rest IH]; [exact I|].
  cbn [maximal_runs]. unfold merge_run.
  destruct (maximal_runs rest) as [|[n v] runs]; [exact I|]. cbn [fst snd].
  destruct (Z.eqb_spec v (int_of_bool b)) as [->|Hne].
  - destruct runs; [exact I|]. exact IH.
  - split; [cbn; congruence | exact IH].
Qed.

(** The loop of [_encode_rle_row], started in any state, appends to what
    it has the runs of the cells still to come, the first of them merged
    with the run being counted. *)
Lemma rle_loop_runs rest : forall runs cur len r c l,
  fold_left rle_step rest (runs, cur, len) = (r, c, l) ->
  r ++ [(l, c)] = runs ++ merge_run (len, cur) (maximal_runs rest).
Proof.
  induction rest as [|b rest IH]; intros runs cur len r c l H.
  - cbn in H. injection H as <- <- <-. reflexivity.
  - cbn [fold_left] in H.
    change (rle_step (runs, cur, len) b)
      with (if int_of_bool b =? cur then (runs, cur, len + 1)
            else (runs ++ [(len, cur)], int_of_bool b, 1)) in H.
    destruct (Z.eqb_spec (int_of_bool b) cur) as [Heq|Hne].
    + apply IH in H. rewrite H. f_equal. cbn [maximal_runs].
      unfold merge_run. destruct (maximal_runs rest) as [|[n v] t]; cbn [fst snd].
      * rewrite Heq, Z.eqb_refl. f_equal. f_equal. lia.
      * destruct (Z.eqb_spec v (int_of_bool b)) as [->|Hv]; cbn [fst snd].
        -- rewrite Heq, Z.eqb_refl. destruct (Z.eqb_spec cur cur); [|congruence].
           f_equal. f_equal. lia.
        -- rewrite Heq in Hv. destruct (Z.eqb_spec v cur); [congruence|].
           subst cur. rewrite Z.eqb_refl. f_equal. f_equal. lia.
    + apply IH in H. rewrite H, <- app_assoc. f_equal. cbn [app].
      cbn [maximal_runs].
      destruct (merge_run_head b (maximal_runs rest)) as (n & t & E).
      rewrite E. unfold merge_run. cbn [fst snd].
      destruct (Z.eqb_spec (int_of_bool b) cur); [congruence|]. reflexivity.
Qed.

(** [_encode_rle_row] computes the maximal runs of the row. *)
Lemma encode_rle_row_maximal row : _encode_rle_row row = maximal_runs row.
Proof.
  destruct row as [|b0 rest]; [reflexivity|].
  unfold _encode_rle_row.
  destruct (fold_left rle_step rest ([], int_of_bool b0, 1)) as [[r c] l] eqn:E.
  apply rle_loop_runs in E. exact E.
Qed.

End Runs.

(** ** Splitting a run into records *)

Section Records.
Import VoxRle.

Lemma chunks_small n : 1 <= n <= 65535 -> chunks n = [n].
Proof.
  intros Hn. unfold chunks.
  destruct (Z.eq_dec n 65535) as [->|Hne]; [reflexivity|].
  rewrite Z.div_small, Z.mod_small by lia.
  destruct (Z.ltb_spec 0 n); [reflexivity | lia].
Qed.

Lemma chunks_step n : 65535 < n -> chunks n = 65535 :: chunks (n - 65535).
Proof.
  intros Hn.
  assert (Hd : n / 65535 = (n - 65535) / 65535 + 1).
  { replace n with ((n - 65535) + 1 * 65535) at 1 by lia.
    apply Z.div_add. lia. }
  assert (Hm : n mod 65535 = (n - 65535) mod 65535).
  { replace n with ((n - 65535) + 1 * 65535) at 1 by lia.
    apply Z.mod_add. lia. }
  unfold chunks. rewrite Hd, Hm.
  assert (0 <= (n - 65535) / 65535) by (apply Z.div_pos; lia).
  replace (Z.to_nat ((n - 65535) / 65535 + 1))
    with (S (Z.to_nat ((n - 65535) / 65535))) by lia.
  reflexivity.
Qed.

Lemma chunks_bounds n : 0 <= n -> Forall (fun c => 1 <= c <= 65535) (chunks n).
Proof.
  intros Hn. unfold chunks. apply Forall_app. split.
  - apply Forall_forall. intros c Hc. apply repeat_spec in Hc. lia.
  - pose proof (Z.mod_pos_bound n 65535).
    destruct (Z.ltb_spec 0 (n mod 65535)); constructor; [lia | constructor].
Qed.

Lemma sumZ_app l1 l2 : sumZ (l1 ++ l2) = sumZ l1 + sumZ l2.
Proof.
  unfold sumZ. induction l1 as [|a l1 IH]; cbn [app fold_right]; lia.
Qed.

Lemma sumZ_repeat c k : sumZ (repeat c k) = Z.of_nat k * c.
Proof.
  unfold sumZ. induction k as [|k IH]; [reflexivity|].
  cbn [repeat fold_right]. lia.
Qed.

Lemma chunks_sum n : 0 <= n -> sumZ (chunks n) = n.
Proof.
  intros Hn. unfold chunks. rewrite sumZ_app, sumZ_repeat.
  assert (0 <= n / 65535) by (apply Z.div_pos; lia).
  pose proof (Z.div_mod n 65535). pose proof (Z.mod_pos_bound n 65535).
  rewrite Z2Nat.id by lia.
  destruct (Z.ltb_spec 0 (n mod 65535)); unfold sumZ; cbn [fold_right]; lia.
Qed.

(** A run of [n] cells takes [ceil(n / 65535)] records. *)
Lemma chunks_length n :
  0 <= n -> Z.of_nat (List.length (chunks n)) = (n + 65534) / 65535.
Proof.
  intros Hn. unfold chunks. rewrite length_app, repeat_length.
  assert (0 <= n / 65535) by (apply Z.div_pos; lia).
  pose proof (Z.div_mod n 65535). pose proof (Z.mod_pos_bound n 65535).
  rewrite Nat2Z.inj_add, Z2Nat.id by lia.
  destruct (Z.ltb_spec 0 (n mod 65535)); cbn [List.length].
  - apply Z.div_unique with (r := n mod 65535 - 1); lia.
  - apply Z.div_unique with (r := 65534); lia.
Qed.

(** The [while remaining > 0] loop writes the records of [chunks], each
    with the run's value. *)
Lemma write_run_records v : 0 <= v <= 255 -> forall n, 0 <= n ->
  write_run n v = Ok (flat_map record_bytes (split_run (n, v))).
Proof.
  intros Hv n. pattern n. apply (well_founded_induction (Z.lt_wf 0)). clear n.
  intros n IH Hn. rewrite write_run_equation_1. unfold write_run_unfold_clause_1.
  destruct (Z_lt_dec 0 n) as [Hpos|Hnpos].
  - cbv zeta. change (pack_B 0) with (Ok [x00]). unfold pack_H, pack_B.
    assert (Hc : 1 <= Z.min n 65535 <= 65535) by lia.
    destruct (Z.leb_spec 0 (Z.min n 65535)); [|lia].
    destruct (Z.leb_spec (Z.min n 65535) 65535); [|lia].
    destruct (Z.leb_spec 0 v); [|lia].
    destruct (Z.leb_spec v 255); [|lia].
    cbn [andb bind Z.leb].
    destruct (Z.le_gt_cases n 65535) as [Hle|Hgt].
    + rewrite Z.min_l by lia. replace (n - n) with 0 by lia.
      rewrite (IH 0) by lia.
      change (split_run (0, v)) with (@nil (Z * Z)). cbn [bind flat_map].
      unfold split_run. cbn [fst snd]. rewrite chunks_small by lia.
      reflexivity.
    + rewrite Z.min_r by lia.
      rewrite (IH (n - 65535)) by lia. cbn [bind].
      unfold split_run. cbn [fst snd]. rewrite (chunks_step n) by lia.
      reflexivity.
  - assert (n = 0) by lia. subst n. reflexivity.
Qed.

Lemma write_runs_records runs : Forall good_run runs ->
  write_runs runs = Ok (flat_map record_bytes (flat_map split_run runs)).
Proof.
  induction 1 as [|[n v] runs [Hn Hv] Hruns IH]; [reflexivity|].
  cbn [fst snd] in *. cbn [write_runs].
  rewrite write_run_records by lia. rewrite IH. cbn [bind flat_map].
  rewrite flat_map_app. reflexivity.
Qed.

Lemma split_run_good r : good_run r -> Forall good_record (split_run r).
Proof.
  intros [Hn Hv]. unfold split_run. apply Forall_map.
  eapply Forall_impl; [|apply chunks_bounds; lia].
  intros c Hc. split; cbn [fst snd]; assumption.
Qed.

Lemma flat_map_split_run_good runs :
  Forall good_run runs -> Forall good_record (flat_map split_run runs).
Proof.
  induction 1; cbn [flat_map]; [constructor|].
  apply Forall_app. split; [apply split_run_good|]; assumption.
Qed.

Lemma split_run_small r : 1 <= fst r <= 65535 -> split_run r = [r].
Proof.
  intros H. unfold split_run. rewrite chunks_small by assumption.
  destruct r; reflexivity.
Qed.

Lemma flat_map_split_run_small runs :
  Forall (fun r => fst r <= 65535) runs -> Forall good_run runs ->
  flat_map split_run runs = runs.
Proof.
  induction 1 as [|r runs Hr Hruns IH]; intros Hg; [reflexivity|].
  inversion Hg as [|? ? [Hn _] Hg']; subst. cbn [flat_map].
  rewrite split_run_small by lia. rewrite IH by assumption. reflexivity.
Qed.

Lemma parse_record_bytes recs : Forall good_record recs ->
  parse_records (flat_map record_bytes recs) = recs.
Proof.
  induction 1 as [|[c v] recs [Hc Hv] Hrecs IH]; [reflexivity|].
  cbn [fst snd] in *. cbn [flat_map record_bytes app fst snd parse_records].
  rewrite IH, !u8_byte_of_Z. f_equal. f_equal.
  - rewrite (Z.mod_small (c / 256))
      by (split; [apply Z.div_pos | apply Z.div_lt_upper_bound]; lia).
    pose proof (Z.div_mod c 256). lia.
  - apply Z.mod_small. lia.
Qed.

End Records.

Section RunMinimality.
Import VoxRle.

Lemma maximal_runs_repeat b n :
  1 <= n -> maximal_runs (repeat b (Z.to_nat n)) = [(n, int_of_bool b)].
Proof.
  intros Hn. replace n with (Z.of_nat (S (Z.to_nat (n - 1)))) by lia.
  rewrite Nat2Z.id. induction (Z.to_nat (n - 1)) as [|k IH].
  - reflexivity.
  - change (repeat b (S (S k))) with (b :: repeat b (S k)).
    cbn [maximal_runs]. rewrite IH. unfold merge_run. cbn [fst snd].
    rewrite Z.eqb_refl. f_equal. f_equal. lia.
Qed.

Lemma split_run_sum r :
  good_run r -> sumZ (map fst (split_run r)) = fst r.
Proof.
  intros [Hn _]. unfold split_run. rewrite map_map. cbn [fst].
  rewrite map_id. apply chunks_sum. lia.
Qed.

(** C8 (run minimality and splitting).  The records written for a row are
    its maximal runs, each cut into records of at most 65535 cells: when
    every maximal run has at most 65535 cells, the records are exactly the
    maximal runs, [k] records for [k] runs; in general every run becomes
    consecutive records of its own value, each of 1 to 65535 cells, whose
    lengths add up to the run's length; and an all-true row of 200000
    cells is written as exactly 4 records. *)
Theorem run_records_minimal_and_split :
  (forall row : list bool,
     exists payload,
       write_runs (_encode_rle_row row) = Ok payload /\
       parse_records payload = flat_map split_run (maximal_runs row) /\
       (Forall (fun r => fst r <= 65535) (maximal_runs row) ->
          parse_records payload = maximal_runs row /\
          List.length (parse_records payload) = List.length (maximal_runs row)) /\
       (forall r, In r (maximal_runs row) ->
          Forall (fun c => 1 <= fst c <= 65535 /\ snd c = snd r) (split_run r) /\
          sumZ (map fst (split_run r)) = fst r))
  /\
  (exists payload,
     write_runs (_encode_rle_row (repeat true (Z.to_nat 200000))) = Ok payload /\
     List.length (parse_records payload) = 4%nat).
Proof.
  assert (Hgen : forall row,
            write_runs (_encode_rle_row row)
            = Ok (flat_map record_bytes (flat_map split_run (maximal_runs row)))
            /\ parse_records (flat_map record_bytes (flat_map split_run (maximal_runs row)))
               = flat_map split_run (maximal_runs row)).
  { intros row. pose proof (maximal_runs_good row) as Hg. split.
    - rewrite encode_rle_row_maximal. apply write_runs_records, Hg.
    - apply parse_record_bytes, flat_map_split_run_good, Hg. }
  split.
  - intros row. destruct (Hgen row) as [Hw Hp].
    pose proof (maximal_runs_good row) as Hg.
    eexists. split; [exact Hw|]. split; [exact Hp|]. split.
    + intros Hsmall. rewrite Hp.
      rewrite flat_map_split_run_small by assumption. split; reflexivity.
    + intros r Hr. rewrite Forall_forall in Hg. specialize (Hg r Hr). split.
      * unfold split_run. apply Forall_map.
        eapply Forall_impl; [|apply chunks_bounds; destruct Hg; lia].
        intros c Hc. cbn [fst snd]. split; [exact Hc | reflexivity].
      * apply split_run_sum, Hg.
  - destruct (Hgen (repeat true (Z.to_nat 200000))) as [Hw Hp].
    eexists. split; [exact Hw|]. rewrite Hp.
    rewrite maximal_runs_repeat by lia. reflexivity.
Qed.

Lemma run_records_minimal_and_split_witness :
  exists payload,
    write_runs (_encode_rle_row [true; true; false; true]) = Ok payload /\
    parse_records payload = [(2, 1); (1, 0); (1, 1)].
Proof.
  destruct (proj1 run_records_minimal_and_split [true; true; false; true])
    as (payload & Hw & _ & Hsmall & _).
  exists payload. split; [exact Hw|].
  apply Hsmall. repeat constructor; cbn; lia.
Defined.

End RunMinimality.

(** ** Reading back what was written *)

Section RoundTrip.
Import VoxRle.

Lemma sumZ_records_nonneg recs :
  Forall good_record recs -> 0 <= sumZ (map fst recs).
Proof.
  unfold sumZ. induction 1 as [|r recs [Hr _] _ IH]; cbn [map fold_right]; lia.
Qed.

Lemma read_row_nil dx y z g f : read_row dx y z g dx f = Ok (g, f).
Proof.
  destruct f; cbn [read_row]; rewrite Z.ltb_irrefl, Z.eqb_refl; reflexivity.
Qed.

Lemma read_row_record dx y z g x c v f :
  good_record (c, v) -> x < dx ->
  read_row dx y z g x (record_bytes (c, v) ++ f)
  = read_row dx y z
      (if v =? 1 then set_slice g x (Z.min (x + c) dx) y z else g)
      (Z.min (x + c) dx) f.
Proof.
  intros [Hc Hv] Hx. cbn [fst snd] in *.
  cbn [record_bytes fst snd app read_row].
  destruct (Z.ltb_spec x dx); [|lia].
  unfold unpack_H, unpack_B. cbn [bind]. rewrite !u8_byte_of_Z.
  rewrite (Z.mod_small (c / 256))
    by (split; [apply Z.div_pos | apply Z.div_lt_upper_bound]; lia).
  replace (c mod 256 + 256 * (c / 256)) with c
    by (pose proof (Z.div_mod c 256); lia).
  rewrite (Z.mod_small v) by lia.
  destruct (Z.eqb_spec c 0); [lia|]. reflexivity.
Qed.

Lemma expand_cons c v recs :
  expand ((c, v) :: recs) = repeat (v =? 1) (Z.to_nat c) ++ expand recs.
Proof. reflexivity. Qed.

(** One row: reading the records of a row whose lengths fill the row from
    [x] on sets exactly the cells the records stand for. *)
Lemma read_row_records dx y z : forall recs g x f,
  Forall good_record recs ->
  0 <= x -> x + sumZ (map fst recs) = dx ->
  exists g',
    read_row dx y z g x (flat_map record_bytes recs ++ f) = Ok (g', f) /\
    dim_x g' = dim_x g /\ dim_y g' = dim_y g /\ dim_z g' = dim_z g /\
    (forall x' y' z', y' <> y \/ z' <> z \/ x' < x ->
       cell g' x' y' z' = cell g x' y' z') /\
    (forall x', x <= x' < dx ->
       cell g' x' y z
       = cell g x' y z || nth (Z.to_nat (x' - x)) (expand recs) false).
Proof.
  induction recs as [|[c v] recs IH]; intros g x f Hrecs Hx Hsum.
  - cbn [map sumZ fold_right] in Hsum. unfold sumZ in Hsum. cbn in Hsum.
    assert (x = dx) by lia. subst x.
    exists g. cbn [flat_map app]. rewrite read_row_nil.
    repeat split; try reflexivity. intros x' Hx'. lia.
  - apply Forall_cons_iff in Hrecs as [Hr Hrecs'].
    pose proof (sumZ_records_nonneg recs Hrecs') as Hnn.
    destruct Hr as [Hc Hv]. cbn [fst snd] in Hc, Hv.
    unfold sumZ in Hsum, Hnn. cbn [map fold_right fst] in Hsum.
    fold (sumZ (map fst recs)) in Hsum, Hnn.
    cbn [flat_map]. rewrite <- app_assoc.
    rewrite read_row_record by (try split; cbn [fst snd]; lia).
    rewrite Z.min_l by lia.
    set (g1 := if v =? 1 then set_slice g x (x + c) y z else g).
    destruct (IH g1 (x + c) f Hrecs') as (g' & Hread & Hdx & Hdy & Hdz & Hout & Hin);
      [lia | lia |].
    assert (Hdims : dim_x g1 = dim_x g /\ dim_y g1 = dim_y g /\ dim_z g1 = dim_z g).
    { subst g1. destruct (v =? 1); repeat split; reflexivity. }
    destruct Hdims as (Hdx1 & Hdy1 & Hdz1).
    exists g'. split; [exact Hread|].
    split; [congruence|]. split; [congruence|]. split; [congruence|]. split.
    + intros x' y' z' Hneq. rewrite Hout by lia.
      subst g1. destruct (v =? 1); [|reflexivity].
      cbn [set_slice cell].
      destruct (Z.leb_spec x x'), (Z.ltb_spec x' (x + c)),
               (Z.eqb_spec y' y), (Z.eqb_spec z' z);
        cbn [andb]; try reflexivity; lia.
    + intros x' Hx'. rewrite expand_cons.
      destruct (Z.lt_ge_cases x' (x + c)) as [Hlt|Hge].
      * rewrite Hout by lia.
        rewrite app_nth1 by (rewrite repeat_length; lia).
        rewrite nth_repeat_lt by lia.
        subst g1. destruct (Z.eqb_spec v 1) as [->|Hv1].
        -- cbn [set_slice cell].
           destruct (Z.leb_spec x x'), (Z.ltb_spec x' (x + c)); try lia.
           rewrite !Z.eqb_refl. cbn [andb]. rewrite orb_true_r. reflexivity.
        -- rewrite orb_false_r. reflexivity.
      * rewrite Hin by lia.
        rewrite app_nth2 by (rewrite repeat_length; lia).
        rewrite repeat_length.
        replace (Z.to_nat (x' - x) - Z.to_nat c)%nat
          with (Z.to_nat (x' - (x + c))) by lia.
        f_equal. subst g1. destruct (v =? 1); [|reflexivity].
        cbn [set_slice cell].
        destruct (Z.leb_spec x x'), (Z.ltb_spec x' (x + c)); try lia.
        reflexivity.
Qed.

(** *** The records of a whole row *)

Lemma expand_app r1 r2 : expand (r1 ++ r2) = expand r1 ++ expand r2.
Proof. unfold expand. apply flat_map_app. Qed.

Lemma expand_split_run r : good_run r -> expand (split_run r) = expand [r].
Proof.
  intros [Hn _]. destruct r as [n v]. cbn [fst snd] in *.
  unfold split_run. cbn [fst snd].
  rewrite <- (chunks_sum n) at 2 by lia.
  pose proof (chunks_bounds n ltac:(lia)) as Hb.
  induction Hb as [|c cs Hc Hcs IH].
  - reflexivity.
  - cbn [map]. rewrite expand_cons, IH.
    unfold expand. cbn [flat_map fst snd]. rewrite !app_nil_r.
    unfold sumZ. cbn [fold_right]. fold (sumZ cs).
    assert (0 <= sumZ cs).
    { clear IH. unfold sumZ. induction Hcs; cbn [fold_right]; lia. }
    rewrite Z2Nat.inj_add by lia. rewrite repeat_app. reflexivity.
Qed.

Lemma expand_records runs :
  Forall good_run runs -> expand (flat_map split_run runs) = expand runs.
Proof.
  induction 1 as [|r runs Hr Hruns IH]; [reflexivity|].
  cbn [flat_map]. rewrite expand_app, expand_split_run, IH by assumption.
  symmetry. apply (expand_app [r] runs).
Qed.

Lemma sumZ_records runs :
  Forall good_run runs ->
  sumZ (map fst (flat_map split_run runs)) = sumZ (map fst runs).
Proof.
  induction 1 as [|r runs Hr Hruns IH]; [reflexivity|].
  cbn [flat_map map]. rewrite map_app, sumZ_app, split_run_sum, IH by assumption.
  reflexivity.
Qed.

Lemma expand_length runs :
  Forall good_run runs ->
  Z.of_nat (List.length (expand runs)) = sumZ (map fst runs).
Proof.
  induction 1 as [|r runs [Hr _] Hruns IH]; [reflexivity|].
  destruct r as [n v]. rewrite expand_cons, length_app, repeat_length.
  cbn [map fst] in *. unfold sumZ in *. cbn [fold_right]. lia.
Qed.

Lemma range_length n : List.length (range n) = Z.to_nat n.
Proof. unfold range. rewrite length_map, length_seq. reflexivity. Qed.

Lemma in_range n i : In i (range n) <-> 0 <= i < n.
Proof.
  unfold range. rewrite in_map_iff. split.
  - intros (k & <- & Hk). apply in_seq in Hk. lia.
  - intros Hi. exists (Z.to_nat i). split; [lia|]. apply in_seq. lia.
Qed.

Lemma NoDup_range n : NoDup (range n).
Proof.
  unfold range. apply Finite.Injective_map_NoDup.
  - intros a b Hab. lia.
  - apply seq_NoDup.
Qed.

Lemma nth_range n i : 0 <= i < n -> nth (Z.to_nat i) (range n) 0 = i.
Proof.
  intros Hi. unfold range.
  change 0 with (Z.of_nat 0%nat) at 1. rewrite map_nth.
  rewrite seq_nth by lia. lia.
Qed.

Lemma nth_row_of grid y z x :
  0 <= x < dim_x grid ->
  nth (Z.to_nat x) (row_of grid y z) false = cell grid x y z.
Proof.
  intros Hx. unfold row_of.
  rewrite (nth_indep _ false (cell grid 0 y z))
    by (rewrite length_map, range_length; lia).
  rewrite (map_nth (fun x => cell grid x y z)). rewrite nth_range by lia.
  reflexivity.
Qed.

(** The bytes written for a row, read back from [x = 0], fill the row. *)
Lemma read_row_payload grid y z g f :
  0 <= dim_x grid ->
  (forall x, 0 <= x < dim_x grid -> cell g x y z = false) ->
  exists g',
    read_row (dim_x grid) y z g 0 (row_payload grid y z ++ f) = Ok (g', f) /\
    dim_x g' = dim_x g /\ dim_y g' = dim_y g /\ dim_z g' = dim_z g /\
    (forall x' y' z', y' <> y \/ z' <> z -> cell g' x' y' z' = cell g x' y' z') /\
    (forall x', 0 <= x' < dim_x grid -> cell g' x' y z = cell grid x' y z).
Proof.
  intros Hdx Hzero. unfold row_payload.
  pose proof (maximal_runs_good (row_of grid y z)) as Hg.
  destruct (read_row_records (dim_x grid) y z
              (flat_map split_run (maximal_runs (row_of grid y z))) g 0 f)
    as (g' & Hread & Hx & Hy & Hz & Hout & Hin).
  - apply flat_map_split_run_good, Hg.
  - lia.
  - rewrite sumZ_records by assumption.
    rewrite <- expand_length by assumption.
    rewrite expand_maximal_runs. unfold row_of.
    rewrite length_map, range_length. lia.
  - exists g'. split; [exact Hread|]. repeat split; try assumption.
    + intros x' y' z' Hne. apply Hout. tauto.
    + intros x' Hx'. rewrite Hin by lia. rewrite Hzero by lia.
      rewrite expand_records, expand_maximal_runs by assumption.
      rewrite Z.sub_0_r. cbn [orb]. apply nth_row_of. lia.
Qed.

(** *** The payload loops *)

Lemma for_each_append {I : Type} (G : I -> list byte)
    (body : I -> list byte -> result (list byte)) (idx : list I) :
  (forall i out, In i idx -> body i out = Ok (out ++ G i)) ->
  forall out, for_each body idx out = Ok (out ++ flat_map G idx).
Proof.
  induction idx as [|i idx IH]; intros Hbody out.
  - cbn. rewrite app_nil_r. reflexivity.
  - cbn [for_each flat_map]. rewrite Hbody by (left; reflexivity). cbn [bind].
    rewrite IH by (intros; apply Hbody; right; assumption).
    rewrite <- app_assoc. reflexivity.
Qed.

Lemma write_payload_spec grid out :
  write_payload grid out = Ok (out ++ payload_of grid).
Proof.
  unfold write_payload, payload_of.
  apply for_each_append. intros z out1 _.
  apply for_each_append. intros y out2 _.
  rewrite encode_rle_row_maximal, write_runs_records by apply maximal_runs_good.
  reflexivity.
Qed.

(** The rows [ys] of one plane [z]. *)
Lemma read_plane grid z : forall ys g f,
  0 <= dim_x grid -> NoDup ys ->
  (forall x y, In y ys -> 0 <= x < dim_x grid -> cell g x y z = false) ->
  exists g',
    for_each (fun y (st : Grid * list byte) =>
                let '(g, f) := st in read_row (dim_x grid) y z g 0 f)
             ys (g, flat_map (fun y => row_payload grid y z) ys ++ f)
    = Ok (g', f) /\
    dim_x g' = dim_x g /\ dim_y g' = dim_y g /\ dim_z g' = dim_z g /\
    (forall x' y' z', z' <> z \/ ~ In y' ys -> cell g' x' y' z' = cell g x' y' z') /\
    (forall x' y', In y' ys -> 0 <= x' < dim_x grid ->
       cell g' x' y' z = cell grid x' y' z).
Proof.
  induction ys as [|y ys IH]; intros g f Hdx Hnd Hzero.
  - exists g. cbn. repeat split; try reflexivity. intros ? ? [].
  - apply NoDup_cons_iff in Hnd as [Hny Hnd].
    cbn [for_each flat_map]. rewrite <- app_assoc.
    destruct (read_row_payload grid y z g
                (flat_map (fun y => row_payload grid y z) ys ++ f) Hdx)
      as (g1 & Hread & Hx1 & Hy1 & Hz1 & Hout1 & Hin1).
    { intros x Hx. apply Hzero; [left; reflexivity | assumption]. }
    rewrite Hread. cbn [bind].
    destruct (IH g1 f Hdx Hnd) as (g' & Hloop & Hx & Hy & Hz & Hout & Hin).
    { intros x y' Hy' Hx. rewrite Hout1.
      - apply Hzero; [right; assumption | assumption].
      - left. intros ->. contradiction. }
    exists g'. split; [exact Hloop|].
    split; [congruence|]. split; [congruence|]. split; [congruence|]. split.
    + intros x' y' z' Hne. rewrite Hout.
      * apply Hout1. destruct Hne as [Hne|Hne]; [right; exact Hne|].
        left. intros ->. apply Hne. left. reflexivity.
      * destruct Hne as [Hne|Hne]; [left; exact Hne|].
        right. intros Hin'. apply Hne. right. exact Hin'.
    + intros x' y' [<-|Hy'] Hx'.
      * rewrite Hout by (right; exact Hny). apply Hin1. exact Hx'.
      * apply Hin; assumption.
Qed.

(** The planes [zs]. *)
Lemma read_planes grid : forall zs g f,
  0 <= dim_x grid -> NoDup zs ->
  (forall x y z, In z zs -> 0 <= y < dim_y grid -> 0 <= x < dim_x grid ->
     cell g x y z = false) ->
  exists g',
    for_each (fun z st =>
      for_each (fun y (st : Grid * list byte) =>
                  let '(g, f) := st in read_row (dim_x grid) y z g 0 f)
               (range (dim_y grid)) st)
      zs (g, flat_map (fun z => flat_map (fun y => row_payload grid y z)
                                        (range (dim_y grid))) zs ++ f)
    = Ok (g', f) /\
    dim_x g' = dim_x g /\ dim_y g' = dim_y g /\ dim_z g' = dim_z g /\
    (forall x' y' z', ~ In z' zs -> cell g' x' y' z' = cell g x' y' z') /\
    (forall x' y' z', In z' zs -> 0 <= y' < dim_y grid -> 0 <= x' < dim_x grid ->
       cell g' x' y' z' = cell grid x' y' z').
Proof.
  induction zs as [|z zs IH]; intros g f Hdx Hnd Hzero.
  - exists g. cbn. repeat split; try reflexivity. intros ? ? ? [].
  - apply NoDup_cons_iff in Hnd as [Hnz Hnd].
    cbn [for_each flat_map]. rewrite <- app_assoc.
    destruct (read_plane grid z (range (dim_y grid)) g
                (flat_map (fun z => flat_map (fun y => row_payload grid y z)
                                             (range (dim_y grid))) zs ++ f)
                Hdx (NoDup_range _))
      as (g1 & Hread & Hx1 & Hy1 & Hz1 & Hout1 & Hin1).
    { intros x y Hy Hx.
      apply Hzero; [left; reflexivity | apply in_range; exact Hy | exact Hx]. }
    rewrite Hread. cbn [bind].
    destruct (IH g1 f Hdx Hnd) as (g' & Hloop & Hx & Hy & Hz & Hout & Hin).
    { intros x y z' Hz' Hy Hx. rewrite Hout1.
      - apply Hzero; [right; assumption | assumption | assumption].
      - left. intros ->. contradiction. }
    exists g'. split; [exact Hloop|].
    split; [congruence|]. split; [congruence|]. split; [congruence|]. split.
    + intros x' y' z' Hne. rewrite Hout.
      * apply Hout1. left. intros ->. apply Hne. left. reflexivity.
      * intros Hin'. apply Hne. right. exact Hin'.
    + intros x' y' z' [<-|Hz'] Hy' Hx'.
      * rewrite Hout by exact Hnz. apply Hin1; [apply in_range; exact Hy' | exact Hx'].
      * apply Hin; assumption.
Qed.

Lemma read_payload_spec grid f :
  0 <= dim_x grid ->
  exists g',
    read_payload (dim_x grid) (dim_y grid) (dim_z grid) (payload_of grid ++ f)
    = Ok (g', f) /\
    array_equal g' grid.
Proof.
  intros Hdx. unfold read_payload, payload_of.
  destruct (read_planes grid (range (dim_z grid))
              (zeros (dim_x grid) (dim_y grid) (dim_z grid)) f Hdx (NoDup_range _))
    as (g' & Hloop & Hx & Hy & Hz & _ & Hin).
  { reflexivity. }
  exists g'. split; [exact Hloop|].
  cbn [zeros dim_x dim_y dim_z] in Hx, Hy, Hz.
  unfold array_equal. rewrite Hx, Hy, Hz.
  repeat split; try reflexivity.
  intros x y z Hx' Hy' Hz'. apply Hin; [apply in_range; exact Hz' | exact Hy' | exact Hx'].
Qed.

(** *** The header *)

Lemma pack_I_range n b : pack_I n = Ok b -> 0 <= n <= 4294967295.
Proof.
  unfold pack_I. destruct ((0 <=? n) && (n <=? 4294967295)) eqn:E; [|discriminate].
  intros _. lia.
Qed.

(** The file [write_rlevox] leaves: a 64-byte header, then the payload. *)
Lemma write_rlevox_layout grid voxel_size ox oy oz data :
  write_rlevox grid voxel_size (ox, oy, oz) = Ok data ->
  exists b_dx b_dy b_dz b_vs b_ox b_oy b_oz,
    pack_I (dim_x grid) = Ok b_dx /\ pack_I (dim_y grid) = Ok b_dy /\
    pack_I (dim_z grid) = Ok b_dz /\ pack_f voxel_size = Ok b_vs /\
    pack_f ox = Ok b_ox /\ pack_f oy = Ok b_oy /\ pack_f oz = Ok b_oz /\
    data = (MAGIC ++ [x01; x00] ++ [x40; x00] ++ b_dx ++ b_dy ++ b_dz ++ b_vs
              ++ b_ox ++ b_oy ++ b_oz ++ ENCODING ++ [x00; x00; x00; x00]
              ++ repeat x00 20)
           ++ payload_of grid.
Proof.
  unfold write_rlevox, write_header.
  change (pack_H VERSION) with (Ok [x01; x00]).
  change (pack_H HEADER_SIZE) with (Ok [x40; x00]).
  change (pack_I 0) with (Ok [x00; x00; x00; x00]).
  cbn [bind].
  destruct (pack_I (dim_x grid)) as [b_dx|] eqn:Edx; [|discriminate].
  destruct (pack_I (dim_y grid)) as [b_dy|] eqn:Edy; [|discriminate].
  destruct (pack_I (dim_z grid)) as [b_dz|] eqn:Edz; [|discriminate].
  destruct (pack_f voxel_size) as [b_vs|] eqn:Evs; [|discriminate].
  destruct (pack_f ox) as [b_ox|] eqn:Eox; [|discriminate].
  destruct (pack_f oy) as [b_oy|] eqn:Eoy; [|discriminate].
  destruct (pack_f oz) as [b_oz|] eqn:Eoz; [|discriminate].
  cbn [bind]. rewrite write_payload_spec. intros [= <-].
  exists b_dx, b_dy, b_dz, b_vs, b_ox, b_oy, b_oz.
  repeat (split; [reflexivity|]).
  destruct (pack_I_length _ _ Edx) as (? & ? & ? & ? & ->).
  destruct (pack_I_length _ _ Edy) as (? & ? & ? & ? & ->).
  destruct (pack_I_length _ _ Edz) as (? & ? & ? & ? & ->).
  destruct (pack_f_length _ _ Evs) as (? & ? & ? & ? & ->).
  destruct (pack_f_length _ _ Eox) as (? & ? & ? & ? & ->).
  destruct (pack_f_length _ _ Eoy) as (? & ? & ? & ? & ->).
  destruct (pack_f_length _ _ Eoz) as (? & ? & ? & ? & ->).
  reflexivity.
Qed.

(** Whatever file [write_rlevox] writes, [read_rlevox] reads back from it
    a grid of the same shape with the same value in every cell, together
    with the voxel size and the origin as binary32 stores them. *)
Lemma read_rlevox_write_rlevox grid voxel_size ox oy oz data :
  write_rlevox grid voxel_size (ox, oy, oz) = Ok data ->
  exists grid',
    read_rlevox data
    = Ok (grid', as_float32 voxel_size,
          (as_float32 ox, as_float32 oy, as_float32 oz)) /\
    array_equal grid' grid.
Proof.
  intros Hw.
  destruct (write_rlevox_layout _ _ _ _ _ _ Hw)
    as (b_dx & b_dy & b_dz & b_vs & b_ox & b_oy & b_oz
        & Edx & Edy & Edz & Evs & Eox & Eoy & Eoz & ->).
  pose proof (pack_I_range _ _ Edx) as Hdx.
  pose proof (unpack_pack_I _ _ Edx) as Udx.
  pose proof (unpack_pack_I _ _ Edy) as Udy.
  pose proof (unpack_pack_I _ _ Edz) as Udz.
  pose proof (unpack_pack_f _ _ Evs) as Uvs.
  pose proof (unpack_pack_f _ _ Eox) as Uox.
  pose proof (unpack_pack_f _ _ Eoy) as Uoy.
  pose proof (unpack_pack_f _ _ Eoz) as Uoz.
  destruct (pack_I_length _ _ Edx) as (? & ? & ? & ? & ->).
  destruct (pack_I_length _ _ Edy) as (? & ? & ? & ? & ->).
  destruct (pack_I_length _ _ Edz) as (? & ? & ? & ? & ->).
  destruct (pack_f_length _ _ Evs) as (? & ? & ? & ? & ->).
  destruct (pack_f_length _ _ Eox) as (? & ? & ? & ? & ->).
  destruct (pack_f_length _ _ Eoy) as (? & ? & ? & ? & ->).
  destruct (pack_f_length _ _ Eoz) as (? & ? & ? & ? & ->).
  destruct (read_payload_spec grid [] ltac:(lia)) as (g' & Hread & Heq).
  rewrite app_nil_r in Hread.
  exists g'. split; [|exact Heq].
  unfold read_rlevox.
  cbn [MAGIC ENCODING repeat app read firstn skipn].
  change (list_byte_eqb [x53; x54; x56; x58] [x53; x54; x56; x58]) with true.
  change (list_byte_eqb [x52; x4c; x45; x31] [x52; x4c; x45; x31]) with true.
  change (unpack_H [x01; x00]) with (Ok 1).
  change (unpack_H [x40; x00]) with (Ok 64).
  change (unpack_I [x00; x00; x00; x00]) with (Ok 0).
  cbn [negb bind]. change (1 =? VERSION) with true. cbn [negb].
  rewrite Udx, Udy, Udz, Uvs, Uox, Uoy, Uoz. cbn [bind].
  change (Z.to_nat 64) with 64%nat. cbn [skipn].
  rewrite Hread. reflexivity.
Qed.


(** Encoding succeeds as soon as the three dimensions fit 32 bits and the
    four floats fit binary32. *)
Lemma write_rlevox_succeeds grid voxel_size ox oy oz :
  0 <= dim_x grid <= 4294967295 ->
  0 <= dim_y grid <= 4294967295 ->
  0 <= dim_z grid <= 4294967295 ->
  (forall v, In v [voxel_size; ox; oy; oz] -> exists b, pack_f v = Ok b) ->
  exists data, write_rlevox grid voxel_size (ox, oy, oz) = Ok data.
Proof.
  intros Hx Hy Hz HF.
  assert (HI : forall n, 0 <= n <= 4294967295 -> exists b, pack_I n = Ok b).
  { intros n Hn. unfold pack_I.
    destruct (Z.leb_spec 0 n), (Z.leb_spec n 4294967295); try lia.
    cbn [andb]. eauto. }
  destruct (HI _ Hx) as [b_dx Edx], (HI _ Hy) as [b_dy Edy], (HI _ Hz) as [b_dz Edz].
  destruct (HF voxel_size) as [b_vs Evs]; [cbn; auto|].
  destruct (HF ox) as [b_ox Eox]; [cbn; auto|].
  destruct (HF oy) as [b_oy Eoy]; [cbn; auto|].
  destruct (HF oz) as [b_oz Eoz]; [cbn; auto|].
  unfold write_rlevox, write_header.
  change (pack_H VERSION) with (Ok [x01; x00]).
  change (pack_H HEADER_SIZE) with (Ok [x40; x00]).
  change (pack_I 0) with (Ok [x00; x00; x00; x00]).
  rewrite Edx, Edy, Edz, Evs, Eox, Eoy, Eoz. cbn [bind].
  rewrite write_payload_spec. eauto.
Qed.



(** *** Rows that overshoot *)

(** C2 (overshooting rows), at a file the decoder should reject: the only
    row of [overshoot_file] holds a record of two cells for [dim_x = 1];
    [read_rlevox] clamps the run to the row and returns a grid whose cell
    is solid. *)
Theorem read_rlevox_accepts_overshoot :
  exists grid,
    read_rlevox overshoot_file = Ok (grid, 1%float, (0, 0, 0)%float) /\
    (dim_x grid, dim_y grid, dim_z grid) = (1, 1, 1) /\
    cell grid 0 0 0 = true.
Proof.
  eexists. split; [vm_compute; reflexivity|]. split; reflexivity.
Qed.

Lemma read_row_no_mismatch dx y z : forall f g x e,
  x <= dx -> read_row dx y z g x f = Err e ->
  forall z' y' got expected, e <> RowLengthMismatch z' y' got expected.
Proof.
  assert (Hstop : forall f g x e, x <= dx -> ~ x < dx ->
            read_row dx y z g x f = Err e -> False).
  { intros f g x e Hle Hlt H. assert (x = dx) by lia. subst x.
    rewrite read_row_nil in H. discriminate. }
  intros f. remember (List.length f) as n eqn:Hn. revert f Hn.
  induction n as [n IH] using lt_wf_ind. intros f Hn g x e Hle H.
  destruct (Z.ltb_spec x dx) as [Hlt|Hge]; [|exfalso; eapply Hstop; eauto; lia].
  destruct f as [|b0 [|b1 [|b2 [|b3 f']]]]; cbn [read_row] in H;
    destruct (Z.ltb_spec x dx); try lia; try (injection H as <-; discriminate).
  unfold unpack_H, unpack_B in H. cbn [bind] in H.
  destruct (u8 b0 + 256 * u8 b1 =? 0); [injection H as <-; discriminate|].
  eapply (IH (List.length f')); [|reflexivity| |exact H]; [subst n; cbn; lia | lia].
Qed.

Lemma for_each_error {I S : Type} (body : I -> S -> result S) idx : forall s e,
  for_each body idx s = Err e -> exists i s', In i idx /\ body i s' = Err e.
Proof.
  induction idx as [|i idx IH]; intros s e H; [discriminate|].
  cbn [for_each] in H. destruct (body i s) as [s1|e1] eqn:E.
  - cbn [bind] in H. destruct (IH _ _ H) as (j & s' & Hj & Hb).
    exists j, s'. split; [right; exact Hj | exact Hb].
  - cbn [bind] in H. injection H as <-. exists i, s. split; [left; reflexivity | exact E].
Qed.

Lemma read_payload_no_mismatch dx dy dz f e :
  0 <= dx -> read_payload dx dy dz f = Err e ->
  forall z y got expected, e <> RowLengthMismatch z y got expected.
Proof.
  intros Hdx H. unfold read_payload in H.
  apply for_each_error in H as (z & st & _ & H).
  apply for_each_error in H as (y & [g f'] & _ & H).
  eapply read_row_no_mismatch; [|exact H]. exact Hdx.
Qed.

Lemma unpack_I_nonneg b n : unpack_I b = Ok n -> 0 <= n.
Proof.
  destruct b as [|b0 [|b1 [|b2 [|b3 [|]]]]]; try discriminate.
  intros [= <-]. pose proof (u8_range b0). pose proof (u8_range b1).
  pose proof (u8_range b2). pose proof (u8_range b3). lia.
Qed.

Lemma unpack_H_err b e : unpack_H b = Err e -> e = StructError.
Proof. destruct b as [|? [|? [|]]]; cbn; congruence. Qed.

Lemma unpack_I_err b e : unpack_I b = Err e -> e = StructError.
Proof. destruct b as [|? [|? [|? [|? [|]]]]]; cbn; congruence. Qed.

Lemma unpack_f_err b e : unpack_f b = Err e -> e = StructError.
Proof.
  unfold unpack_f. destruct (unpack_I b) eqn:E; cbn [bind]; [discriminate|].
  intros [= <-]. eapply unpack_I_err, E.
Qed.

(** The row-length check of [read_rlevox] can never fire: a run is clamped
    to the row before the position is compared with [dim_x]. *)
Lemma read_rlevox_never_row_length_mismatch data z y got expected :
  read_rlevox data <> Err (RowLengthMismatch z y got expected).
Proof.
  unfold read_rlevox, read.
  repeat match goal with
         | |- context [if ?c then _ else _] => destruct c; [discriminate|]
         | |- context [bind (unpack_H ?b) _] =>
             let E := fresh "E" in
             destruct (unpack_H b) eqn:E; cbn [bind];
             [|apply unpack_H_err in E; subst; discriminate]
         | |- context [bind (unpack_f ?b) _] =>
             let E := fresh "E" in
             destruct (unpack_f b) eqn:E; cbn [bind];
             [|apply unpack_f_err in E; subst; discriminate]
         | |- context [bind (unpack_I ?b) _] =>
             let E := fresh "E" in
             destruct (unpack_I b) eqn:E; cbn [bind];
             [|apply unpack_I_err in E; subst; discriminate]
         end.
  match goal with
  | |- context [read_payload ?dx ?dy ?dz ?f] =>
      destruct (read_payload dx dy dz f) as [[g f']|e] eqn:Hpay; cbn [bind];
      [discriminate|]
  end.
  intros [= ->].
  eapply read_payload_no_mismatch in Hpay; [apply Hpay; reflexivity|].
  eapply unpack_I_nonneg; eassumption.
Qed.


End RoundTrip.

(** ** Coordinates *)

Section CoordinateInverse.
Import VoxRle.

Lemma Qfloor_half (i : Z) (q : Q) :
  Qeq q (Qplus (inject_Z i) (Qmake 1 2)) -> Qfloor q = i.
Proof.
  intros Hq. rewrite (Qfloor_comp _ _ Hq).
  set (x := Qplus (inject_Z i) (Qmake 1 2)).
  assert (Hlo : Qle (inject_Z i) x).
  { unfold x, Qle, Qplus, inject_Z. cbn. lia. }
  assert (Hhi : Qlt x (inject_Z (i + 1))).
  { unfold x, Qlt, Qplus, inject_Z. cbn. lia. }
  pose proof (Qfloor_resp_le _ _ Hlo) as H1. rewrite Qfloor_Z in H1.
  pose proof (Qfloor_le x) as H2.
  assert (H3 : Qlt (inject_Z (Qfloor x)) (inject_Z (i + 1)))
    by (eapply Qle_lt_trans; eassumption).
  rewrite <- Zlt_Qlt in H3. lia.
Qed.

Lemma exact_coordinate_inverse (i : Z) (voxel_size origin : Q) :
  Qlt 0 voxel_size ->
  world_to_grid1 (grid_to_world1 i voxel_size origin) voxel_size origin = Some i.
Proof.
  intros Hv. unfold world_to_grid1, grid_to_world1. cbn [n_floor n_div n_sub n_add n_mul n_of_int n_half exact_arith].
  f_equal. apply Qfloor_half. field.
  intros Hz. rewrite Hz in Hv. discriminate.
Qed.




(** The indices of the repository's own round-trip test do come back. *)
Example coordinate_inverse_test_values :
  map (fun i => world_to_grid
                  (grid_to_world i 0x1.999999999999ap-3%float (1, 2, 3)%float)
                  0x1.999999999999ap-3%float (1, 2, 3)%float)
      [(5, 10, 15); (0, 0, 0); (99, 49, 99)]
  = [Some (5, 10, 15); Some (0, 0, 0); Some (99, 49, 99)].
Proof. vm_compute. reflexivity. Qed.

End CoordinateInverse.

(** ** Strings in order *)

Section StringOrder.

Lemma ascii_compare_N a b :
  Ascii.compare a b = N.compare (N_of_ascii a) (N_of_ascii b).
Proof. reflexivity. Qed.

Lemma string_compare_refl s : String.compare s s = Eq.
Proof.
  induction s as [|a s IH]; [reflexivity|]. cbn [String.compare].
  rewrite ascii_compare_N, N.compare_refl. exact IH.
Qed.

Lemma string_compare_lt_trans : forall a b c,
  String.compare a b = Lt -> String.compare b c = Lt -> String.compare a c = Lt.
Proof.
  induction a as [|x a IH]; intros [|y b] [|z c]; cbn [String.compare];
    try congruence.
  rewrite !ascii_compare_N.
  destruct (N.compare_spec (N_of_ascii x) (N_of_ascii y)) as [Hxy|Hxy|Hxy];
    destruct (N.compare_spec (N_of_ascii y) (N_of_ascii z)) as [Hyz|Hyz|Hyz];
    try congruence; intros H1 H2.
  - rewrite Hxy, Hyz, N.compare_refl. eapply IH; eassumption.
  - rewrite Hxy. apply N.compare_lt_iff in Hyz. rewrite Hyz. reflexivity.
  - rewrite <- Hyz. apply N.compare_lt_iff in Hxy. rewrite Hxy. reflexivity.
  - assert (Hxz : (N_of_ascii x < N_of_ascii z)%N) by lia.
    apply N.compare_lt_iff in Hxz. rewrite Hxz. reflexivity.
Qed.

Lemma string_leb_refl s : String.leb s s = true.
Proof. unfold String.leb. rewrite string_compare_refl. reflexivity. Qed.

Lemma string_leb_trans a b c :
  String.leb a b = true -> String.leb b c = true -> String.leb a c = true.
Proof.
  unfold String.leb.
  destruct (String.compare a b) eqn:Hab; try discriminate;
    destruct (String.compare b c) eqn:Hbc; try discriminate; intros _ _.
  - apply String.compare_eq_iff in Hab, Hbc. subst. rewrite string_compare_refl.
    reflexivity.
  - apply String.compare_eq_iff in Hab. subst. rewrite Hbc. reflexivity.
  - apply String.compare_eq_iff in Hbc. subst. rewrite Hab. reflexivity.
  - rewrite (string_compare_lt_trans _ _ _ Hab Hbc). reflexivity.
Qed.

Lemma string_leb_false a b : String.leb a b = false -> String.leb b a = true.
Proof.
  intros H. destruct (String.leb_total a b) as [H'|H']; congruence.
Qed.

Lemma insert_str_perm k l : Permutation (insert_str k l) (k :: l).
Proof.
  induction l as [|k' l IH]; cbn [insert_str]; [reflexivity|].
  destruct (String.leb k k'); [reflexivity|].
  rewrite IH. apply perm_swap.
Qed.

Lemma sorted_perm l : Permutation (sorted l) l.
Proof.
  induction l as [|k l IH]; [reflexivity|].
  cbn [sorted fold_right]. fold (sorted l). rewrite insert_str_perm, IH. reflexivity.
Qed.

Lemma insert_str_sorted k l :
  StronglySorted path_le l -> StronglySorted path_le (insert_str k l).
Proof.
  induction 1 as [|k' l Hl IH Hk']; cbn [insert_str].
  - repeat constructor.
  - destruct (String.leb k k') eqn:E.
    + constructor; [constructor; assumption|].
      constructor; [exact E|].
      eapply Forall_impl; [|exact Hk']. intros x Hx.
      eapply string_leb_trans; eassumption.
    + constructor; [exact IH|].
      eapply Permutation_Forall; [symmetry; apply insert_str_perm|].
      constructor; [apply string_leb_false, E | exact Hk'].
Qed.

Lemma sorted_sorted l : StronglySorted path_le (sorted l).
Proof.
  induction l as [|k l IH]; [constructor|].
  cbn [sorted fold_right]. apply insert_str_sorted, IH.
Qed.

(** A list has one sorted arrangement. *)
Lemma sorted_unique : forall l1 l2,
  StronglySorted path_le l1 -> StronglySorted path_le l2 ->
  Permutation l1 l2 -> l1 = l2.
Proof.
  induction l1 as [|a l1 IH]; intros l2 H1 H2 Hp.
  - apply Permutation_nil in Hp. subst. reflexivity.
  - destruct l2 as [|b l2]; [apply Permutation_sym, Permutation_nil in Hp; discriminate|].
    apply StronglySorted_inv in H1 as [H1 Ha], H2 as [H2 Hb].
    assert (Hab : a = b).
    { assert (Hina : In a (b :: l2))
        by (eapply Permutation_in; [exact Hp | left; reflexivity]).
      assert (Hinb : In b (a :: l1))
        by (eapply Permutation_in; [symmetry; exact Hp | left; reflexivity]).
      rewrite Forall_forall in Ha, Hb.
      destruct Hina as [->|Hina]; [reflexivity|].
      destruct Hinb as [->|Hinb]; [reflexivity|].
      apply String.leb_antisym; [apply Ha, Hinb | apply Hb, Hina]. }
    subst b. f_equal. apply IH; try assumption.
    eapply Permutation_cons_inv, Hp.
Qed.

Lemma sorted_of_perm l1 l2 : Permutation l1 l2 -> sorted l1 = sorted l2.
Proof.
  intros Hp. apply sorted_unique; try apply sorted_sorted.
  rewrite !sorted_perm. exact Hp.
Qed.

Lemma sorted_id l : StronglySorted path_le l -> sorted l = l.
Proof.
  intros H. apply sorted_unique; [apply sorted_sorted | exact H | apply sorted_perm].
Qed.

End StringOrder.

(** ** Lists of paths and dicts *)

Section PathLists.

Lemma list_mem_In k l : list_mem k l = true <-> In k l.
Proof.
  unfold list_mem. rewrite existsb_exists. split.
  - intros (x & Hx & E). apply String.eqb_eq in E. subst. exact Hx.
  - intros H. exists k. split; [exact H | apply String.eqb_refl].
Qed.

Lemma list_mem_false k l : list_mem k l = false <-> ~ In k l.
Proof.
  rewrite <- list_mem_In. destruct (list_mem k l); split; congruence.
Qed.

Lemma list_remove_filter k l :
  NoDup l -> list_remove k l = filter (differs k) l.
Proof.
  induction 1 as [|x l Hx Hl IH]; [reflexivity|].
  cbn [list_remove filter]. unfold differs at 1.
  destruct (String.eqb_spec k x) as [->|Hne]; cbn [negb].
  - symmetry. apply forallb_filter_id. apply forallb_forall.
    intros y Hy. unfold differs. destruct (String.eqb_spec x y); [subst; contradiction|].
    reflexivity.
  - rewrite IH. reflexivity.
Qed.

Lemma list_remove_absent k l : ~ In k l -> list_remove k l = l.
Proof.
  induction l as [|x l IH]; intros Hk; [reflexivity|].
  cbn [list_remove]. destruct (String.eqb_spec k x) as [->|Hne].
  - exfalso. apply Hk. left. reflexivity.
  - rewrite IH; [reflexivity|]. intros H. apply Hk. right. exact H.
Qed.

Lemma filter_insert_str p k l :
  StronglySorted path_le l ->
  filter p (insert_str k l)
  = if p k then insert_str k (filter p l) else filter p l.
Proof.
  induction 1 as [|x l Hl IH Hx]; cbn [insert_str filter].
  - destruct (p k); reflexivity.
  - destruct (String.leb k x) eqn:E; cbn [filter].
    + destruct (p k) eqn:Pk; [|reflexivity].
      destruct (p x) eqn:Px; cbn [insert_str]; [rewrite E; reflexivity|].
      (* [x] is dropped: [k] still goes in front of what is left *)
      clear IH. induction l as [|y l IHl]; [reflexivity|].
      apply Forall_cons_iff in Hx as [Hxy Hx].
      apply StronglySorted_inv in Hl as [Hl Hy].
      cbn [filter]. destruct (p y).
      * cbn [insert_str].
        rewrite (string_leb_trans _ _ _ E Hxy). reflexivity.
      * apply IHl; assumption.
    + rewrite IH. destruct (p x) eqn:Px, (p k) eqn:Pk; cbn [insert_str];
        rewrite ?E; reflexivity.
Qed.

Lemma filter_sorted p l : filter p (sorted l) = sorted (filter p l).
Proof.
  induction l as [|k l IH]; [reflexivity|].
  cbn [sorted fold_right filter]. fold (sorted l).
  rewrite filter_insert_str by apply sorted_sorted. rewrite IH.
  destruct (p k); reflexivity.
Qed.

Lemma sorted_NoDup l : NoDup l -> NoDup (sorted l).
Proof.
  intros H. eapply Permutation_NoDup; [symmetry; apply sorted_perm | exact H].
Qed.

Lemma sorted_In k l : In k (sorted l) <-> In k l.
Proof.
  split; apply Permutation_in; [|symmetry]; apply sorted_perm.
Qed.

End PathLists.

Section DictFacts.
Context {V : Type}.

Lemma dict_get_set (d : dict V) k k' v :
  dict_get k (dict_set d k' v)
  = if String.eqb k k' then Some v else dict_get k d.
Proof.
  induction d as [|[k0 v0] d IH]; cbn [dict_set dict_get].
  - reflexivity.
  - destruct (String.eqb_spec k' k0) as [->|Hne]; cbn [dict_get].
    + destruct (String.eqb_spec k k0); reflexivity.
    + rewrite IH. destruct (String.eqb_spec k k0) as [->|]; [|reflexivity].
      destruct (String.eqb_spec k0 k'); [congruence | reflexivity].
Qed.

Lemma keys_dict_set (d : dict V) k v :
  keys (dict_set d k v) = if list_mem k (keys d) then keys d else (keys d ++ [k])%list.
Proof.
  unfold keys, list_mem.
  induction d as [|[k0 v0] d IH]; cbn [dict_set map existsb fst app].
  - reflexivity.
  - destruct (String.eqb_spec k k0) as [->|Hne]; cbn [orb map fst].
    + reflexivity.
    + rewrite IH. destruct (existsb (String.eqb k) (map fst d)); reflexivity.
Qed.

Lemma NoDup_keys_dict_set (d : dict V) k v :
  NoDup (keys d) -> NoDup (keys (dict_set d k v)).
Proof.
  intros H. rewrite keys_dict_set.
  destruct (list_mem k (keys d)) eqn:E; [exact H|].
  apply list_mem_false in E.
  apply NoDup_app; [exact H | repeat constructor; intros [] | ].
  intros x Hx [<-|[]]. contradiction.
Qed.

Lemma In_keys_dict_set (d : dict V) k v x :
  In x (keys (dict_set d k v)) <-> x = k \/ In x (keys d).
Proof.
  rewrite keys_dict_set. destruct (list_mem k (keys d)) eqn:E.
  - apply list_mem_In in E. split; [auto|]. intros [->|H]; assumption.
  - rewrite in_app_iff. cbn [In]. split; [intros [H|[->|[]]]; auto|].
    intros [->|H]; auto.
Qed.

Lemma dict_get_update (fm : dict V) : forall (d : dict V) k,
  NoDup (keys fm) ->
  dict_get k (dict_update d fm)
  = match dict_get k fm with
    | Some v => Some v
    | None => dict_get k d
    end.
Proof.
  unfold dict_update.
  induction fm as [|[k0 v0] fm IH]; intros d k Hnd; [reflexivity|].
  cbn [fold_left fst snd dict_get]. cbn [keys map fst] in Hnd.
  apply NoDup_cons_iff in Hnd as [Hk0 Hnd].
  rewrite IH by exact Hnd. rewrite dict_get_set.
  destruct (String.eqb_spec k k0) as [->|Hne]; [|reflexivity].
  destruct (dict_get k0 fm) as [v|] eqn:E; [|reflexivity].
  exfalso. apply Hk0. clear - E. unfold keys.
  induction fm as [|[k1 v1] fm IH]; [discriminate|].
  cbn [dict_get] in E. cbn [map fst]. destruct (String.eqb_spec k0 k1); [left; congruence|].
  right. apply IH, E.
Qed.

Lemma NoDup_keys_update (fm : dict V) : forall d : dict V,
  NoDup (keys d) -> NoDup (keys (dict_update d fm)).
Proof.
  unfold dict_update.
  induction fm as [|[k0 v0] fm IH]; intros d Hd; [exact Hd|].
  cbn [fold_left]. apply IH, NoDup_keys_dict_set, Hd.
Qed.

Lemma In_keys_update (fm : dict V) : forall (d : dict V) x,
  In x (keys (dict_update d fm)) <-> In x (keys d) \/ In x (keys fm).
Proof.
  unfold dict_update.
  induction fm as [|[k0 v0] fm IH]; intros d x; cbn [fold_left].
  - cbn. tauto.
  - rewrite IH, In_keys_dict_set. cbn [fst snd keys map In]. intuition congruence.
Qed.

Lemma dict_get_In (d : dict V) k v :
  NoDup (keys d) -> In (k, v) d -> dict_get k d = Some v.
Proof.
  induction d as [|[k0 v0] d IH]; intros Hnd Hin; [destruct Hin|].
  cbn [keys map fst] in Hnd. apply NoDup_cons_iff in Hnd as [Hk0 Hnd].
  cbn [dict_get]. destruct Hin as [[= -> ->]|Hin].
  - rewrite String.eqb_refl. reflexivity.
  - destruct (String.eqb_spec k k0) as [->|Hne]; [|apply IH; assumption].
    exfalso. apply Hk0. apply (in_map fst) in Hin. exact Hin.
Qed.

Lemma dict_get_Some_In (d : dict V) k v :
  dict_get k d = Some v -> In (k, v) d.
Proof.
  induction d as [|[k0 v0] d IH]; [discriminate|].
  cbn [dict_get]. destruct (String.eqb_spec k k0) as [->|Hne].
  - intros [= ->]. left. reflexivity.
  - intros H. right. apply IH, H.
Qed.

Lemma dict_get_None (d : dict V) k : dict_get k d = None <-> ~ In k (keys d).
Proof.
  induction d as [|[k0 v0] d IH]; cbn [dict_get keys map fst In]; [tauto|].
  destruct (String.eqb_spec k k0) as [->|Hne].
  - split; [discriminate|]. intros H. exfalso. apply H. left. reflexivity.
  - rewrite IH. unfold keys. intuition congruence.
Qed.

Lemma dict_mem_In (d : dict V) k : dict_mem k d = true <-> In k (keys d).
Proof. apply list_mem_In. Qed.

(** *** [sorted(d.items())] *)

Lemma keys_insert_item kv (l : list (string * V)) :
  keys (insert_item kv l) = insert_str (fst kv) (keys l).
Proof.
  unfold keys. induction l as [|kv' l IH]; [reflexivity|].
  cbn [insert_item insert_str map]. destruct (String.leb (fst kv) (fst kv')); [reflexivity|].
  cbn [map]. rewrite IH. reflexivity.
Qed.

Lemma keys_sorted_items (d : dict V) : keys (sorted_items d) = sorted (keys d).
Proof.
  induction d as [|kv d IH]; [reflexivity|].
  change (sorted_items (kv :: d)) with (insert_item kv (sorted_items d)).
  change (sorted (keys (kv :: d))) with (insert_str (fst kv) (sorted (keys d))).
  rewrite keys_insert_item, IH. reflexivity.
Qed.

Lemma insert_item_perm kv (l : list (string * V)) :
  Permutation (insert_item kv l) (kv :: l).
Proof.
  induction l as [|kv' l IH]; cbn [insert_item]; [reflexivity|].
  destruct (String.leb (fst kv) (fst kv')); [reflexivity|].
  rewrite IH. apply perm_swap.
Qed.

Lemma sorted_items_perm (d : dict V) : Permutation (sorted_items d) d.
Proof.
  induction d as [|kv d IH]; [reflexivity|].
  cbn [sorted_items fold_right]. fold (sorted_items d).
  rewrite insert_item_perm, IH. reflexivity.
Qed.

(** The sorted items of a dict: its keys in order, each with its value. *)
Lemma sorted_items_spec (d : dict V) :
  NoDup (keys d) ->
  keys (sorted_items d) = sorted (keys d) /\
  Forall (fun kv => dict_get (fst kv) d = Some (snd kv)) (sorted_items d).
Proof.
  intros Hnd. split; [apply keys_sorted_items|].
  apply Forall_forall. intros [k v] Hin. cbn [fst snd].
  apply dict_get_In; [exact Hnd|].
  eapply Permutation_in; [apply sorted_items_perm | exact Hin].
Qed.

(** Items with the same keys in the same order, each holding the value a
    lookup gives, are the same items. *)
Lemma items_determined (get : string -> option V) : forall l1 l2 : list (string * V),
  keys l1 = keys l2 ->
  Forall (fun kv => get (fst kv) = Some (snd kv)) l1 ->
  Forall (fun kv => get (fst kv) = Some (snd kv)) l2 ->
  l1 = l2.
Proof.
  induction l1 as [|[k1 v1] l1 IH]; intros [|[k2 v2] l2] Hk H1 H2;
    try discriminate; [reflexivity|].
  cbn [keys map fst] in Hk. injection Hk as -> Hk.
  apply Forall_cons_iff in H1 as [E1 H1], H2 as [E2 H2]. cbn [fst snd] in *.
  f_equal; [congruence|]. apply IH; assumption.
Qed.

End DictFacts.

(** ** Dicts up to insertion order *)

Section DictEquiv.
Context {V : Type}.
Import PackagePy.

Lemma In_keys_dict_get (d : dict V) k :
  In k (keys d) <-> dict_get k d <> None.
Proof.
  split.
  - intros Hin E. apply dict_get_None in E. contradiction.
  - intros Hne. destruct (in_dec string_dec k (keys d)) as [Hin|Hnin]; [exact Hin|].
    apply dict_get_None in Hnin. contradiction.
Qed.

Lemma dict_equiv_refl (d : dict V) : NoDup (keys d) -> dict_equiv d d.
Proof. intros H. repeat split; assumption. Qed.

Lemma dict_equiv_keys (d d' : dict V) :
  dict_equiv d d' -> Permutation (keys d) (keys d').
Proof.
  intros (H1 & H2 & Hget). apply NoDup_Permutation; try assumption.
  intros k. rewrite !In_keys_dict_get, Hget. reflexivity.
Qed.

Lemma dict_equiv_sorted_items (d d' : dict V) :
  dict_equiv d d' -> sorted_items d = sorted_items d'.
Proof.
  intros Heq. pose proof (dict_equiv_keys _ _ Heq) as Hp.
  destruct Heq as (H1 & H2 & Hget).
  destruct (sorted_items_spec d H1) as [Hk1 Hv1].
  destruct (sorted_items_spec d' H2) as [Hk2 Hv2].
  apply (items_determined (fun k => dict_get k d)).
  - rewrite Hk1, Hk2. apply sorted_of_perm, Hp.
  - exact Hv1.
  - eapply Forall_impl; [|exact Hv2]. intros kv E. cbn beta. rewrite Hget. exact E.
Qed.

Lemma dict_equiv_set (d d' : dict V) k v :
  dict_equiv d d' -> dict_equiv (dict_set d k v) (dict_set d' k v).
Proof.
  intros (H1 & H2 & Hget). split; [apply NoDup_keys_dict_set, H1|].
  split; [apply NoDup_keys_dict_set, H2|].
  intros k'. rewrite !dict_get_set, Hget. reflexivity.
Qed.

Lemma dict_get_perm (fm fm' : dict V) k :
  NoDup (keys fm) -> Permutation fm fm' -> dict_get k fm = dict_get k fm'.
Proof.
  intros Hnd Hp.
  assert (Hnd' : NoDup (keys fm'))
    by (eapply Permutation_NoDup; [apply Permutation_map, Hp | exact Hnd]).
  destruct (dict_get k fm) as [v|] eqn:E.
  - symmetry. apply dict_get_In; [exact Hnd'|].
    eapply Permutation_in; [exact Hp | apply dict_get_Some_In, E].
  - destruct (dict_get k fm') as [v|] eqn:E'; [|reflexivity].
    apply dict_get_Some_In in E'.
    eapply Permutation_in in E'; [|symmetry; exact Hp].
    apply dict_get_In in E'; [congruence | exact Hnd].
Qed.

Lemma dict_equiv_update (d fm fm' : dict V) :
  NoDup (keys d) -> NoDup (keys fm) -> Permutation fm fm' ->
  dict_equiv (dict_update d fm) (dict_update d fm').
Proof.
  intros Hd Hnd Hp.
  assert (Hnd' : NoDup (keys fm'))
    by (eapply Permutation_NoDup; [apply Permutation_map, Hp | exact Hnd]).
  split; [apply NoDup_keys_update, Hd|]. split; [apply NoDup_keys_update, Hd|].
  intros k. rewrite !dict_get_update by assumption.
  rewrite (dict_get_perm fm fm' k Hnd Hp). reflexivity.
Qed.

End DictEquiv.

(** ** Packing *)

Section Packing.
Import PyStr ManifestPy PackagePy.

Variable sha256_hex : list byte -> string.
Variable json_dumps : json -> string.

Abbreviation build_all_files := (build_all_files sha256_hex json_dumps).
Abbreviation pack_stella := (pack_stella sha256_hex json_dumps).
Abbreviation manifest_bytes_of := (manifest_bytes_of json_dumps).
Abbreviation merged := (merged json_dumps).
Abbreviation digest_item := (digest_item sha256_hex).
Abbreviation checksum_text := (checksum_text sha256_hex).

Lemma filter_differs_twice l :
  filter (differs "checksums.sha256") (filter (differs "manifest.json") l)
  = filter ordinary l.
Proof.
  induction l as [|x l IH]; [reflexivity|]. cbn [filter]. unfold ordinary.
  destruct (differs "manifest.json" x); cbn [filter andb]; rewrite IH;
    reflexivity.
Qed.

(** The order of the paths: [manifest.json], the ordinary paths sorted,
    [checksums.sha256] when it is there. *)
Lemma order_paths_spec (d : dict (list byte)) :
  NoDup (keys d) -> In "manifest.json"%string (keys d) ->
  order_paths d
  = ("manifest.json"%string :: sorted (filter ordinary (keys d))
     ++ (if list_mem "checksums.sha256" (keys d)
         then ["checksums.sha256"%string] else []))%list.
Proof.
  intros Hnd Hm. unfold order_paths.
  set (S := sorted (keys d)).
  assert (HS : NoDup S) by apply sorted_NoDup, Hnd.
  assert (HmS : list_mem "manifest.json" S = true)
    by (apply list_mem_In, sorted_In, Hm).
  rewrite HmS. rewrite (list_remove_filter _ _ HS).
  set (F := filter (differs "manifest.json") S).
  assert (HF : NoDup F) by apply NoDup_filter, HS.
  assert (Hc : list_mem "checksums.sha256" ("manifest.json"%string :: F)
               = list_mem "checksums.sha256" (keys d)).
  { subst F S. destruct (list_mem "checksums.sha256" (keys d)) eqn:E.
    - apply list_mem_In. right. apply filter_In. split.
      + apply sorted_In, list_mem_In, E.
      + reflexivity.
    - apply list_mem_false. apply list_mem_false in E.
      intros [Heq|Hin]; [discriminate|].
      apply filter_In in Hin as [Hin _].
      apply (proj1 (sorted_In _ _)) in Hin. contradiction. }
  rewrite Hc. destruct (list_mem "checksums.sha256" (keys d)) eqn:E.
  - cbn [list_remove]. change (String.eqb "checksums.sha256" "manifest.json") with false.
    cbn iota. rewrite (list_remove_filter _ _ HF). subst F.
    rewrite filter_differs_twice. subst S. rewrite filter_sorted. reflexivity.
  - rewrite app_nil_r. f_equal. subst F S. rewrite <- filter_sorted.
    apply filter_ext_in. intros x Hx. unfold ordinary.
    destruct (differs "manifest.json" x); [|reflexivity]. cbn [andb].
    unfold differs. destruct (String.eqb_spec "checksums.sha256" x) as [<-|]; [|reflexivity].
    apply list_mem_false in E. apply (proj1 (sorted_In _ _)) in Hx. contradiction.
Qed.

(** *** Paths *)

Lemma parts_eqb_eq a : forall b, parts_eqb a b = true <-> a = b.
Proof.
  induction a as [|x a IH]; intros [|y b]; cbn [parts_eqb];
    try (split; [discriminate | discriminate]); [tauto|].
  rewrite andb_true_iff, IH, String.eqb_eq. split.
  - intros [-> ->]. reflexivity.
  - intros [= -> ->]. auto.
Qed.

Lemma path_eqb_eq p q : path_eqb p q = true <-> p = q.
Proof.
  unfold path_eqb. rewrite andb_true_iff, String.eqb_eq, parts_eqb_eq.
  destruct p, q. cbn [anchor parts]. split.
  - intros [-> ->]. reflexivity.
  - intros [= -> ->]. auto.
Qed.

Lemma path_eqb_refl p : path_eqb p p = true.
Proof. apply path_eqb_eq. reflexivity. Qed.

Lemma fs_write_same fs p f : fs_write fs p f p = Some f.
Proof. unfold fs_write. rewrite path_eqb_refl. reflexivity. Qed.

Lemma fs_write_other fs p f q : q <> p -> fs_write fs p f q = fs q.
Proof.
  intros H. unfold fs_write. destruct (path_eqb q p) eqn:E; [|reflexivity].
  apply path_eqb_eq in E. contradiction.
Qed.

(** A path is none of the directories it goes through. *)
Lemma ancestors_shorter p a :
  In a (ancestors p) -> (List.length (parts a) < List.length (parts p))%nat.
Proof.
  unfold ancestors. intros H. apply in_map_iff in H as (n & <- & Hn).
  apply in_seq in Hn. cbn [parts]. rewrite length_firstn. lia.
Qed.

Lemma all_dirs_ext fs fs' l :
  (forall a, In a l -> fs' a = fs a) -> all_dirs fs' l = all_dirs fs l.
Proof.
  induction l as [|a l IH]; intros H; [reflexivity|].
  cbn [all_dirs]. rewrite (H a (or_introl eq_refl)).
  rewrite IH by (intros; apply H; right; assumption). reflexivity.
Qed.

Lemma all_dirs_fs_write fs p f :
  all_dirs (fs_write fs p f) (ancestors p) = all_dirs fs (ancestors p).
Proof.
  apply all_dirs_ext. intros a Ha. apply fs_write_other. intros ->.
  apply ancestors_shorter in Ha. lia.
Qed.

(** Once [ZipFile(path, "w")] has opened a path, what is written there
    can be opened for reading. *)
Lemma zip_create_open fs fs1 p zf :
  zip_create fs p = Ok fs1 ->
  zip_open (fs_write fs1 p (Zip zf)) p = Ok zf
  /\ path_exists (fs_write fs1 p (Zip zf)) p = true
  /\ fs1 = fs_write fs p (Zip []).
Proof.
  unfold zip_create, zip_open, path_exists.
  destruct (all_dirs fs (ancestors p)) as [[]|e] eqn:Ed; cbn [bind]; [|discriminate].
  intros H.
  assert (Hp : parts p <> [] /\ fs1 = fs_write fs p (Zip [])).
  { unfold lookup in H. destruct (parts p); [discriminate|].
    split; [discriminate|]. destruct (fs p) as [[| |]|]; congruence. }
  destruct Hp as [Hp ->].
  rewrite !all_dirs_fs_write, Ed. cbn [bind].
  unfold lookup. destruct (parts p); [congruence|].
  rewrite fs_write_same. auto.
Qed.

Lemma zip_open_Some fs p zf : zip_open fs p = Ok zf -> fs p = Some (Zip zf).
Proof.
  unfold zip_open. destruct (all_dirs fs (ancestors p)); cbn [bind]; [|discriminate].
  unfold lookup. destruct (parts p); [discriminate|].
  destruct (fs p) as [[| |]|]; try discriminate. intros [= ->]. reflexivity.
Qed.

(** *** Writing the entries *)

Lemma zip_name_nul_free p : nul_free p = true -> zip_name p = p.
Proof. unfold nul_free. apply String.eqb_eq. Qed.

Lemma writestr_ok zf p data zf' :
  writestr zf p data = Ok zf' -> zf' = (zf ++ [(zip_name p, data)])%list.
Proof.
  unfold writestr. destruct (String.eqb _ ""); [discriminate|].
  destruct (_ <? _); [discriminate|]. intros [= <-]. reflexivity.
Qed.

(** A loop that ends without an exception has written every entry,
    each under its stored name. *)
Lemma write_entries_returned (d : dict (list byte)) : forall paths zf zf',
  write_entries d paths zf = (zf', Ok tt) ->
  zf' = (zf ++ map (fun kv => (zip_name (fst kv), snd kv)) (entries_of d paths))%list.
Proof.
  induction paths as [|p paths IH]; intros zf zf' H.
  - cbn in H. injection H as <-. cbn. rewrite app_nil_r. reflexivity.
  - cbn [write_entries entries_of flat_map] in H |- *.
    destruct (dict_get p d) as [data|]; [|discriminate].
    destruct (writestr zf p data) as [zf1|e] eqn:Ew; [|discriminate].
    apply writestr_ok in Ew. subst zf1.
    apply IH in H. rewrite H, <- app_assoc. reflexivity.
Qed.

Lemma entries_of_names (d : dict (list byte)) paths n data :
  In (n, data) (entries_of d paths) -> In n paths /\ dict_get n d = Some data.
Proof.
  unfold entries_of. intros H. apply in_flat_map in H as (q & Hq & H).
  destruct (dict_get q d) as [x|] eqn:E; [|destruct H].
  destruct H as [[= <- <-]|[]]. auto.
Qed.

Lemma write_entries_ok (d : dict (list byte)) paths zf zf' :
  write_entries d paths zf = (zf', Ok tt) ->
  (forall p, In p paths -> nul_free p = true) ->
  zf' = (zf ++ entries_of d paths)%list.
Proof.
  intros H Hnul. apply write_entries_returned in H. rewrite H. f_equal.
  rewrite <- (map_id (entries_of d paths)) at 2. apply map_ext_in.
  intros [n data] Hin. apply entries_of_names in Hin as [Hin _].
  cbn [fst snd]. rewrite zip_name_nul_free by (apply Hnul, Hin). reflexivity.
Qed.

Lemma write_entries_ext (d d' : dict (list byte)) : forall paths zf,
  (forall k, dict_get k d = dict_get k d') ->
  write_entries d paths zf = write_entries d' paths zf.
Proof.
  induction paths as [|p paths IH]; intros zf H; [reflexivity|].
  cbn [write_entries]. rewrite (H p). destruct (dict_get p d'); [|reflexivity].
  destruct (writestr zf p l); [apply IH, H | reflexivity].
Qed.

(** A name that can be stored: it leaves a character before its first
    NUL, and no more than 65535 bytes. *)
Lemma writestr_storable zf p data :
  storable p = true -> writestr zf p data = Ok (zf ++ [(zip_name p, data)])%list.
Proof.
  unfold storable, writestr. intros H. apply andb_prop in H as [H1 H2].
  apply negb_true_iff in H1. rewrite H1.
  apply Z.leb_le in H2. destruct (Z.ltb_spec 65535 (Z.of_nat (String.length (zip_name p))));
    [lia | reflexivity].
Qed.

Lemma writestr_not_storable zf p data :
  storable p = false ->
  exists e, writestr zf p data = Err e /\ (e = IndexError \/ e = StructError).
Proof.
  unfold storable, writestr. intros H.
  destruct (String.eqb (zip_name p) ""); [eauto|]. cbn [negb andb] in H.
  apply Z.leb_gt in H.
  destruct (Z.ltb_spec 65535 (Z.of_nat (String.length (zip_name p)))); [eauto | lia].
Qed.

(** The loop stops at the first name that cannot be stored, with the
    entries before it written. *)
Lemma write_entries_stops (d : dict (list byte)) : forall paths k p zf,
  (forall q, In q paths -> In q (keys d)) ->
  nth_error paths k = Some p ->
  forallb storable (firstn k paths) = true ->
  storable p = false ->
  exists e,
    write_entries d paths zf
    = ((zf ++ map (fun kv => (zip_name (fst kv), snd kv))
                  (entries_of d (firstn k paths)))%list, Err e)
    /\ (e = IndexError \/ e = StructError).
Proof.
  induction paths as [|q paths IH]; intros k p zf Hin Hk Hgood Hbad;
    [destruct k; discriminate|].
  cbn [write_entries].
  destruct (dict_get q d) as [data|] eqn:E;
    [|apply dict_get_None in E; exfalso; apply E, Hin; left; reflexivity].
  destruct k as [|k].
  - cbn in Hk. injection Hk as ->.
    destruct (writestr_not_storable zf p data Hbad) as (e & -> & He).
    exists e. cbn. rewrite app_nil_r. auto.
  - cbn [nth_error] in Hk. cbn [firstn forallb] in Hgood.
    apply andb_prop in Hgood as [Hq Hgood].
    rewrite (writestr_storable zf q data Hq).
    destruct (IH k p (zf ++ [(zip_name q, data)])%list
                (fun x Hx => Hin x (or_intror Hx)) Hk Hgood Hbad) as (e & -> & He).
    exists e. split; [|exact He].
    cbn [firstn entries_of flat_map]. rewrite E. cbn [app map fst snd].
    rewrite <- app_assoc. reflexivity.
Qed.

Lemma namelist_entries_of (d : dict (list byte)) paths :
  (forall p, In p paths -> In p (keys d)) ->
  namelist (entries_of d paths) = paths.
Proof.
  induction paths as [|p paths IH]; intros Hin; [reflexivity|].
  cbn [entries_of flat_map]. destruct (dict_get p d) as [data|] eqn:E.
  - cbn [app namelist map fst]. f_equal. apply IH.
    intros; apply Hin; right; assumption.
  - apply dict_get_None in E. exfalso. apply E, Hin. left. reflexivity.
Qed.

Lemma entries_of_ext (d d' : dict (list byte)) paths :
  (forall k, dict_get k d = dict_get k d') ->
  entries_of d paths = entries_of d' paths.
Proof.
  intros H. unfold entries_of. apply flat_map_ext. intros p. rewrite H. reflexivity.
Qed.

Lemma zip_read_absent p zf : ~ In p (namelist zf) -> zip_read p zf = Err KeyError.
Proof.
  induction zf as [|[n data] zf IH]; intros Hp; [reflexivity|].
  cbn [zip_read]. rewrite IH by (intros H; apply Hp; right; exact H).
  destruct (String.eqb_spec n p) as [->|]; [|reflexivity].
  exfalso. apply Hp. left. reflexivity.
Qed.

Lemma zip_read_In p data zf :
  NoDup (namelist zf) -> In (p, data) zf -> zip_read p zf = Ok data.
Proof.
  induction zf as [|[n d] zf IH]; intros Hnd Hin; [destruct Hin|].
  cbn [namelist map fst] in Hnd. apply NoDup_cons_iff in Hnd as [Hn Hnd].
  cbn [zip_read]. destruct Hin as [[= -> ->]|Hin].
  - rewrite zip_read_absent by exact Hn. rewrite String.eqb_refl. reflexivity.
  - rewrite IH by assumption. reflexivity.
Qed.

Lemma In_entries_of (d : dict (list byte)) paths p data :
  In p paths -> dict_get p d = Some data -> In (p, data) (entries_of d paths).
Proof.
  intros Hp E. unfold entries_of. apply in_flat_map. exists p.
  split; [exact Hp|]. rewrite E. left. reflexivity.
Qed.

(** *** What [all_files] holds *)

Lemma dict_set_fresh {V} (d : dict V) k v :
  ~ In k (keys d) -> dict_set d k v = (d ++ [(k, v)])%list.
Proof.
  induction d as [|[k0 v0] d IH]; intros Hk; [reflexivity|].
  cbn [dict_set app]. destruct (String.eqb_spec k k0) as [->|Hne].
  - exfalso. apply Hk. left. reflexivity.
  - rewrite IH; [reflexivity|]. intros H. apply Hk. right. exact H.
Qed.

Lemma checksums_fold : forall (l : list (string * list byte)) (acc : dict string),
  NoDup (keys acc ++ keys l) ->
  fold_left (fun cs item => dict_set cs (fst item) (sha256_hex (snd item))) l acc
  = (acc ++ map digest_item l)%list.
Proof.
  induction l as [|[k data] l IH]; intros acc Hnd.
  - cbn. rewrite app_nil_r. reflexivity.
  - cbn [fold_left fst snd]. cbn [keys map fst] in Hnd.
    rewrite dict_set_fresh.
    + rewrite IH.
      * rewrite <- app_assoc. reflexivity.
      * unfold keys in *. rewrite map_app. cbn [map fst]. rewrite <- app_assoc. exact Hnd.
    + apply NoDup_remove_2 in Hnd. intros H. apply Hnd. apply in_or_app. left. exact H.
Qed.

Lemma sorted_items_id {V} (l : list (string * V)) :
  StronglySorted path_le (keys l) -> sorted_items l = l.
Proof.
  induction l as [|kv l IH]; intros Hs; [reflexivity|].
  cbn [keys map] in Hs. apply StronglySorted_inv in Hs as [Hs Hkv].
  change (sorted_items (kv :: l)) with (insert_item kv (sorted_items l)).
  rewrite IH by exact Hs. destruct l as [|kv' l]; [reflexivity|].
  cbn [insert_item]. apply Forall_cons_iff in Hkv as [Hle _].
  unfold path_le in Hle. rewrite Hle. reflexivity.
Qed.

Lemma keys_digest_items l : keys (map digest_item l) = keys l.
Proof. unfold keys. rewrite map_map. reflexivity. Qed.

(** The checksum lines: one per item of [all_files], in the order of the
    paths. *)
Lemma checksum_lines_spec (d : dict (list byte)) :
  NoDup (keys d) ->
  sorted_items
    (fold_left (fun cs item => dict_set cs (fst item) (compute_sha256 sha256_hex (snd item)))
               (sorted_items d) [])
  = map digest_item (sorted_items d).
Proof.
  intros Hnd. unfold compute_sha256.
  rewrite checksums_fold.
  - cbn [app]. apply sorted_items_id. rewrite keys_digest_items, keys_sorted_items.
    apply sorted_sorted.
  - cbn [keys map app]. fold (keys (sorted_items d)). rewrite keys_sorted_items.
    apply sorted_NoDup, Hnd.
Qed.

Lemma merged_NoDup manifest file_map : NoDup (keys (merged manifest file_map)).
Proof.
  apply NoDup_keys_update. cbn. repeat constructor. intros [].
Qed.

Lemma merged_keys manifest file_map k :
  In k (keys (merged manifest file_map))
  <-> k = "manifest.json"%string \/ In k (keys file_map).
Proof.
  unfold merged. rewrite In_keys_update. cbn [keys map fst In]. intuition congruence.
Qed.

Lemma merged_get manifest file_map k :
  NoDup (keys file_map) ->
  dict_get k (merged manifest file_map)
  = match dict_get k file_map with
    | Some v => Some v
    | None => if String.eqb k "manifest.json"
              then Some (manifest_bytes_of manifest) else None
    end.
Proof.
  intros Hnd. unfold merged. rewrite dict_get_update by exact Hnd. reflexivity.
Qed.

Lemma build_all_files_spec manifest file_map include_checksums :
  NoDup (keys file_map) ->
  build_all_files manifest file_map include_checksums
  = if include_checksums
    then dict_set (merged manifest file_map) "checksums.sha256"
                  (encode (checksum_text (merged manifest file_map)))
    else merged manifest file_map.
Proof.
  intros Hnd. unfold build_all_files. fold (merged manifest file_map).
  destruct include_checksums; [|reflexivity].
  rewrite checksum_lines_spec by apply merged_NoDup. reflexivity.
Qed.

Lemma build_all_files_NoDup manifest file_map include_checksums :
  NoDup (keys file_map) ->
  NoDup (keys (build_all_files manifest file_map include_checksums)).
Proof.
  intros Hnd. rewrite build_all_files_spec by exact Hnd.
  destruct include_checksums; [apply NoDup_keys_dict_set|]; apply merged_NoDup.
Qed.

Lemma build_all_files_keys manifest file_map include_checksums k :
  NoDup (keys file_map) ->
  In k (keys (build_all_files manifest file_map include_checksums))
  <-> k = "manifest.json"%string \/ In k (keys file_map)
      \/ (include_checksums = true /\ k = "checksums.sha256"%string).
Proof.
  intros Hnd. rewrite build_all_files_spec by exact Hnd.
  destruct include_checksums.
  - rewrite In_keys_dict_set, merged_keys. intuition congruence.
  - rewrite merged_keys. intuition congruence.
Qed.

Lemma build_all_files_equiv manifest file_map file_map' include_checksums :
  NoDup (keys file_map) -> Permutation file_map file_map' ->
  dict_equiv (build_all_files manifest file_map include_checksums)
             (build_all_files manifest file_map' include_checksums).
Proof.
  intros Hnd Hp.
  assert (Hnd' : NoDup (keys file_map'))
    by (eapply Permutation_NoDup; [apply Permutation_map, Hp | exact Hnd]).
  assert (Hm : dict_equiv (merged manifest file_map) (merged manifest file_map')).
  { apply dict_equiv_update; try assumption. cbn. repeat constructor. intros []. }
  rewrite !build_all_files_spec by assumption.
  destruct include_checksums; [|exact Hm].
  unfold checksum_text. rewrite (dict_equiv_sorted_items _ _ Hm).
  apply dict_equiv_set, Hm.
Qed.

Lemma order_paths_keys manifest file_map include_checksums p :
  NoDup (keys file_map) ->
  In p (order_paths (build_all_files manifest file_map include_checksums)) ->
  In p (keys (build_all_files manifest file_map include_checksums)).
Proof.
  intros Hnd Hp.
  rewrite order_paths_spec in Hp.
  - destruct Hp as [<-|Hp].
    + apply build_all_files_keys; [exact Hnd | left; reflexivity].
    + apply in_app_or in Hp as [Hp|Hp].
      * apply (proj1 (sorted_In _ _)) in Hp. apply filter_In in Hp as [Hp _]. exact Hp.
      * destruct (list_mem "checksums.sha256" _) eqn:E; [|destruct Hp].
        destruct Hp as [<-|[]]. apply list_mem_In, E.
  - apply build_all_files_NoDup, Hnd.
  - apply build_all_files_keys; [exact Hnd | left; reflexivity].
Qed.

Lemma order_paths_nul_free manifest file_map include_checksums p :
  NoDup (keys file_map) ->
  forallb nul_free (keys file_map) = true ->
  In p (order_paths (build_all_files manifest file_map include_checksums)) ->
  nul_free p = true.
Proof.
  intros Hnd Hnul Hp. apply order_paths_keys in Hp; [|exact Hnd].
  apply build_all_files_keys in Hp; [|exact Hnd].
  destruct Hp as [->|[Hp|[_ ->]]]; [reflexivity | | reflexivity].
  rewrite forallb_forall in Hnul. apply Hnul, Hp.
Qed.

(** What a pack that returns leaves at [output_path], when no key has a
    NUL character: [fs1] is the file system as the open left it. *)
Lemma pack_stella_ok fs output_path manifest file_map include_checksums q :
  NoDup (keys file_map) ->
  forallb nul_free (keys file_map) = true ->
  snd (pack_stella fs output_path manifest file_map include_checksums) = Ok q ->
  let all_files := build_all_files manifest file_map include_checksums in
  exists fs1,
    pack_stella fs output_path manifest file_map include_checksums
    = (fs_write fs1 output_path
                (Zip (entries_of all_files (order_paths all_files))),
       Ok output_path)
    /\ zip_create (fst (mkdir fs (parent output_path))) output_path = Ok fs1.
Proof.
  intros Hnd Hnul Hret all_files. unfold pack_stella in *. fold all_files in Hret |- *.
  destruct (mkdir fs (parent output_path)) as [fs0 [[]|e]]; [|discriminate Hret].
  cbn [fst].
  destruct (zip_create fs0 output_path) as [fs1|e]; [|discriminate Hret].
  destruct (write_entries all_files (order_paths all_files) []) as [zf [[]|e]] eqn:Ew;
    [|discriminate Hret].
  apply write_entries_ok in Ew.
  - cbn [app] in Ew. subst zf. exists fs1. split; reflexivity.
  - intros p Hp. eapply order_paths_nul_free; eassumption.
Qed.

(** The archive a pack that returns leaves can be opened. *)
Lemma pack_stella_open fs output_path manifest file_map include_checksums q :
  NoDup (keys file_map) ->
  forallb nul_free (keys file_map) = true ->
  snd (pack_stella fs output_path manifest file_map include_checksums) = Ok q ->
  let all_files := build_all_files manifest file_map include_checksums in
  let fs' := fst (pack_stella fs output_path manifest file_map include_checksums) in
  fs' output_path = Some (Zip (entries_of all_files (order_paths all_files)))
  /\ zip_open fs' output_path = Ok (entries_of all_files (order_paths all_files))
  /\ path_exists fs' output_path = true
  /\ q = output_path.
Proof.
  intros Hnd Hnul Hret all_files fs'.
  destruct (pack_stella_ok fs output_path manifest file_map include_checksums q
              Hnd Hnul Hret) as (fs1 & Hpack & Hc).
  fold all_files in Hpack. subst fs'. rewrite Hpack in Hret |- *. cbn [fst snd] in *.
  split; [apply fs_write_same|].
  destruct (zip_create_open _ _ _ (entries_of all_files (order_paths all_files)) Hc)
    as (Ho & He & _).
  split; [exact Ho|]. split; [exact He|]. congruence.
Qed.

Lemma ordinary_manifest : ordinary "manifest.json" = false.
Proof. reflexivity. Qed.

Lemma ordinary_checksums : ordinary "checksums.sha256" = false.
Proof. reflexivity. Qed.

(** The names of the archive, in order. *)
Lemma packed_names manifest file_map include_checksums :
  NoDup (keys file_map) ->
  order_paths (build_all_files manifest file_map include_checksums)
  = ("manifest.json"%string :: sorted (filter ordinary (keys file_map))
     ++ (if include_checksums || list_mem "checksums.sha256" (keys file_map)
         then ["checksums.sha256"%string] else []))%list.
Proof.
  intros Hnd.
  pose proof (build_all_files_NoDup manifest file_map include_checksums Hnd) as Hnd'.
  rewrite order_paths_spec;
    [|exact Hnd' | apply build_all_files_keys; [exact Hnd | left; reflexivity]].
  f_equal. f_equal.
  - apply sorted_of_perm. apply NoDup_Permutation; try (apply NoDup_filter; assumption).
    intros x. rewrite !filter_In, build_all_files_keys by exact Hnd.
    split; [|intuition].
    intros [[->|[Hx|[_ ->]]] Ho]; [discriminate | auto | discriminate].
  - assert (E : list_mem "checksums.sha256"
                  (keys (build_all_files manifest file_map include_checksums))
                = include_checksums || list_mem "checksums.sha256" (keys file_map)).
    { destruct (include_checksums || list_mem "checksums.sha256" (keys file_map)) eqn:E.
      - apply list_mem_In, build_all_files_keys; [exact Hnd|].
        apply orb_true_iff in E as [E|E]; [right; right; auto|].
        right; left. apply list_mem_In, E.
      - apply orb_false_iff in E as [E1 E2]. apply list_mem_false.
        apply list_mem_false in E2.
        rewrite build_all_files_keys by exact Hnd.
        intros [Hx|[Hx|[Hx _]]]; [discriminate | contradiction | congruence]. }
    rewrite E. reflexivity.
Qed.

Lemma packed_names_NoDup manifest file_map include_checksums :
  NoDup (keys file_map) ->
  NoDup (order_paths (build_all_files manifest file_map include_checksums)).
Proof.
  intros Hnd. rewrite packed_names by exact Hnd.
  assert (Hmid : NoDup (sorted (filter ordinary (keys file_map))))
    by apply sorted_NoDup, NoDup_filter, Hnd.
  assert (Hord : forall x, In x (sorted (filter ordinary (keys file_map))) ->
                           ordinary x = true).
  { intros x Hx. apply (proj1 (sorted_In _ _)) in Hx. apply filter_In in Hx. apply Hx. }
  constructor.
  - intros Hin. apply in_app_or in Hin as [Hin|Hin].
    + apply Hord in Hin. discriminate.
    + destruct (_ || _); [destruct Hin as [Hin|[]]; discriminate | destruct Hin].
  - apply NoDup_app; [exact Hmid| |].
    + destruct (_ || _); repeat constructor. intros [].
    + intros x Hx Hc. destruct (_ || _); [|destruct Hc].
      destruct Hc as [<-|[]]. apply Hord in Hx. discriminate.
Qed.

Lemma zip_read_Ok_In n zf : forall d, zip_read n zf = Ok d -> In (n, d) zf.
Proof.
  induction zf as [|[n0 d0] zf IH]; intros d H; [discriminate|].
  cbn [zip_read] in H. destruct (zip_read n zf) as [d1|e].
  - injection H as <-. right. apply IH. reflexivity.
  - destruct (String.eqb_spec n0 n) as [->|]; [|discriminate].
    injection H as <-. left. reflexivity.
Qed.

Lemma zip_read_Err n zf : forall e, zip_read n zf = Err e -> ~ In n (namelist zf).
Proof.
  induction zf as [|[n0 d0] zf IH]; intros e H; [intros []|].
  cbn [zip_read] in H. destruct (zip_read n zf) as [d1|e1]; [discriminate|].
  destruct (String.eqb_spec n0 n) as [->|Hne]; [discriminate|].
  cbn [namelist map fst]. intros [Hc|Hc]; [contradiction|]. revert Hc.
  apply (IH e1). reflexivity.
Qed.

(** Reading a name all of whose entries hold the same bytes. *)
Lemma zip_read_same n data zf :
  In (n, data) zf -> (forall d, In (n, d) zf -> d = data) -> zip_read n zf = Ok data.
Proof.
  intros Hin Hsame. destruct (zip_read n zf) as [d|e] eqn:E.
  - apply zip_read_Ok_In in E. rewrite (Hsame d E). reflexivity.
  - apply zip_read_Err in E. exfalso. apply E. unfold namelist.
    apply in_map_iff. exists (n, data). auto.
Qed.




End Packing.

(** ** Text *)

Section Text.
Import PyStr.
Local Open Scope string_scope.

Lemma all_chars_app p s1 s2 :
  all_chars p (s1 ++ s2) = all_chars p s1 && all_chars p s2.
Proof.
  induction s1 as [|a s1 IH]; [reflexivity|].
  cbn [append all_chars]. rewrite IH, andb_assoc. reflexivity.
Qed.

Lemma all_chars_impl (p q : ascii -> bool) s :
  (forall a, p a = true -> q a = true) ->
  all_chars p s = true -> all_chars q s = true.
Proof.
  intros Hpq. induction s as [|a s IH]; [reflexivity|].
  cbn [all_chars]. rewrite !andb_true_iff. intros [Ha Hs]. auto.
Qed.

Lemma hex_digit_plain a : is_hex_digit a = true -> is_plain a = true.
Proof.
  unfold is_hex_digit, is_plain. cbv zeta.
  rewrite orb_true_iff, !andb_true_iff, !Nat.leb_le. lia.
Qed.

Lemma append_assoc (a b c : string) : (a ++ b) ++ c = a ++ (b ++ c).
Proof.
  induction a as [|x a IH]; [reflexivity|]. cbn [append]. rewrite IH. reflexivity.
Qed.

Lemma append_nil_r (a : string) : a ++ "" = a.
Proof.
  induction a as [|x a IH]; [reflexivity|]. cbn [append]. rewrite IH. reflexivity.
Qed.

(** *** [split] *)

Lemma split_once_plain sep_tail digest rest :
  all_chars is_plain digest = true ->
  split_once (String " " sep_tail) (digest ++ String " " sep_tail ++ rest)
  = Some (digest, rest).
Proof.
  set (sep := String " " sep_tail).
  induction digest as [|a digest IH]; intros Hd.
  - cbn [append]. unfold split_once.
    assert (Hp : prefix sep (sep ++ rest) = true).
    { clear. induction sep as [|c sep IH]; [destruct rest; reflexivity|].
      cbn [append prefix]. destruct (ascii_dec c c); [exact IH | congruence]. }
    destruct (sep ++ rest) eqn:E; fold split_once; rewrite Hp.
    + discriminate.
    + f_equal. f_equal. rewrite <- E. clear.
      induction sep as [|c sep IH]; [reflexivity|]. cbn. exact IH.
  - cbn [all_chars] in Hd. apply andb_true_iff in Hd as [Ha Hd].
    cbn [append split_once]. fold split_once.
    assert (Hnp : prefix sep (String a (digest ++ sep ++ rest)) = false).
    { subst sep. cbn [prefix]. destruct (ascii_dec " " a) as [<-|]; [discriminate|].
      reflexivity. }
    rewrite Hnp, IH by exact Hd. reflexivity.
Qed.

Lemma split_char_no_sep c s :
  all_chars (fun a => negb (Ascii.eqb a c)) s = true -> split_char c s = [s].
Proof.
  induction s as [|a s IH]; [reflexivity|].
  cbn [all_chars split_char]. intros H. apply andb_true_iff in H as [Ha Hs].
  apply negb_true_iff in Ha. rewrite Ha, IH by exact Hs. reflexivity.
Qed.

Lemma split_char_app c s rest :
  all_chars (fun a => negb (Ascii.eqb a c)) s = true ->
  split_char c (s ++ String c rest) = s :: split_char c rest.
Proof.
  induction s as [|a s IH]; intros H.
  - cbn [append split_char]. rewrite Ascii.eqb_refl. reflexivity.
  - cbn [all_chars] in H. apply andb_true_iff in H as [Ha Hs].
    apply negb_true_iff in Ha. cbn [append split_char]. rewrite Ha, IH by exact Hs.
    reflexivity.
Qed.

(** *** [strip] *)

Lemma strip_one_plain chars a s :
  forallb (fun w => match w with
                    | EmptyString => false
                    | String c _ => negb (Ascii.eqb c a)
                    end) chars = true ->
  strip_one chars (String a s) = None.
Proof.
  induction chars as [|w chars IH]; [reflexivity|].
  cbn [forallb strip_one]. intros H. apply andb_true_iff in H as [Hw Hc].
  destruct w as [|c w]; [discriminate|]. apply negb_true_iff in Hw.
  cbn [prefix]. destruct (ascii_dec c a) as [->|]; [rewrite Ascii.eqb_refl in Hw; discriminate|].
  apply IH, Hc.
Qed.

Lemma plain_not_whitespace_start a :
  is_plain a = true ->
  forallb (fun w => match w with
                    | EmptyString => false
                    | String c _ => negb (Ascii.eqb c a)
                    end) whitespace = true.
Proof.
  destruct a as [[] [] [] [] [] [] [] []]; intros H; try discriminate H;
    vm_compute; reflexivity.
Qed.

Lemma plain_not_whitespace_end a :
  is_plain a = true ->
  forallb (fun w => match w with
                    | EmptyString => false
                    | String c _ => negb (Ascii.eqb c a)
                    end) (map string_rev whitespace) = true.
Proof.
  destruct a as [[] [] [] [] [] [] [] []]; intros H; try discriminate H;
    vm_compute; reflexivity.
Qed.

Lemma strip_leading_plain chars fuel a s :
  forallb (fun w => match w with
                    | EmptyString => false
                    | String c _ => negb (Ascii.eqb c a)
                    end) chars = true ->
  strip_leading chars fuel (String a s) = String a s.
Proof.
  intros H. destruct fuel; [reflexivity|]. cbn [strip_leading].
  rewrite strip_one_plain by exact H. reflexivity.
Qed.

Lemma list_ascii_of_string_app s1 s2 :
  list_ascii_of_string (s1 ++ s2)
  = (list_ascii_of_string s1 ++ list_ascii_of_string s2)%list.
Proof.
  induction s1 as [|a s1 IH]; [reflexivity|]. cbn. rewrite IH. reflexivity.
Qed.

Lemma string_rev_snoc s a : string_rev (s ++ String a "") = String a (string_rev s).
Proof.
  unfold string_rev. rewrite list_ascii_of_string_app. cbn [list_ascii_of_string].
  rewrite rev_app_distr. reflexivity.
Qed.

Lemma string_rev_involutive s : string_rev (string_rev s) = s.
Proof.
  unfold string_rev. rewrite list_ascii_of_string_of_list_ascii, rev_involutive.
  apply string_of_list_ascii_of_string.
Qed.

(** Text that starts and ends on a printable character other than the
    space is left alone by [strip]. *)
Lemma strip_plain a s z :
  is_plain a = true -> is_plain z = true ->
  strip (String a (s ++ String z "")) = String a (s ++ String z "").
Proof.
  intros Ha Hz. unfold strip, lstrip.
  rewrite strip_leading_plain by apply plain_not_whitespace_start, Ha.
  unfold rstrip. change (String a (s ++ String z "")) with ((String a s) ++ String z "").
  rewrite string_rev_snoc.
  rewrite strip_leading_plain by apply plain_not_whitespace_end, Hz.
  rewrite <- string_rev_snoc. apply string_rev_involutive.
Qed.

(** *** UTF-8 *)

Lemma in_range_ascii a :
  is_ascii7 a = true -> in_range 0 127 (byte_of_ascii a) = true.
Proof.
  destruct a as [[] [] [] [] [] [] [] []]; intros H; try discriminate H;
    vm_compute; reflexivity.
Qed.

Lemma utf8_valid_ascii s :
  all_chars is_ascii7 s = true -> utf8_valid (encode s) = true.
Proof.
  unfold encode, list_byte_of_string.
  induction s as [|a s IH]; [reflexivity|].
  cbn [all_chars]. intros H. apply andb_true_iff in H as [Ha Hs].
  cbn [list_ascii_of_string map utf8_valid].
  rewrite in_range_ascii by exact Ha. apply IH, Hs.
Qed.

Lemma decode_encode s : utf8_valid (encode s) = true -> decode (encode s) = Ok s.
Proof.
  intros H. unfold decode. rewrite H. unfold encode.
  rewrite string_of_list_byte_of_string. reflexivity.
Qed.

Lemma plain_ascii7 a : is_plain a = true -> is_ascii7 a = true.
Proof.
  unfold is_plain, is_ascii7. cbv zeta. rewrite andb_true_iff, !Nat.leb_le. lia.
Qed.

End Text.

(** ** Verifying checksums *)

Section Verify.
Import PyStr ManifestPy PackagePy.
Local Open Scope string_scope.

Variable sha256_hex : list byte -> string.

Abbreviation check_line := (check_line sha256_hex).
Abbreviation verify_archive := (verify_archive sha256_hex).

Lemma zip_read_present p zf :
  In p (namelist zf) -> exists data, zip_read p zf = Ok data.
Proof.
  induction zf as [|[n d] zf IH]; intros Hp; [destruct Hp|].
  cbn [zip_read]. destruct (zip_read p zf) as [d'|e] eqn:E; [eauto|].
  destruct Hp as [Hp|Hp].
  - cbn [fst] in Hp. subst n. rewrite String.eqb_refl. eauto.
  - destruct (IH Hp) as [d' Hd']. discriminate.
Qed.

(** A turn of the loop over the lines never raises. *)
Lemma check_line_total zf line : exists errors, check_line zf line = Ok errors.
Proof.
  unfold PackagePy.check_line. destruct (String.eqb line ""); [eauto|].
  destruct (split_once "  " line) as [[expected_hash path]|]; [|eauto].
  destruct (String.eqb path "checksums.sha256"); [eauto|].
  destruct (list_mem path (namelist zf)) eqn:E; cbn [negb]; [|eauto].
  apply list_mem_In, zip_read_present in E as [data ->]. cbn [bind].
  destruct (negb _); eauto.
Qed.

Lemma lines_loop zf : forall lines acc,
  exists per_line,
    Forall2 (fun line errors => check_line zf line = Ok errors) lines per_line /\
    for_each (fun line errors => e <- check_line zf line ;; Ok (errors ++ e)%list)
             lines acc
    = Ok (acc ++ List.concat per_line)%list.
Proof.
  induction lines as [|line lines IH]; intros acc.
  - exists []. split; [constructor|]. cbn. rewrite app_nil_r. reflexivity.
  - destruct (check_line_total zf line) as [e He].
    destruct (IH (acc ++ e)%list) as (per_line & Hall & Hloop).
    exists (e :: per_line). split; [constructor; assumption|].
    cbn [for_each]. rewrite He. cbn [bind List.concat]. rewrite Hloop, <- app_assoc.
    reflexivity.
Qed.

(** A line [<digest><two spaces><path>] whose digest has no blank. *)
Lemma check_line_entry zf digest path :
  all_chars is_plain digest = true ->
  check_line zf (digest ++ "  " ++ path)
  = if String.eqb path "checksums.sha256" then Ok []
    else if negb (list_mem path (namelist zf))
    then Ok ["Missing file: " ++ path]
    else data <- zip_read path zf ;;
         if negb (String.eqb (sha256_hex data) digest)
         then Ok ["Checksum mismatch for " ++ path]
         else Ok [].
Proof.
  intros Hd. unfold PackagePy.check_line.
  assert (Hne : String.eqb (digest ++ "  " ++ path) "" = false).
  { destruct digest; reflexivity. }
  rewrite Hne.
  rewrite (split_once_plain " " digest path Hd). reflexivity.
Qed.

(** C6 (checksum verification).  Without a [checksums.sha256] entry the
    result is [ok] with one informational note.  With one, its text is
    cut into lines and the errors are those of the lines, in order, with
    [ok] exactly when there is none; a line made of a digest, two spaces
    and a path gives no error for [checksums.sha256] itself, ["Missing
    file: <path>"] for a path the archive does not have, ["Checksum
    mismatch for <path>"] when the digest of the entry's bytes differs,
    and no error when it agrees. *)
Theorem verify_checksums_semantics (zf : archive) :
  (~ In "checksums.sha256" (namelist zf) ->
     verify_archive zf
     = Ok (true, ["No checksums.sha256 file found (not an error)"])) /\
  (In "checksums.sha256" (namelist zf) ->
     exists data,
       zip_read "checksums.sha256" zf = Ok data /\
       forall text, decode data = Ok text ->
         exists per_line,
           Forall2 (fun line errors => check_line zf line = Ok errors)
                   (split_char "010"%char (strip text)) per_line /\
           verify_archive zf
           = Ok (is_empty (List.concat per_line), List.concat per_line)) /\
  (forall ok errors,
     In "checksums.sha256" (namelist zf) ->
     verify_archive zf = Ok (ok, errors) -> (ok = true <-> errors = [])) /\
  (forall digest path,
     all_chars is_plain digest = true ->
     let line := digest ++ "  " ++ path in
     (path = "checksums.sha256" -> check_line zf line = Ok []) /\
     (path <> "checksums.sha256" -> ~ In path (namelist zf) ->
        check_line zf line = Ok ["Missing file: " ++ path]) /\
     (path <> "checksums.sha256" -> In path (namelist zf) ->
        exists data,
          zip_read path zf = Ok data /\
          (sha256_hex data <> digest ->
             check_line zf line = Ok ["Checksum mismatch for " ++ path]) /\
          (sha256_hex data = digest -> check_line zf line = Ok []))).
Proof.
  split; [|split; [|split]].
  - intros Hno. unfold PackagePy.verify_archive.
    apply list_mem_false in Hno. rewrite Hno. reflexivity.
  - intros Hin. destruct (zip_read_present _ _ Hin) as [data Hdata].
    exists data. split; [exact Hdata|]. intros text Htext.
    destruct (lines_loop zf (split_char "010"%char (strip text)) [])
      as (per_line & Hall & Hloop).
    exists per_line. split; [exact Hall|].
    unfold PackagePy.verify_archive.
    apply list_mem_In in Hin. rewrite Hin. cbn [negb].
    rewrite Hdata. cbn [bind]. rewrite Htext. cbn [bind].
    fold check_line. rewrite Hloop. reflexivity.
  - intros ok errors Hin Hv. unfold PackagePy.verify_archive in Hv.
    apply list_mem_In in Hin. rewrite Hin in Hv. cbn [negb] in Hv.
    destruct (zip_read "checksums.sha256" zf) as [data|]; [|discriminate].
    cbn [bind] in Hv. destruct (decode data) as [text|]; [|discriminate].
    cbn [bind] in Hv.
    destruct (for_each _ _ _) as [errs|]; [|discriminate].
    cbn [bind] in Hv. injection Hv as <- <-.
    destruct errs; cbn; split; congruence.
  - intros digest path Hd line. subst line.
    rewrite (check_line_entry zf digest path Hd). split; [|split].
    + intros ->. reflexivity.
    + intros Hne Hnin. apply String.eqb_neq in Hne. rewrite Hne.
      apply list_mem_false in Hnin. rewrite Hnin. reflexivity.
    + intros Hne Hin. destruct (zip_read_present _ _ Hin) as [data Hdata].
      exists data. split; [exact Hdata|].
      apply String.eqb_neq in Hne. rewrite Hne.
      apply list_mem_In in Hin. rewrite Hin. cbn [negb]. rewrite Hdata. cbn [bind].
      split.
      * intros Hdiff. apply String.eqb_neq in Hdiff. rewrite Hdiff. reflexivity.
      * intros ->. rewrite String.eqb_refl. reflexivity.
Qed.

End Verify.

(** ** Parsing a manifest *)

Section ManifestParsing.
Import ManifestPy.
Local Open Scope string_scope.

Lemma kwargs_error fields required v e :
  kwargs fields required v = Err e -> e = TypeError.
Proof.
  unfold kwargs. destruct v; try congruence. destruct (_ && _); congruence.
Qed.

Lemma kwargs_known fields required kw kw' :
  kwargs fields required (JDict kw) = Ok kw' ->
  forall k, In k (keys kw) -> In k fields.
Proof.
  unfold kwargs.
  destruct (forallb (fun k => list_mem k fields) (keys kw)) eqn:E;
    [|discriminate].
  intros _ k Hk. rewrite forallb_forall in E. apply list_mem_In, E, Hk.
Qed.

Lemma map_result_error {A B} (f : A -> result B) l e :
  map_result f l = Err e -> exists x, In x l /\ f x = Err e.
Proof.
  induction l as [|x l IH]; [discriminate|]. cbn [map_result].
  destruct (f x) as [y|e'] eqn:E; cbn [bind].
  - destruct (map_result f l) as [ys|e'']; cbn [bind]; [discriminate|].
    intros [= ->]. destruct (IH eq_refl) as (x' & Hx' & Hf).
    exists x'. split; [right; exact Hx' | exact Hf].
  - intros [= ->]. exists x. split; [left; reflexivity | exact E].
Qed.

Lemma map_result_ok {A B} (f : A -> result B) l ys :
  map_result f l = Ok ys -> forall x, In x l -> exists y, f x = Ok y.
Proof.
  revert ys. induction l as [|x l IH]; intros ys H x' Hx'; [destruct Hx'|].
  cbn [map_result] in H. destruct (f x) as [y|] eqn:E; [|discriminate].
  cbn [bind] in H. destruct (map_result f l) as [ys'|] eqn:E'; [|discriminate].
  destruct Hx' as [<-|Hx']; [eauto | eapply IH; eauto].
Qed.

(** The dataclass constructors raise nothing but [TypeError]. *)
Lemma Axis_of_error v e : Axis_of v = Err e -> e = TypeError.
Proof.
  unfold Axis_of. destruct (kwargs _ _ v) eqn:E; cbn [bind]; [discriminate|].
  intros [= <-]. eapply kwargs_error, E.
Qed.

Lemma Level_of_error v e : Level_of v = Err e -> e = TypeError.
Proof.
  unfold Level_of. destruct (kwargs _ _ v) eqn:E; cbn [bind]; [discriminate|].
  intros [= <-]. eapply kwargs_error, E.
Qed.

Lemma Generator_of_error v e : Generator_of v = Err e -> e = TypeError.
Proof.
  unfold Generator_of. destruct (kwargs _ _ v) eqn:E; cbn [bind]; [discriminate|].
  intros [= <-]. eapply kwargs_error, E.
Qed.

Lemma World_of_error v e : World_of v = Err e -> e = TypeError.
Proof.
  unfold World_of. destruct (kwargs _ _ v) eqn:E; cbn [bind]; [discriminate|].
  intros [= <-]. eapply kwargs_error, E.
Qed.

Lemma py_iter_error v e : py_iter v = Err e -> e = TypeError.
Proof. destruct v; cbn; congruence. Qed.

Lemma from_dict_unfold now d :
  from_dict now (JDict d)
  = let '(r_axis, r_levels, r_generator, r_world) := nested_parts d in
    axis <- r_axis ;;
    levels <- r_levels ;;
    generator <- r_generator ;;
    world <- r_world ;;
    Ok (mkManifest
          (match dict_get "format" d with Some v => v | None => JStr "stella.world" end)
          (match dict_get "version" d with Some v => v | None => JInt 1 end)
          (match dict_get "created_utc" d with Some v => v | None => JStr now end)
          (match dict_get "units" d with Some v => v | None => JStr "meters" end)
          axis levels generator world
          (match dict_get "assets" d with Some v => v | None => JDict [] end)).
Proof.
  unfold from_dict, nested_parts, py_get. cbn [bind].
  destruct (Axis_of _); cbn [bind]; [|reflexivity].
  destruct (py_iter _); cbn [bind]; [|reflexivity].
  destruct (map_result Level_of _); cbn [bind]; reflexivity.
Qed.

Lemma nested_parts_errors d :
  let '(r_axis, r_levels, r_generator, r_world) := nested_parts d in
  (forall e, r_axis = Err e -> e = TypeError) /\
  (forall e, r_levels = Err e -> e = TypeError) /\
  (forall e, r_generator = Err e -> e = TypeError) /\
  (forall e, r_world = Err e -> e = TypeError).
Proof.
  unfold nested_parts. repeat split; intros e H.
  - eapply Axis_of_error, H.
  - destruct (py_iter _) as [l|e'] eqn:E; cbn [bind] in H.
    + apply map_result_error in H as (x & _ & H). eapply Level_of_error, H.
    + injection H as <-. eapply py_iter_error, E.
  - destruct (dict_get "generator" d) as [v|]; [|discriminate].
    destruct (truthy v); [|discriminate].
    destruct (Generator_of v) eqn:E; cbn [bind] in H; [discriminate|].
    injection H as <-. eapply Generator_of_error, E.
  - destruct (dict_get "world" d) as [v|]; [|discriminate].
    destruct (truthy v); [|discriminate].
    destruct (World_of v) eqn:E; cbn [bind] in H; [discriminate|].
    injection H as <-. eapply World_of_error, E.
Qed.

(** Parsing a dict fails only with [TypeError], and fails as soon as one of
    the nested constructions does. *)
Lemma from_dict_fails now d :
  let '(r_axis, r_levels, r_generator, r_world) := nested_parts d in
  (exists e, r_axis = Err e) \/ (exists e, r_levels = Err e) \/
  (exists e, r_generator = Err e) \/ (exists e, r_world = Err e) ->
  from_dict now (JDict d) = Err TypeError.
Proof.
  rewrite from_dict_unfold. pose proof (nested_parts_errors d) as He.
  destruct (nested_parts d) as [[[r_axis r_levels] r_generator] r_world].
  destruct He as (Ha & Hl & Hg & Hw).
  intros H.
  destruct r_axis as [a|e]; cbn [bind]; [|rewrite (Ha e eq_refl); reflexivity].
  destruct r_levels as [l|e]; cbn [bind]; [|rewrite (Hl e eq_refl); reflexivity].
  destruct r_generator as [g|e]; cbn [bind]; [|rewrite (Hg e eq_refl); reflexivity].
  destruct r_world as [w|e]; cbn [bind]; [|rewrite (Hw e eq_refl); reflexivity].
  destruct H as [[e H]|[[e H]|[[e H]|[e H]]]]; discriminate.
Qed.

Lemma kwargs_unknown fields required kw k :
  In k (keys kw) -> ~ In k fields ->
  kwargs fields required (JDict kw) = Err TypeError.
Proof.
  intros Hk Hf. unfold kwargs.
  destruct (forallb (fun k => list_mem k fields) (keys kw)) eqn:E; [|reflexivity].
  rewrite forallb_forall in E. apply E, list_mem_In in Hk. contradiction.
Qed.

Lemma nonempty_dict_truthy kw k : In k (keys kw) -> truthy (JDict kw) = true.
Proof. destruct kw; [intros []|reflexivity]. Qed.

(** C4 (unknown fields), as the code has it.  Keys of the top-level object
    that [from_dict] does not know are ignored: the result depends only on
    the nine keys it looks up, so adding an unknown key changes nothing.
    Inside [axis], an entry of [levels], [generator] or [world] an unknown
    key is passed to the dataclass constructor as a keyword argument, and
    parsing raises [TypeError]. *)
Theorem manifest_unknown_fields (now : string) (d : dict json) :
  (forall d', (forall k, In k manifest_fields -> dict_get k d = dict_get k d') ->
              from_dict now (JDict d) = from_dict now (JDict d')) /\
  (forall k v, ~ In k manifest_fields ->
               from_dict now (JDict (dict_set d k v)) = from_dict now (JDict d)) /\
  (forall kw k,
     In k (keys kw) ->
     (dict_get "axis" d = Some (JDict kw) /\ ~ In k ["up"; "forward"; "handedness"])
     \/ (exists l, dict_get "levels" d = Some (JList l) /\ In (JDict kw) l
                   /\ ~ In k ["id"; "path"; "name"])
     \/ (dict_get "generator" d = Some (JDict kw)
         /\ ~ In k ["name"; "version"; "git_commit"])
     \/ (dict_get "world" d = Some (JDict kw) /\ ~ In k ["title"; "tags"; "privacy"]) ->
     from_dict now (JDict d) = Err TypeError).
Proof.
  assert (Hagree : forall d', (forall k, In k manifest_fields ->
                                         dict_get k d = dict_get k d') ->
                              from_dict now (JDict d) = from_dict now (JDict d')).
  { intros d' H. rewrite !from_dict_unfold. unfold nested_parts.
    rewrite <- !H by (unfold manifest_fields; cbn; tauto). reflexivity. }
  split; [exact Hagree|]. split.
  - intros k v Hk. symmetry. apply Hagree. intros k' Hk'.
    rewrite dict_get_set. destruct (String.eqb_spec k' k) as [->|]; [contradiction|].
    reflexivity.
  - intros kw k Hk H. apply from_dict_fails. unfold nested_parts.
    destruct H as [[E Hu]|[(l & E & Hl & Hu)|[[E Hu]|[E Hu]]]]; rewrite E.
    + left. unfold Axis_of. rewrite (kwargs_unknown _ _ kw k Hk Hu). cbn. eauto.
    + right; left. cbn [py_iter bind].
      destruct (map_result Level_of l) as [ys|e] eqn:Em; [|eauto].
      destruct (map_result_ok _ _ _ Em _ Hl) as [y Hy].
      unfold Level_of in Hy. rewrite (kwargs_unknown _ _ kw k Hk Hu) in Hy.
      discriminate.
    + right; right; left. rewrite (nonempty_dict_truthy kw k Hk).
      unfold Generator_of. rewrite (kwargs_unknown _ _ kw k Hk Hu). cbn. eauto.
    + right; right; right. rewrite (nonempty_dict_truthy kw k Hk).
      unfold World_of. rewrite (kwargs_unknown _ _ kw k Hk Hu). cbn. eauto.
Qed.

Lemma manifest_unknown_fields_witness :
  from_dict "2025-12-15T00:00:00Z"
            (JDict (dict_set [("units", JStr "feet")] "comment" (JStr "x")))
  = from_dict "2025-12-15T00:00:00Z" (JDict [("units", JStr "feet")])
  /\ from_dict "2025-12-15T00:00:00Z"
               (JDict [("world", JDict [("title", JStr "Home"); ("theme", JStr "dark")])])
     = Err TypeError.
Proof.
  split.
  - apply (proj1 (proj2 (manifest_unknown_fields "2025-12-15T00:00:00Z"
                           [("units", JStr "feet")]))).
    cbn. intuition discriminate.
  - apply (proj2 (proj2 (manifest_unknown_fields "2025-12-15T00:00:00Z"
             [("world", JDict [("title", JStr "Home"); ("theme", JStr "dark")])]))
             [("title", JStr "Home"); ("theme", JStr "dark")] "theme").
    + cbn. auto.
    + right; right; right. split; [reflexivity|]. cbn. intuition discriminate.
Defined.

(** C4 as stated fails: a well-formed manifest whose [axis] object carries
    one key the code does not know makes [from_dict] raise, while the
    same manifest without that key parses. *)
Lemma unknown_nested_field_raises :
  from_dict "2025-12-15T00:00:00Z"
            (JDict [("format", JStr "stella.world");
                    ("axis", JDict [("up", JStr "Y"); ("tilt", JInt 0)]);
                    ("levels", JList [JDict [("id", JStr "0");
                                             ("path", JStr "levels/0/level.json")]])])
  = Err TypeError
  /\ exists m,
       from_dict "2025-12-15T00:00:00Z"
                 (JDict [("format", JStr "stella.world");
                         ("axis", JDict [("up", JStr "Y")]);
                         ("levels", JList [JDict [("id", JStr "0");
                                                  ("path", JStr "levels/0/level.json")]])])
       = Ok m.
Proof.
  split; [reflexivity|]. eexists. reflexivity.
Qed.

End ManifestParsing.

(** ** Validating a packed archive *)

Section Validate.
Import PyStr ManifestPy PackagePy.
Local Open Scope string_scope.

Variable sha256_hex : list byte -> string.
Variable json_dumps : json -> string.
Variable json_loads : string -> string + json.
Variable py_str : json -> string.

Abbreviation pack_stella := (pack_stella sha256_hex json_dumps).
Abbreviation validate_stella := (validate_stella sha256_hex json_loads py_str).
Abbreviation verify_archive := (verify_archive sha256_hex).
Abbreviation descriptor_only := (descriptor_only sha256_hex).

Lemma pack_descriptor_only fs output_path manifest level_bytes include_checksums :
  snd (pack_stella fs output_path manifest
                   [("levels/0/level.json", level_bytes)] include_checksums)
  = Ok output_path ->
  let fs' := fst (pack_stella fs output_path manifest
                    [("levels/0/level.json", level_bytes)] include_checksums) in
  let zf := descriptor_only (manifest_bytes_of json_dumps manifest)
                            level_bytes include_checksums in
  fs' output_path = Some (Zip zf)
  /\ zip_open fs' output_path = Ok zf
  /\ path_exists fs' output_path = true.
Proof.
  intros Hret fs' zf.
  assert (Hnd : NoDup (keys [("levels/0/level.json", level_bytes)]))
    by (repeat constructor; intros []).
  destruct (pack_stella_open sha256_hex json_dumps fs output_path manifest
              [("levels/0/level.json", level_bytes)] include_checksums _
              Hnd eq_refl Hret) as (Hfs & Hopen & Hex & _).
  assert (Hw : entries_of
                 (build_all_files sha256_hex json_dumps manifest
                    [("levels/0/level.json", level_bytes)] include_checksums)
                 (order_paths
                    (build_all_files sha256_hex json_dumps manifest
                       [("levels/0/level.json", level_bytes)] include_checksums))
               = zf)
    by (subst zf; destruct include_checksums; reflexivity).
  rewrite Hw in Hfs, Hopen. auto.
Qed.

Lemma hex_digest_shape d :
  hex_digest d ->
  exists a d', d = String a d' /\ is_plain a = true /\ all_chars is_plain d' = true.
Proof.
  intros [Hlen Hhex]. destruct d as [|a d']; [discriminate|].
  exists a, d'. split; [reflexivity|].
  apply (all_chars_impl _ is_plain) in Hhex; [|apply hex_digit_plain].
  cbn [all_chars] in Hhex. apply andb_true_iff in Hhex. exact Hhex.
Qed.

Lemma plain_not_newline a : is_plain a = true -> negb (Ascii.eqb a "010") = true.
Proof.
  intros H. destruct (Ascii.eqb_spec a "010") as [->|]; [discriminate H | reflexivity].
Qed.

(** A freshly packed archive of that shape passes its own checksums. *)
Lemma verify_descriptor_only mb level_bytes :
  hex_digest (sha256_hex level_bytes) -> hex_digest (sha256_hex mb) ->
  verify_archive (descriptor_only mb level_bytes true) = Ok (true, []).
Proof.
  intros H1 H2.
  pose proof (hex_digest_shape _ H1) as (a1 & t1 & E1 & Ha1 & Ht1).
  pose proof (hex_digest_shape _ H2) as (a2 & t2 & E2 & Ha2 & Ht2).
  assert (Hp1 : all_chars is_plain (sha256_hex level_bytes) = true)
    by (rewrite E1; cbn [all_chars]; rewrite Ha1, Ht1; reflexivity).
  assert (Hp2 : all_chars is_plain (sha256_hex mb) = true)
    by (rewrite E2; cbn [all_chars]; rewrite Ha2, Ht2; reflexivity).
  set (d1 := sha256_hex level_bytes) in *. set (d2 := sha256_hex mb) in *.
  set (l1 := d1 ++ "  levels/0/level.json").
  set (l2 := d2 ++ "  manifest.json").
  set (text := l1 ++ String "010" l2).
  set (zf := descriptor_only mb level_bytes true).
  assert (Hzf : zf = [("manifest.json", mb); ("levels/0/level.json", level_bytes);
                      ("checksums.sha256", encode text)]) by reflexivity.
  assert (Hascii : all_chars is_ascii7 text = true).
  { subst text l1 l2. change (String "010" (d2 ++ "  manifest.json"))
      with (String "010" "" ++ (d2 ++ "  manifest.json")).
    rewrite !all_chars_app.
    rewrite (all_chars_impl _ _ d1 plain_ascii7 Hp1).
    rewrite (all_chars_impl _ _ d2 plain_ascii7 Hp2). reflexivity. }
  assert (Hstrip : strip text = text).
  { assert (Hshape : text = String a1 ((t1 ++ "  levels/0/level.json"
                                         ++ String "010" (d2 ++ "  manifest.jso"))
                                        ++ String "n" "")).
    { subst text l1 l2. rewrite E1. cbn [append]. f_equal.
      rewrite !append_assoc. cbn [append]. rewrite !append_assoc. reflexivity. }
    rewrite Hshape. apply strip_plain; [exact Ha1 | reflexivity]. }
  assert (Hl1 : all_chars (fun a => negb (Ascii.eqb a "010")) l1 = true).
  { subst l1. rewrite all_chars_app.
    rewrite (all_chars_impl _ _ d1 plain_not_newline Hp1). reflexivity. }
  assert (Hl2 : all_chars (fun a => negb (Ascii.eqb a "010")) l2 = true).
  { subst l2. rewrite all_chars_app.
    rewrite (all_chars_impl _ _ d2 plain_not_newline Hp2). reflexivity. }
  assert (Hlines : split_char "010" text = [l1; l2]).
  { subst text. rewrite split_char_app by exact Hl1.
    rewrite split_char_no_sep by exact Hl2. reflexivity. }
  assert (Hc1 : check_line sha256_hex zf l1 = Ok []).
  { subst l1. change (d1 ++ "  levels/0/level.json")
      with (d1 ++ "  " ++ "levels/0/level.json").
    rewrite check_line_entry by exact Hp1. rewrite Hzf.
    change (String.eqb "levels/0/level.json" "checksums.sha256") with false.
    cbn iota.
    change (list_mem "levels/0/level.json" (namelist _)) with true.
    cbn [negb].
    change (zip_read "levels/0/level.json" _) with (@Ok (list byte) level_bytes).
    cbn [bind]. fold d1. rewrite String.eqb_refl. reflexivity. }
  assert (Hc2 : check_line sha256_hex zf l2 = Ok []).
  { subst l2. change (d2 ++ "  manifest.json") with (d2 ++ "  " ++ "manifest.json").
    rewrite check_line_entry by exact Hp2. rewrite Hzf.
    change (String.eqb "manifest.json" "checksums.sha256") with false.
    cbn iota.
    change (list_mem "manifest.json" (namelist _)) with true.
    cbn [negb].
    change (zip_read "manifest.json" _) with (@Ok (list byte) mb).
    cbn [bind]. fold d2. rewrite String.eqb_refl. reflexivity. }
  unfold PackagePy.verify_archive.
  change (list_mem "checksums.sha256" (namelist zf)) with true. cbn [negb].
  change (zip_read "checksums.sha256" zf) with (@Ok (list byte) (encode text)).
  cbn [bind]. rewrite decode_encode by apply utf8_valid_ascii, Hascii.
  cbn [bind]. rewrite Hstrip, Hlines. cbn [for_each].
  rewrite Hc1. cbn [bind app]. rewrite Hc2. reflexivity.
Qed.

(** The default manifest, as a dict, lists one level whose id is ["0"]. *)
Lemma default_manifest_levels now title tags thumbnail :
  exists d,
    to_dict (make_manifest now title None tags thumbnail) = JDict d /\
    dict_mem "levels" d = true /\
    dict_get "levels" d
    = Some (JList [JDict [("id", JStr "0"); ("path", JStr "levels/0/level.json");
                          ("name", JStr "Floor 0")]]).
Proof.
  unfold to_dict, make_manifest.
  cbn [generator world assets levels format version created_utc units axis].
  destruct thumbnail as [t|]; [destruct (String.eqb t "")|];
    cbn [negb truthy]; eexists; (split; [reflexivity|]); split; reflexivity.
Qed.

(** C7 (validation of a missing triad).  Pack the default single-level
    manifest with a payload map that holds only [levels/0/level.json]:
    validating the archive returns [ok = false] and exactly two errors,
    one for [levels/0/render.glb], one for [levels/0/collision.rlevox]. *)
Theorem validate_reports_missing_triad
    now title tags thumbnail level_bytes fs output_path include_checksums :
  let manifest := make_manifest now title None tags thumbnail in
  json_loads (json_dumps (to_dict manifest)) = inr (to_dict manifest) ->
  utf8_valid (encode (json_dumps (to_dict manifest))) = true ->
  (forall data, hex_digest (sha256_hex data)) ->
  snd (pack_stella fs output_path (inl manifest)
                   [("levels/0/level.json", level_bytes)] include_checksums)
  = Ok output_path ->
  validate_stella
    (fst (pack_stella fs output_path (inl manifest)
                      [("levels/0/level.json", level_bytes)]
                      include_checksums))
    output_path
  = Ok (false, ["Missing required file: levels/0/render.glb";
                "Missing required file: levels/0/collision.rlevox"]).
Proof.
  intros manifest Hjson Hutf8 Hhex Hret.
  destruct (pack_descriptor_only fs output_path (inl manifest) level_bytes
              include_checksums Hret) as (_ & Hpack & Hex).
  cbn [manifest_bytes_of] in Hpack. unfold to_json in Hpack.
  set (mb := encode (json_dumps (to_dict manifest))) in *.
  set (zf := descriptor_only mb level_bytes include_checksums) in *.
  destruct (default_manifest_levels now title tags thumbnail)
    as (d & Hd & Hmem & Hget).
  fold manifest in Hd.
  assert (Hnames : namelist zf
                   = (["manifest.json"; "levels/0/level.json"]
                      ++ if include_checksums then ["checksums.sha256"] else [])%list)
    by (subst zf; destruct include_checksums; reflexivity).
  assert (Hread : zip_read "manifest.json" zf = Ok mb)
    by (subst zf; destruct include_checksums; reflexivity).
  assert (Hlevels : check_manifest_data py_str zf (to_dict manifest)
                    = Ok ["Missing required file: levels/0/render.glb";
                          "Missing required file: levels/0/collision.rlevox"]).
  { rewrite Hd. unfold check_manifest_data, py_contains, py_getitem.
    rewrite Hmem, Hget. cbn [bind negb truthy py_iter for_each].
    unfold check_level. cbn [py_get dict_get].
    change (String.eqb "id" "id") with true. cbn iota. cbn [bind format_value].
    rewrite Hnames. destruct include_checksums; reflexivity. }
  unfold PackagePy.validate_stella. rewrite Hex, Hpack. cbn [negb].
  assert (Hm : list_mem "manifest.json" (namelist zf) = true)
    by (rewrite Hnames; reflexivity).
  rewrite Hm. cbn [negb]. rewrite Hread. cbn [bind].
  unfold mb at 1. rewrite decode_encode by exact Hutf8. cbn [bind].
  rewrite Hjson, Hlevels. cbn [bind].
  destruct include_checksums.
  - change (list_mem "checksums.sha256" (namelist zf)) with true. cbn iota.
    unfold verify_stella_checksums. rewrite Hpack. cbn [bind].
    subst zf. rewrite verify_descriptor_only by apply Hhex.
    reflexivity.
  - change (list_mem "checksums.sha256" (namelist zf)) with false. reflexivity.
Qed.

End Validate.

(** ** The library functions at work *)

Section Libraries.
Import PyStr ManifestPy PackagePy Fixtures Samples.
Local Open Scope string_scope.

(** The two digests the repository's own test checks. *)
Example sha256_known_hashes :
  Hashlib.sha256_hex [] =
    "e3b0c44298fc1c149afbf4c8996fb92427ae41e4649b934ca495991b7852b855"
  /\ Hashlib.sha256_hex (encode "hello") =
    "2cf24dba5fb0a30e26e83b2ac5b9e29e1b161e5c1fa7425e73043362938b9824".
Proof. split; vm_compute; reflexivity. Qed.

Lemma hex_char_is_hex n : is_hex_digit (Hashlib.hex_char n) = true.
Proof.
  unfold Hashlib.hex_char.
  pose proof (Z.mod_pos_bound n 16 ltac:(lia)) as Hn.
  assert (H : (n mod 16 = 0 \/ n mod 16 = 1 \/ n mod 16 = 2 \/ n mod 16 = 3
               \/ n mod 16 = 4 \/ n mod 16 = 5 \/ n mod 16 = 6 \/ n mod 16 = 7
               \/ n mod 16 = 8 \/ n mod 16 = 9 \/ n mod 16 = 10 \/ n mod 16 = 11
               \/ n mod 16 = 12 \/ n mod 16 = 13 \/ n mod 16 = 14
               \/ n mod 16 = 15)%Z) by lia.
  repeat (destruct H as [H|H]; [rewrite H; reflexivity|]).
  rewrite H. reflexivity.
Qed.

(** A SHA-256 digest in hexadecimal is 64 hexadecimal digits. *)
Lemma sha256_hex_digest data : hex_digest (Hashlib.sha256_hex data).
Proof.
  unfold Hashlib.sha256_hex.
  destruct (Hashlib.blocks _ _ _) as [[[[[[[a b] c] d] e] f] g] h].
  split; [reflexivity|].
  unfold Hashlib.hex_word. cbn [all_chars].
  rewrite !hex_char_is_hex. reflexivity.
Qed.

Lemma NoDup_level_only : NoDup (keys level_only).
Proof. repeat constructor. intros []. Qed.

Lemma NoDup_full_level : NoDup (keys full_level).
Proof. repeat constructor; cbn; intuition discriminate. Qed.


(** C5 as stated fails.  With a key that ends in a NUL character the pack
    returns, but the names of the archive are not the payload paths in
    order: the key is stored cut at the NUL, here as [checksums.sha256],
    ahead of [z.txt]; with an empty key the pack raises [IndexError]. *)
Lemma pack_member_order_fails_for_nul_key :
  (let packed := pack no_files world_stella (inr (JDict [])) nul_key_files false in
   snd packed = Ok world_stella
   /\ fst packed world_stella
      = Some (Zip [("manifest.json", encode "{}");
                   ("checksums.sha256", encode "x");
                   ("z.txt", encode "hello")])
   /\ ["manifest.json"; "checksums.sha256"; "z.txt"]
      <> "manifest.json" :: sorted (filter ordinary (keys nul_key_files)))
  /\ snd (pack no_files world_stella (inr (JDict [])) empty_key_files false)
     = Err IndexError.
Proof. vm_compute. repeat split. discriminate. Qed.


(** C10 as stated fails.  With the key [manifest.json] and a second key
    that is [manifest.json] followed by a NUL character, both entries are
    stored as [manifest.json], and reading [manifest.json] returns the
    bytes of the second, not those the payload map has under
    [manifest.json]. *)
Lemma nul_key_shadows_manifest_payload :
  let packed := pack no_files world_stella (inl default_manifest)
                     shadowing_files false in
  snd packed = Ok world_stella
  /\ dict_get "manifest.json" shadowing_files = Some (encode "{}")
  /\ read_stella_file (fst packed) world_stella "manifest.json" = Ok (encode "[]")
  /\ encode "[]" <> encode "{}".
Proof. vm_compute. repeat split. discriminate. Qed.



(** C6 on an archive with one good line and one line for a missing file,
    and on an archive without a checksum manifest. *)
Lemma verify_checksums_semantics_witness :
  verify_archive Hashlib.sha256_hex [("a.txt", encode "hello")]
  = Ok (true, ["No checksums.sha256 file found (not an error)"])
  /\ (exists per_line,
        Forall2 (fun line errors =>
                   check_line Hashlib.sha256_hex checked_archive line = Ok errors)
                ["2cf24dba5fb0a30e26e83b2ac5b9e29e1b161e5c1fa7425e73043362938b9824  a.txt";
                 "00  gone.bin"]
                per_line
        /\ verify_archive Hashlib.sha256_hex checked_archive
           = Ok (is_empty (List.concat per_line), List.concat per_line))
  /\ check_line Hashlib.sha256_hex checked_archive ("00" ++ "  " ++ "gone.bin")
     = Ok ["Missing file: gone.bin"]
  /\ check_line Hashlib.sha256_hex checked_archive ("00" ++ "  " ++ "checksums.sha256")
     = Ok [].
Proof.
  split; [|split; [|split]].
  - apply (proj1 (verify_checksums_semantics Hashlib.sha256_hex _)).
    cbn. intuition discriminate.
  - destruct (proj1 (proj2 (verify_checksums_semantics Hashlib.sha256_hex
                              checked_archive)))
      as (data & Hread & Hlines).
    + cbn. auto.
    + vm_compute in Hread. injection Hread as <-.
      apply (Hlines
               ("2cf24dba5fb0a30e26e83b2ac5b9e29e1b161e5c1fa7425e73043362938b9824  a.txt"
                ++ newline ++ "00  gone.bin")).
      vm_compute. reflexivity.
  - apply (proj2 (proj2 (proj2 (verify_checksums_semantics Hashlib.sha256_hex
                                  checked_archive))) "00" "gone.bin").
    + reflexivity.
    + discriminate.
    + cbn. intuition discriminate.
  - apply (proj2 (proj2 (proj2 (verify_checksums_semantics Hashlib.sha256_hex
                                  checked_archive))) "00" "checksums.sha256");
      reflexivity.
Defined.

(** C7 on the real digest, the real JSON printer and the real JSON parser. *)
Lemma validate_reports_missing_triad_witness :
  validate_stella Hashlib.sha256_hex JsonText.json_loads JsonText.py_str
    (fst (pack no_files world_stella (inl default_manifest) level_only true))
    world_stella
  = Ok (false, ["Missing required file: levels/0/render.glb";
                "Missing required file: levels/0/collision.rlevox"]).
Proof.
  apply (validate_reports_missing_triad Hashlib.sha256_hex JsonText.json_dumps
           JsonText.json_loads JsonText.py_str
           "2025-12-15T00:00:00+00:00" "Untitled World" None None (encode "{}")
           no_files world_stella true).
  - vm_compute. reflexivity.
  - vm_compute. reflexivity.
  - apply sha256_hex_digest.
  - vm_compute. reflexivity.
Defined.

End Libraries.

(* ===================================================================== *)
(** * Further properties *)
(* ===================================================================== *)

(** ** More on the codec *)

Section CodecEdges.
Import VoxRle.

(** X1 (the runs of a row lose nothing).  The runs [_encode_rle_row]
    returns stand for the row itself, cell for cell; their lengths add up
    to the length of the row; every run has at least one cell and the value
    0 or 1; no two neighbouring runs hold the same value; and only the
    empty row has no run. *)
Theorem encode_rle_row_lossless (row : list bool) :
  expand (_encode_rle_row row) = row /\
  sumZ (map fst (_encode_rle_row row)) = Z.of_nat (List.length row) /\
  Forall good_run (_encode_rle_row row) /\
  neighbours_differ (_encode_rle_row row) /\
  (_encode_rle_row row = [] <-> row = []).
Proof.
  rewrite encode_rle_row_maximal.
  pose proof (maximal_runs_good row) as Hg.
  split; [apply expand_maximal_runs|].
  split; [rewrite <- expand_length, expand_maximal_runs by exact Hg; reflexivity|].
  split; [exact Hg|].
  split; [apply maximal_runs_neighbours_differ|].
  split.
  - intros E. rewrite <- (expand_maximal_runs row), E. reflexivity.
  - intros ->. reflexivity.
Qed.

(** A written file is a header of 64 bytes and the payload; on such a
    header [read_rlevox] goes on to read the payload that follows. *)
Lemma read_rlevox_after_header grid voxel_size ox oy oz data :
  write_rlevox grid voxel_size (ox, oy, oz) = Ok data ->
  exists header,
    List.length header = 64%nat /\
    data = header ++ payload_of grid /\
    forall payload,
      read_rlevox (header ++ payload)
      = ('(g, _) <- read_payload (dim_x grid) (dim_y grid) (dim_z grid) payload ;;
         Ok (g, as_float32 voxel_size,
             (as_float32 ox, as_float32 oy, as_float32 oz))).
Proof.
  intros Hw.
  destruct (write_rlevox_layout _ _ _ _ _ _ Hw)
    as (b_dx & b_dy & b_dz & b_vs & b_ox & b_oy & b_oz
        & Edx & Edy & Edz & Evs & Eox & Eoy & Eoz & ->).
  pose proof (unpack_pack_I _ _ Edx) as Udx.
  pose proof (unpack_pack_I _ _ Edy) as Udy.
  pose proof (unpack_pack_I _ _ Edz) as Udz.
  pose proof (unpack_pack_f _ _ Evs) as Uvs.
  pose proof (unpack_pack_f _ _ Eox) as Uox.
  pose proof (unpack_pack_f _ _ Eoy) as Uoy.
  pose proof (unpack_pack_f _ _ Eoz) as Uoz.
  destruct (pack_I_length _ _ Edx) as (? & ? & ? & ? & ->).
  destruct (pack_I_length _ _ Edy) as (? & ? & ? & ? & ->).
  destruct (pack_I_length _ _ Edz) as (? & ? & ? & ? & ->).
  destruct (pack_f_length _ _ Evs) as (? & ? & ? & ? & ->).
  destruct (pack_f_length _ _ Eox) as (? & ? & ? & ? & ->).
  destruct (pack_f_length _ _ Eoy) as (? & ? & ? & ? & ->).
  destruct (pack_f_length _ _ Eoz) as (? & ? & ? & ? & ->).
  eexists. split; [|split; [reflexivity|]]; [reflexivity|].
  intros payload.
  unfold read_rlevox.
  cbn [MAGIC ENCODING repeat app read firstn skipn].
  change (list_byte_eqb [x53; x54; x56; x58] [x53; x54; x56; x58]) with true.
  change (list_byte_eqb [x52; x4c; x45; x31] [x52; x4c; x45; x31]) with true.
  change (unpack_H [x01; x00]) with (Ok 1).
  change (unpack_H [x40; x00]) with (Ok 64).
  change (unpack_I [x00; x00; x00; x00]) with (Ok 0).
  cbn [negb bind]. change (1 =? VERSION) with true. cbn [negb].
  rewrite Udx, Udy, Udz, Uvs, Uox, Uoy, Uoz. cbn [bind].
  change (Z.to_nat 64) with 64%nat. cbn [skipn].
  reflexivity.
Qed.

(** X3 (trailing bytes are ignored).  [read_rlevox] never looks past the
    last row: a written file followed by any bytes decodes to the same
    grid, voxel size and origin as the file alone. *)
Theorem read_rlevox_ignores_trailing_bytes grid voxel_size ox oy oz data extra :
  write_rlevox grid voxel_size (ox, oy, oz) = Ok data ->
  exists grid',
    read_rlevox (data ++ extra)
    = Ok (grid', as_float32 voxel_size,
          (as_float32 ox, as_float32 oy, as_float32 oz)) /\
    array_equal grid' grid.
Proof.
  intros Hw.
  destruct (read_rlevox_after_header _ _ _ _ _ _ Hw) as (header & _ & -> & Hread).
  destruct (write_rlevox_layout _ _ _ _ _ _ Hw) as (b & _ & _ & _ & _ & _ & _ & Edx & _).
  pose proof (pack_I_range _ _ Edx) as Hdx.
  destruct (read_payload_spec grid extra ltac:(lia)) as (g' & Hpay & Heq).
  exists g'. split; [|exact Heq].
  rewrite <- app_assoc, Hread, Hpay. reflexivity.
Qed.

End CodecEdges.

Section Truncation.
Import VoxRle.

Lemma read_row_extend dx y z extra : forall f g x g' rest,
  read_row dx y z g x f = Ok (g', rest) ->
  read_row dx y z g x (f ++ extra) = Ok (g', rest ++ extra).
Proof.
  intros f. remember (List.length f) as n eqn:Hn. revert f Hn.
  induction n as [n IH] using lt_wf_ind. intros f Hn g x g' rest H.
  destruct (Z.ltb_spec x dx) as [Hlt|Hge].
  - destruct f as [|b0 [|b1 [|b2 [|b3 f']]]]; cbn [read_row] in H;
      destruct (Z.ltb_spec x dx); try lia; try discriminate.
    cbn [app read_row]. destruct (Z.ltb_spec x dx); try lia.
    unfold unpack_H, unpack_B in *. cbn [bind] in *.
    destruct (u8 b0 + 256 * u8 b1 =? 0); [discriminate|].
    eapply (IH (List.length f')); [subst n; cbn; lia | reflexivity | exact H].
  - assert (Hstop : forall l, read_row dx y z g x l
                              = if negb (x =? dx) then Err (RowLengthMismatch z y x dx)
                                else Ok (g, l)).
    { intros l. destruct l; cbn [read_row]; destruct (Z.ltb_spec x dx); try lia;
        reflexivity. }
    rewrite Hstop in H. rewrite Hstop.
    destruct (negb (x =? dx)); [discriminate|]. injection H as <- <-. reflexivity.
Qed.

Lemma for_each_extend {I : Type} (body : I -> Grid * list byte -> result (Grid * list byte))
    (extra : list byte) (idx : list I) :
  (forall i g f g' rest, body i (g, f) = Ok (g', rest) ->
                         body i (g, f ++ extra) = Ok (g', rest ++ extra)) ->
  forall g f g' rest,
    for_each body idx (g, f) = Ok (g', rest) ->
    for_each body idx (g, f ++ extra) = Ok (g', rest ++ extra).
Proof.
  intros Hbody. induction idx as [|i idx IH]; intros g f g' rest H.
  - cbn in *. injection H as <- <-. reflexivity.
  - cbn [for_each] in *.
    destruct (body i (g, f)) as [[g1 f1]|e] eqn:E; [|discriminate].
    cbn [bind] in H. rewrite (Hbody _ _ _ _ _ E). cbn [bind]. apply IH, H.
Qed.

Lemma read_payload_extend dx dy dz f g rest extra :
  read_payload dx dy dz f = Ok (g, rest) ->
  read_payload dx dy dz (f ++ extra) = Ok (g, rest ++ extra).
Proof.
  unfold read_payload. apply for_each_extend.
  intros z g0 f0 g1 r1. apply for_each_extend.
  intros y g2 f2 g3 r3. apply read_row_extend.
Qed.

Lemma range_pos n : 1 <= n -> range n = 0 :: map Z.of_nat (seq 1 (Z.to_nat n - 1)).
Proof.
  intros Hn. unfold range.
  replace (Z.to_nat n) with (S (Z.to_nat n - 1)) at 1 by lia. reflexivity.
Qed.

Lemma read_payload_nil dx dy dz :
  1 <= dx -> 1 <= dy -> 1 <= dz ->
  read_payload dx dy dz [] = Err (UnexpectedEof 0 0 0).
Proof.
  intros Hx Hy Hz. unfold read_payload.
  rewrite (range_pos dz Hz), (range_pos dy Hy). cbn [for_each read_row].
  destruct (Z.ltb_spec 0 dx); [|lia]. reflexivity.
Qed.


Lemma firstn_app_le {A} (l1 l2 : list A) n :
  (List.length l1 <= n)%nat -> firstn n (l1 ++ l2) = l1 ++ firstn (n - List.length l1) l2.
Proof.
  intros H. rewrite firstn_app. rewrite firstn_all2 by exact H. reflexivity.
Qed.

(** X4 (a truncated file is rejected).  For a grid with at least one cell
    along every axis, [read_rlevox] raises on every proper prefix of the
    written file: it never returns a grid from a file that was cut short. *)
Theorem read_rlevox_rejects_truncated grid voxel_size ox oy oz data n :
  1 <= dim_x grid -> 1 <= dim_y grid -> 1 <= dim_z grid ->
  write_rlevox grid voxel_size (ox, oy, oz) = Ok data ->
  (n < List.length data)%nat ->
  exists e, read_rlevox (firstn n data) = Err e.
Proof.
  intros Hx Hy Hz Hw Hn.
  destruct (Nat.le_gt_cases 64 n) as [Hbig|Hsmall].
  - destruct (read_rlevox_after_header _ _ _ _ _ _ Hw) as (header & Hlen & -> & Hread).
    rewrite firstn_app_le by lia. rewrite Hread.
    rewrite length_app in Hn.
    destruct (read_payload _ _ _ (firstn _ _)) as [[g rest]|e] eqn:E; cbn [bind]; [|eauto].
    exfalso.
    apply (read_payload_extend _ _ _ _ _ _ (skipn (n - List.length header) (payload_of grid)))
      in E.
    rewrite firstn_skipn in E.
    destruct (read_payload_spec grid [] ltac:(lia)) as (g' & Hpay & _).
    rewrite app_nil_r in Hpay. rewrite Hpay in E. injection E as _ E.
    symmetry in E. apply app_eq_nil in E as [_ E].
    apply (f_equal (@List.length _)) in E. rewrite length_skipn in E. cbn in E. lia.
  - destruct (write_rlevox_layout _ _ _ _ _ _ Hw)
      as (b_dx & b_dy & b_dz & b_vs & b_ox & b_oy & b_oz
          & Edx & Edy & Edz & Evs & Eox & Eoy & Eoz & ->).
    pose proof (unpack_pack_I _ _ Edx) as Udx.
    pose proof (unpack_pack_I _ _ Edy) as Udy.
    pose proof (unpack_pack_I _ _ Edz) as Udz.
    pose proof (unpack_pack_f _ _ Evs) as Uvs.
    pose proof (unpack_pack_f _ _ Eox) as Uox.
    pose proof (unpack_pack_f _ _ Eoy) as Uoy.
    pose proof (unpack_pack_f _ _ Eoz) as Uoz.
    destruct (pack_I_length _ _ Edx) as (? & ? & ? & ? & ->).
    destruct (pack_I_length _ _ Edy) as (? & ? & ? & ? & ->).
    destruct (pack_I_length _ _ Edz) as (? & ? & ? & ? & ->).
    destruct (pack_f_length _ _ Evs) as (? & ? & ? & ? & ->).
    destruct (pack_f_length _ _ Eox) as (? & ? & ? & ? & ->).
    destruct (pack_f_length _ _ Eoy) as (? & ? & ? & ? & ->).
    destruct (pack_f_length _ _ Eoz) as (? & ? & ? & ? & ->).
    clear Hn Edx Edy Edz Evs Eox Eoy Eoz.
    cbn [MAGIC ENCODING repeat app].
    do 44 (destruct n as [|n];
           [eexists; unfold read_rlevox;
            cbn [read firstn skipn MAGIC ENCODING];
            try rewrite Udx; try rewrite Udy; try rewrite Udz;
            try rewrite Uvs; try rewrite Uox; try rewrite Uoy; try rewrite Uoz;
            vm_compute; reflexivity|]).
    do 20 (destruct n as [|n];
           [eexists; unfold read_rlevox;
            cbn [read firstn skipn];
            change (list_byte_eqb [x53; x54; x56; x58] MAGIC) with true;
            change (list_byte_eqb [x52; x4c; x45; x31] ENCODING) with true;
            change (unpack_H [x01; x00]) with (Ok 1);
            change (unpack_H [x40; x00]) with (Ok 64);
            change (unpack_I [x00; x00; x00; x00]) with (Ok 0);
            cbn [negb bind]; change (1 =? VERSION) with true; cbn [negb];
            rewrite Udx, Udy, Udz, Uvs, Uox, Uoy, Uoz; cbn [bind];
            change (Z.to_nat 64) with 64%nat; cbn [skipn];
            rewrite read_payload_nil by assumption; reflexivity|]).
    lia.
Qed.

End Truncation.

Section Layout.
Import VoxRle.

Lemma flat_map_flat_map {A B C} (f : B -> list C) (g : A -> list B) l :
  flat_map f (flat_map g l) = flat_map (fun x => flat_map f (g x)) l.
Proof.
  induction l as [|a l IH]; [reflexivity|].
  cbn [flat_map]. rewrite flat_map_app, IH. reflexivity.
Qed.

Lemma Forall_flat_map {A B} (P : B -> Prop) (g : A -> list B) l :
  (forall a, In a l -> Forall P (g a)) -> Forall P (flat_map g l).
Proof.
  induction l as [|a l IH]; intros H; [constructor|].
  cbn [flat_map]. apply Forall_app. split; [apply H; left; reflexivity|].
  apply IH. intros; apply H; right; assumption.
Qed.

Lemma record_bytes_length recs :
  List.length (flat_map record_bytes recs) = (4 * List.length recs)%nat.
Proof. induction recs as [|r recs IH]; [reflexivity|]. cbn [flat_map app List.length record_bytes]. lia. Qed.

(** X2 (the layout of a written file).  The file [write_rlevox] returns is
    as the module's header comment lays it out: the magic at offset 0,
    version 1 at 4, header size 64 at 6, the three dimensions at 8, 12 and
    16, the voxel size at 20 and the origin at 24, 28 and 32 as binary32,
    the encoding tag at 36, zeros from 40 to 63; from offset 64 on, one
    record of four bytes for every chunk of every run, planes in the order
    of [z], rows in the order of [y]. *)
Theorem write_rlevox_file_layout grid voxel_size ox oy oz data :
  write_rlevox grid voxel_size (ox, oy, oz) = Ok data ->
  let records :=
    flat_map (fun z => flat_map (fun y =>
                flat_map split_run (_encode_rle_row (row_of grid y z)))
              (range (dim_y grid)))
             (range (dim_z grid)) in
  firstn 4 data = MAGIC /\
  unpack_H (firstn 2 (skipn 4 data)) = Ok VERSION /\
  unpack_H (firstn 2 (skipn 6 data)) = Ok HEADER_SIZE /\
  unpack_I (firstn 4 (skipn 8 data)) = Ok (dim_x grid) /\
  unpack_I (firstn 4 (skipn 12 data)) = Ok (dim_y grid) /\
  unpack_I (firstn 4 (skipn 16 data)) = Ok (dim_z grid) /\
  unpack_f (firstn 4 (skipn 20 data)) = Ok (as_float32 voxel_size) /\
  unpack_f (firstn 4 (skipn 24 data)) = Ok (as_float32 ox) /\
  unpack_f (firstn 4 (skipn 28 data)) = Ok (as_float32 oy) /\
  unpack_f (firstn 4 (skipn 32 data)) = Ok (as_float32 oz) /\
  firstn 4 (skipn 36 data) = ENCODING /\
  firstn 24 (skipn 40 data) = repeat x00 24 /\
  skipn 64 data = flat_map record_bytes records /\
  parse_records (skipn 64 data) = records /\
  List.length data = (64 + 4 * List.length records)%nat.
Proof.
  intros Hw records.
  destruct (write_rlevox_layout _ _ _ _ _ _ Hw)
    as (b_dx & b_dy & b_dz & b_vs & b_ox & b_oy & b_oz
        & Edx & Edy & Edz & Evs & Eox & Eoy & Eoz & ->).
  pose proof (unpack_pack_I _ _ Edx) as Udx.
  pose proof (unpack_pack_I _ _ Edy) as Udy.
  pose proof (unpack_pack_I _ _ Edz) as Udz.
  pose proof (unpack_pack_f _ _ Evs) as Uvs.
  pose proof (unpack_pack_f _ _ Eox) as Uox.
  pose proof (unpack_pack_f _ _ Eoy) as Uoy.
  pose proof (unpack_pack_f _ _ Eoz) as Uoz.
  destruct (pack_I_length _ _ Edx) as (? & ? & ? & ? & ->).
  destruct (pack_I_length _ _ Edy) as (? & ? & ? & ? & ->).
  destruct (pack_I_length _ _ Edz) as (? & ? & ? & ? & ->).
  destruct (pack_f_length _ _ Evs) as (? & ? & ? & ? & ->).
  destruct (pack_f_length _ _ Eox) as (? & ? & ? & ? & ->).
  destruct (pack_f_length _ _ Eoy) as (? & ? & ? & ? & ->).
  destruct (pack_f_length _ _ Eoz) as (? & ? & ? & ? & ->).
  assert (Hpay : payload_of grid = flat_map record_bytes records).
  { unfold payload_of, records, row_payload.
    rewrite flat_map_flat_map. apply flat_map_ext. intros z.
    rewrite flat_map_flat_map. apply flat_map_ext. intros y.
    rewrite encode_rle_row_maximal. reflexivity. }
  assert (Hgood : Forall good_record records).
  { unfold records. apply Forall_flat_map. intros z _.
    apply Forall_flat_map. intros y _.
    rewrite encode_rle_row_maximal.
    apply flat_map_split_run_good, maximal_runs_good. }
  cbn [MAGIC ENCODING repeat app firstn skipn].
  repeat (split; [first [reflexivity | assumption]|]).
  split; [rewrite Hpay; apply parse_record_bytes, Hgood|].
  cbn [List.length]. rewrite Hpay, record_bytes_length. lia.
Qed.

End Layout.

(** ** More on packing *)

Section PackedArchive.
Import PyStr ManifestPy PackagePy.
Local Open Scope string_scope.

Variable sha256_hex : list byte -> string.
Variable json_dumps : json -> string.

Abbreviation build_all_files := (build_all_files sha256_hex json_dumps).
Abbreviation pack_stella := (pack_stella sha256_hex json_dumps).
Abbreviation manifest_bytes_of := (manifest_bytes_of json_dumps).
Abbreviation merged := (merged json_dumps).
Abbreviation checksum_text := (checksum_text sha256_hex).

Lemma ordinary_other p :
  p <> "manifest.json" -> p <> "checksums.sha256" -> ordinary p = true.
Proof.
  intros H1 H2. unfold ordinary, differs.
  destruct (String.eqb_spec "manifest.json" p); [congruence|].
  destruct (String.eqb_spec "checksums.sha256" p); [congruence|]. reflexivity.
Qed.

Lemma order_paths_In (d : dict (list byte)) p :
  NoDup (keys d) -> In "manifest.json" (keys d) ->
  In p (order_paths d) <-> In p (keys d).
Proof.
  intros Hnd Hm. rewrite order_paths_spec by assumption.
  cbn [In]. rewrite in_app_iff, sorted_In, filter_In.
  destruct (list_mem "checksums.sha256" (keys d)) eqn:E.
  - apply list_mem_In in E. cbn [In]. split.
    + intros [<-|[[H _]|[<-|[]]]]; assumption.
    + intros H. destruct (String.eqb_spec p "manifest.json") as [->|Hn1]; [auto|].
      destruct (String.eqb_spec p "checksums.sha256") as [->|Hn2]; [auto|].
      right; left. split; [exact H|]. apply ordinary_other; assumption.
  - apply list_mem_false in E. cbn [In]. split.
    + intros [<-|[[H _]|[]]]; assumption.
    + intros H. destruct (String.eqb_spec p "manifest.json") as [->|Hn1]; [auto|].
      destruct (String.eqb_spec p "checksums.sha256") as [->|Hn2]; [contradiction|].
      right; left. split; [exact H|]. apply ordinary_other; assumption.
Qed.

(** What the archive of a pack that returns holds, when no key has a NUL
    character. *)
Lemma packed_archive fs output_path manifest file_map include_checksums :
  NoDup (keys file_map) ->
  forallb nul_free (keys file_map) = true ->
  snd (pack_stella fs output_path manifest file_map include_checksums)
  = Ok output_path ->
  let all_files := build_all_files manifest file_map include_checksums in
  let fs' := fst (pack_stella fs output_path manifest file_map include_checksums) in
  exists zf,
    fs' output_path = Some (Zip zf) /\
    NoDup (namelist zf) /\
    (forall p, In p (namelist zf) <-> In p (keys all_files)) /\
    (forall p, zip_read p zf
               = match dict_get p all_files with
                 | Some data => Ok data
                 | None => Err KeyError
                 end) /\
    zip_open fs' output_path = Ok zf /\
    path_exists fs' output_path = true /\
    zf = entries_of all_files (order_paths all_files).
Proof.
  intros Hnd Hnul Hret all_files fs'.
  destruct (pack_stella_open sha256_hex json_dumps fs output_path manifest file_map
              include_checksums _ Hnd Hnul Hret) as (Hfs & Hopen & Hex & _).
  fold all_files fs' in Hfs, Hopen, Hex.
  pose proof (build_all_files_NoDup sha256_hex json_dumps manifest file_map
                include_checksums Hnd) as Hnd'. fold all_files in Hnd'.
  assert (Hm : In "manifest.json" (keys all_files)).
  { apply build_all_files_keys; [exact Hnd | left; reflexivity]. }
  assert (Hnames : namelist (entries_of all_files (order_paths all_files))
                   = order_paths all_files).
  { apply namelist_entries_of. intros p Hp. apply order_paths_In in Hp; assumption. }
  exists (entries_of all_files (order_paths all_files)).
  split; [exact Hfs|].
  split; [rewrite Hnames; apply packed_names_NoDup, Hnd|].
  split; [intros p; rewrite Hnames; apply order_paths_In; assumption|].
  split; [|auto].
  intros p. destruct (dict_get p all_files) as [data|] eqn:E.
  - apply zip_read_In.
    + rewrite Hnames. apply packed_names_NoDup, Hnd.
    + apply In_entries_of; [|exact E].
      apply order_paths_In; try assumption.
      apply In_keys_dict_get. congruence.
  - apply zip_read_absent. rewrite Hnames, order_paths_In by assumption.
    apply dict_get_None, E.
Qed.


End PackedArchive.

Section LineText.
Import PyStr PathText.
Local Open Scope string_scope.

Lemma utf8_valid_app a : forall b,
  utf8_valid a = true -> utf8_valid b = true -> utf8_valid (a ++ b)%list = true.
Proof.
  remember (List.length a) as n eqn:Hn. revert a Hn.
  induction n as [n IH] using lt_wf_ind. intros a Hn b Ha Hb.
  destruct a as [|b0 a]; [exact Hb|].
  cbn [app utf8_valid] in *.
  destruct (in_range 0 127 b0).
  { eapply IH; [| reflexivity | exact Ha | exact Hb]. subst n. cbn. lia. }
  destruct (in_range 194 223 b0).
  { destruct a as [|b1 a]; [discriminate|]. cbn [app].
    apply andb_true_iff in Ha as [H1 Ha]. rewrite H1. cbn [andb].
    eapply IH; [| reflexivity | exact Ha | exact Hb]. subst n. cbn. lia. }
  destruct (in_range 224 239 b0).
  { destruct a as [|b1 [|b2 a]]; try discriminate. cbn [app].
    apply andb_true_iff in Ha as [H1 Ha]. rewrite H1. cbn [andb].
    eapply IH; [| reflexivity | exact Ha | exact Hb]. subst n. cbn. lia. }
  destruct (in_range 240 244 b0); [|discriminate].
  destruct a as [|b1 [|b2 [|b3 a]]]; try discriminate. cbn [app].
  apply andb_true_iff in Ha as [H1 Ha]. rewrite H1. cbn [andb].
  eapply IH; [| reflexivity | exact Ha | exact Hb]. subst n. cbn. lia.
Qed.

Lemma encode_app s1 s2 : encode (s1 ++ s2) = (encode s1 ++ encode s2)%list.
Proof.
  unfold encode, list_byte_of_string.
  rewrite list_ascii_of_string_app, map_app. reflexivity.
Qed.

Lemma utf8_valid_append s1 s2 :
  utf8_valid (encode s1) = true -> utf8_valid (encode s2) = true ->
  utf8_valid (encode (s1 ++ s2)) = true.
Proof. intros H1 H2. rewrite encode_app. apply utf8_valid_app; assumption. Qed.

(** *** Lines *)

Lemma concat_cons2 sep x y l :
  String.concat sep (x :: y :: l) = x ++ sep ++ String.concat sep (y :: l).
Proof. reflexivity. Qed.

Lemma split_lines lines :
  lines <> [] ->
  Forall (fun l => all_chars not_newline l = true) lines ->
  split_char "010" (String.concat newline lines) = lines.
Proof.
  intros Hne Hall. induction Hall as [|x l Hx Hl IH]; [congruence|].
  destruct l as [|y l].
  - cbn [String.concat]. apply split_char_no_sep, Hx.
  - rewrite concat_cons2. change (newline ++ ?s) with (String "010" s).
    rewrite split_char_app by exact Hx. f_equal. apply IH. discriminate.
Qed.

(** *** [strip] on text with clean ends *)

Lemma last_char_snoc s z : last_char (s ++ String z "") = Some z.
Proof.
  induction s as [|a s IH]; [reflexivity|].
  cbn [append last_char]. rewrite IH. destruct (s ++ String z "") eqn:E; [|reflexivity].
  destruct s; discriminate.
Qed.

Lemma last_char_Some s z : last_char s = Some z -> exists s', s = s' ++ String z "".
Proof.
  induction s as [|a s IH]; [discriminate|].
  cbn [last_char]. destruct s as [|b s].
  - intros [= ->]. exists "". reflexivity.
  - intros H. destruct (IH H) as [s' ->]. exists (String a s'). reflexivity.
Qed.

Lemma last_char_app s t : t <> "" -> last_char (s ++ t) = last_char t.
Proof.
  intros Ht. induction s as [|a s IH]; [reflexivity|].
  cbn [append last_char]. rewrite IH. destruct (s ++ t) eqn:E; [|reflexivity].
  destruct s; [cbn in E; congruence | discriminate].
Qed.

Lemma not_ends_space z :
  ends_space z = false ->
  forallb (fun w => match w with
                    | EmptyString => false
                    | String c _ => negb (Ascii.eqb c z)
                    end) (map string_rev whitespace) = true.
Proof.
  destruct z as [[] [] [] [] [] [] [] []]; intros H; try discriminate H;
    vm_compute; reflexivity.
Qed.

Lemma strip_clean t a t' z :
  t = String a t' -> is_plain a = true ->
  last_char t = Some z -> ends_space z = false ->
  strip t = t.
Proof.
  intros Ht Ha Hlast Hz. unfold strip, lstrip.
  rewrite Ht at 2. rewrite strip_leading_plain by apply plain_not_whitespace_start, Ha.
  rewrite <- Ht. unfold rstrip.
  destruct (last_char_Some _ _ Hlast) as [s ->].
  rewrite string_rev_snoc.
  rewrite strip_leading_plain by apply not_ends_space, Hz.
  rewrite <- string_rev_snoc. apply string_rev_involutive.
Qed.

Lemma last_char_concat lines z_default :
  lines <> [] ->
  Forall (fun l => l <> "") lines ->
  last_char (String.concat newline lines) = last_char (List.last lines z_default).
Proof.
  intros Hne Hall. induction Hall as [|x l Hx Hl IH]; [congruence|].
  destruct l as [|y l]; [reflexivity|].
  rewrite concat_cons2. change (List.last (x :: y :: l) z_default) with (List.last (y :: l) z_default).
  rewrite <- IH by discriminate.
  rewrite last_char_app; [apply last_char_app|].
  - destruct l as [|y' l]; cbn [String.concat].
    + apply Forall_inv in Hl. exact Hl.
    + apply Forall_inv in Hl. destruct y; [congruence|discriminate].
  - discriminate.
Qed.

End LineText.

Section VerifyItems.
Import PyStr PathText ManifestPy PackagePy.
Local Open Scope string_scope.

Variable sha256_hex : list byte -> string.

Abbreviation check_line := (check_line sha256_hex).
Abbreviation verify_archive := (verify_archive sha256_hex).

Lemma hex_digest_plain d : hex_digest d -> all_chars is_plain d = true.
Proof.
  intros [_ H]. eapply all_chars_impl; [|exact H]. apply hex_digit_plain.
Qed.

Lemma line_safe_parts p :
  line_safe p = true ->
  utf8_valid (encode p) = true /\ all_chars not_newline p = true /\
  exists z, last_char p = Some z /\ ends_space z = false.
Proof.
  unfold line_safe. rewrite !andb_true_iff. intros [[H1 H2] H3].
  split; [exact H1|]. split; [exact H2|].
  destruct (last_char p) as [z|]; [|discriminate].
  exists z. split; [reflexivity|]. apply negb_true_iff, H3.
Qed.

Lemma checksum_line_facts it :
  line_item it ->
  utf8_valid (encode (checksum_line it)) = true /\
  all_chars not_newline (checksum_line it) = true /\
  (exists a l', checksum_line it = String a l' /\ is_plain a = true) /\
  (exists z, last_char (checksum_line it) = Some z /\ ends_space z = false).
Proof.
  destruct it as [p d]. intros [Hp Hd]. cbn [fst snd] in *.
  apply line_safe_parts in Hp as (Hu & Hn & z & Hz & Hs).
  pose proof (hex_digest_plain d Hd) as Hplain.
  destruct (hex_digest_shape d Hd) as (a & d' & -> & Ha & Hd').
  unfold checksum_line. cbn [fst snd].
  split; [|split; [|split]].
  - apply utf8_valid_append.
    + apply utf8_valid_ascii. eapply all_chars_impl; [|exact Hplain]. apply plain_ascii7.
    + apply (utf8_valid_append "  " p); [reflexivity | exact Hu].
  - rewrite all_chars_app. apply andb_true_iff. split.
    + eapply all_chars_impl; [|exact Hplain]. intros c. apply plain_not_newline.
    + exact Hn.
  - exists a, (d' ++ "  " ++ p). split; [reflexivity | exact Ha].
  - exists z. split; [|exact Hs].
    rewrite last_char_app; [rewrite last_char_app; [exact Hz|]|].
    + intros ->. discriminate.
    + destruct p; discriminate.
Qed.

Lemma utf8_valid_concat lines :
  Forall (fun l => utf8_valid (encode l) = true) lines ->
  utf8_valid (encode (String.concat newline lines)) = true.
Proof.
  induction 1 as [|x l Hx Hl IH]; [reflexivity|].
  destruct l as [|y l]; [exact Hx|].
  rewrite concat_cons2. apply utf8_valid_append; [exact Hx|].
  apply utf8_valid_append; [reflexivity | exact IH].
Qed.

(** The text of a checksum manifest whose items are well formed comes
    back from [strip] and [split] as the lines it was joined from. *)
Lemma checksum_text_lines (items : list (string * string)) :
  items <> [] -> Forall line_item items ->
  let text := String.concat newline (map checksum_line items) in
  decode (encode text) = Ok text /\
  split_char "010" (strip text) = map checksum_line items.
Proof.
  intros Hne Hall text.
  assert (Hfacts : Forall (fun l =>
            utf8_valid (encode l) = true /\ all_chars not_newline l = true /\
            (exists a l', l = String a l' /\ is_plain a = true) /\
            (exists z, last_char l = Some z /\ ends_space z = false))
            (map checksum_line items)).
  { apply Forall_map. eapply Forall_impl; [|exact Hall].
    intros it. apply checksum_line_facts. }
  assert (Hne' : map checksum_line items <> []) by (destruct items; [congruence|discriminate]).
  split.
  - apply decode_encode, utf8_valid_concat.
    eapply Forall_impl; [|exact Hfacts]. intros l H. apply H.
  - assert (Hstrip : strip text = text).
    { destruct (map checksum_line items) as [|l1 rest] eqn:E; [congruence|].
      pose proof (Forall_inv Hfacts) as (_ & _ & (a & l1' & -> & Ha) & _).
      assert (Hlast : exists z, last_char text = Some z /\ ends_space z = false).
      { unfold text.
        rewrite (last_char_concat _ "") by
          (first [discriminate
                 | eapply Forall_impl; [|exact Hfacts];
                   intros l (_ & _ & (? & ? & -> & _) & _); discriminate]).
        assert (Hin : In (List.last (String a l1' :: rest) "") (String a l1' :: rest)).
        { clear. generalize (String a l1'). induction rest as [|y rest IH]; intros x.
          - left. reflexivity.
          - right. apply IH. }
        rewrite Forall_forall in Hfacts. apply (Hfacts _ Hin). }
      destruct Hlast as (z & Hz & Hs).
      assert (Hhead : exists t', text = String a t').
      { unfold text. destruct rest; cbn [String.concat append]; eauto. }
      destruct Hhead as [t' Ht].
      eapply strip_clean; eassumption. }
    rewrite Hstrip. apply split_lines; [exact Hne'|].
    eapply Forall_impl; [|exact Hfacts]. intros l H. apply H.
Qed.

(** [verify_archive] on an archive whose checksum manifest was written from
    well-formed items: the errors are those of the items, in order. *)
Lemma verify_archive_items zf (items : list (string * string)) :
  items <> [] -> Forall line_item items ->
  In "checksums.sha256" (namelist zf) ->
  zip_read "checksums.sha256" zf
  = Ok (encode (String.concat newline (map checksum_line items))) ->
  exists per_item,
    Forall2 (fun it errors => check_line zf (checksum_line it) = Ok errors)
            items per_item /\
    verify_archive zf = Ok (is_empty (List.concat per_item), List.concat per_item).
Proof.
  intros Hne Hall Hin Hread.
  destruct (checksum_text_lines items Hne Hall) as [Hdec Hlines].
  destruct (lines_loop sha256_hex zf (map checksum_line items) [])
    as (per_item & Hper & Hloop).
  exists per_item. split.
  - clear -Hper. remember (map checksum_line items) as lines eqn:E.
    revert items E. induction Hper as [|l e lines per Hle Hrest IH]; intros items E.
    + destruct items; [constructor|discriminate].
    + destruct items as [|it items]; [discriminate|].
      cbn [map] in E. injection E as -> ->. constructor; [exact Hle|]. apply IH. reflexivity.
  - unfold PackagePy.verify_archive.
    apply list_mem_In in Hin. rewrite Hin. cbn [negb].
    rewrite Hread. cbn [bind]. rewrite Hdec. cbn [bind].
    rewrite Hlines, Hloop. reflexivity.
Qed.

End VerifyItems.

Section PackThenVerify.
Import PyStr PathText ManifestPy PackagePy.
Local Open Scope string_scope.

Variable sha256_hex : list byte -> string.
Variable json_dumps : json -> string.
Hypothesis Hhex : forall data, hex_digest (sha256_hex data).

Abbreviation build_all_files := (build_all_files sha256_hex json_dumps).
Abbreviation pack_stella := (pack_stella sha256_hex json_dumps).
Abbreviation manifest_bytes_of := (manifest_bytes_of json_dumps).
Abbreviation merged := (merged json_dumps).
Abbreviation digest_item := (digest_item sha256_hex).
Abbreviation checksum_text := (checksum_text sha256_hex).
Abbreviation check_line := (check_line sha256_hex).
Abbreviation verify_archive := (verify_archive sha256_hex).
Abbreviation verify_stella_checksums := (verify_stella_checksums sha256_hex).

(** The items the packer writes into the checksum manifest. *)
Lemma packed_items manifest file_map :
  NoDup (keys file_map) ->
  Forall (fun p => line_safe p = true) (keys file_map) ->
  let items := map digest_item (sorted_items (merged manifest file_map)) in
  items <> [] /\ Forall line_item items /\
  checksum_text (merged manifest file_map)
  = String.concat newline (map checksum_line items) /\
  NoDup (keys items) /\
  (forall p, In p (keys items) <-> p = "manifest.json" \/ In p (keys file_map)) /\
  Forall (fun it => exists data,
            dict_get (fst it) (merged manifest file_map) = Some data /\
            snd it = sha256_hex data) items.
Proof.
  intros Hnd Hsafe items.
  pose proof (merged_NoDup json_dumps manifest file_map) as Hm.
  destruct (sorted_items_spec (merged manifest file_map) Hm) as [Hkeys Hget].
  assert (Hik : keys items = sorted (keys (merged manifest file_map))).
  { unfold items. rewrite keys_digest_items. exact Hkeys. }
  assert (Hin : forall p, In p (keys items)
                          <-> p = "manifest.json" \/ In p (keys file_map)).
  { intros p. rewrite Hik, sorted_In. apply merged_keys. }
  split; [|split; [|split; [|split; [|split]]]].
  - intros E. assert (H : In "manifest.json" (keys items)) by (apply Hin; auto).
    rewrite E in H. destruct H.
  - unfold items. apply Forall_map. apply Forall_forall. intros [p data] Hp.
    split; [|apply Hhex]. cbn [digest_item fst].
    assert (H : In p (keys items)).
    { unfold items. rewrite keys_digest_items. apply (in_map fst) in Hp. exact Hp. }
    apply Hin in H as [->|H]; [reflexivity|].
    rewrite Forall_forall in Hsafe. apply Hsafe, H.
  - reflexivity.
  - rewrite Hik. apply sorted_NoDup, Hm.
  - exact Hin.
  - unfold items. apply Forall_map. eapply Forall_impl; [|exact Hget].
    intros [p data] H. cbn [fst snd digest_item] in *. eauto.
Qed.

(** The errors [verify_archive] collects for an archive that carries the
    checksum manifest of a pack: those of the packed paths, in order. *)
Lemma verify_archive_packed manifest file_map zf :
  NoDup (keys file_map) ->
  Forall (fun p => line_safe p = true) (keys file_map) ->
  In "checksums.sha256" (namelist zf) ->
  zip_read "checksums.sha256" zf
  = Ok (encode (checksum_text (merged manifest file_map))) ->
  let errors :=
    flat_map (fun it : string * list byte =>
                let '(p, data) := it in
                if String.eqb p "checksums.sha256" then []
                else match zip_read p zf with
                     | Ok data' =>
                         if String.eqb (sha256_hex data') (sha256_hex data)
                         then [] else ["Checksum mismatch for " ++ p]
                     | Err _ => ["Missing file: " ++ p]
                     end)
             (sorted_items (merged manifest file_map)) in
  verify_archive zf = Ok (is_empty errors, errors).
Proof.
  intros Hnd Hsafe Hin Hread errors.
  destruct (packed_items manifest file_map Hnd Hsafe)
    as (Hne & Hgood & Htext & _ & _ & _).
  rewrite Htext in Hread.
  destruct (verify_archive_items sha256_hex zf _ Hne Hgood Hin Hread)
    as (per_item & Hper & ->).
  assert (E : List.concat per_item = errors); [|rewrite E; reflexivity].
  unfold errors. clear -Hper Hhex.
  remember (map digest_item (sorted_items (merged manifest file_map))) as items eqn:Ei.
  revert Ei. generalize (sorted_items (merged manifest file_map)). intros l. revert l.
  induction Hper as [|it e items per Hit Hrest IH]; intros l Ei.
  - destruct l; [reflexivity|discriminate].
  - destruct l as [|[p data] l]; [discriminate|].
    cbn [map] in Ei. injection Ei as -> ->.
    cbn [List.concat flat_map]. f_equal; [|apply IH; reflexivity].
    unfold PackagePy.digest_item, checksum_line in Hit. cbn [fst snd] in Hit.
    rewrite check_line_entry in Hit
      by (destruct (Hhex data) as [_ H]; eapply all_chars_impl; [|exact H];
          apply hex_digit_plain).
    destruct (String.eqb p "checksums.sha256"); [congruence|].
    destruct (list_mem p (namelist zf)) eqn:Em; cbn [negb] in Hit.
    + destruct (zip_read p zf) as [data'|err]; cbn [bind] in Hit; [|discriminate].
      destruct (String.eqb (sha256_hex data') (sha256_hex data)); cbn [negb] in Hit;
        congruence.
    + apply list_mem_false in Em. rewrite zip_read_absent by exact Em. congruence.
Qed.

(** The archive of a pack with checksums verifies. *)
Lemma packed_archive_verifies manifest file_map zf :
  NoDup (keys file_map) ->
  Forall (fun p => line_safe p = true) (keys file_map) ->
  (forall p, In p (namelist zf)
             <-> In p (keys (build_all_files manifest file_map true))) ->
  (forall p, zip_read p zf
             = match dict_get p (build_all_files manifest file_map true) with
               | Some data => Ok data
               | None => Err KeyError
               end) ->
  verify_archive zf = Ok (true, []).
Proof.
  intros Hnd Hsafe Hnames Hread.
  rewrite build_all_files_spec in Hnames, Hread by exact Hnd.
  rewrite (verify_archive_packed manifest file_map zf Hnd Hsafe).
  - assert (E : forall l : list (string * list byte),
              Forall (fun kv => dict_get (fst kv) (merged manifest file_map)
                                = Some (snd kv)) l ->
              flat_map (fun it : string * list byte =>
                let '(p, data) := it in
                if String.eqb p "checksums.sha256" then []
                else match zip_read p zf with
                     | Ok data' =>
                         if String.eqb (sha256_hex data') (sha256_hex data)
                         then [] else ["Checksum mismatch for " ++ p]
                     | Err _ => ["Missing file: " ++ p]
                     end) l = []).
    { induction 1 as [|[p data] l Hp Hl IH]; [reflexivity|].
      cbn [flat_map fst snd] in *. rewrite IH, app_nil_r.
      destruct (String.eqb p "checksums.sha256") eqn:Ep; [reflexivity|].
      rewrite Hread, dict_get_set, Ep, Hp, String.eqb_refl. reflexivity. }
    rewrite E; [reflexivity|].
    apply sorted_items_spec, merged_NoDup.
  - apply Hnames, In_keys_dict_set. left. reflexivity.
  - rewrite Hread, dict_get_set, String.eqb_refl. reflexivity.
Qed.


Lemma In_sorted_items {V} (d : dict V) p v :
  NoDup (keys d) -> (In (p, v) (sorted_items d) <-> dict_get p d = Some v).
Proof.
  intros Hnd. split.
  - intros H. apply dict_get_In; [exact Hnd|].
    eapply Permutation_in; [apply sorted_items_perm | exact H].
  - intros H. apply dict_get_Some_In in H.
    eapply Permutation_in; [apply Permutation_sym, sorted_items_perm | exact H].
Qed.

(** X8 (what verification detects).  Take any archive that carries the
    checksum manifest of a pack.  Verification reports ["Missing file:
    <path>"] for every packed path the archive lacks and ["Checksum
    mismatch for <path>"] for every packed path whose bytes now have
    another digest; it reports nothing at all exactly when every packed
    path is present with bytes of the packed digest.  Entries the checksum
    manifest does not list are not looked at. *)
Theorem verify_detects_changes manifest file_map zf :
  NoDup (keys file_map) ->
  Forall (fun p => line_safe p = true) (keys file_map) ->
  In "checksums.sha256" (namelist zf) ->
  zip_read "checksums.sha256" zf
  = Ok (encode (checksum_text (merged manifest file_map))) ->
  exists errors,
    verify_archive zf = Ok (is_empty errors, errors) /\
    (forall p data,
       dict_get p (merged manifest file_map) = Some data ->
       p <> "checksums.sha256" ->
       (~ In p (namelist zf) -> In ("Missing file: " ++ p) errors) /\
       (forall data', zip_read p zf = Ok data' ->
                      sha256_hex data' <> sha256_hex data ->
                      In ("Checksum mismatch for " ++ p) errors)) /\
    (errors = [] <->
     forall p data,
       dict_get p (merged manifest file_map) = Some data ->
       p <> "checksums.sha256" ->
       exists data', zip_read p zf = Ok data' /\ sha256_hex data' = sha256_hex data).
Proof.
  intros Hnd Hsafe Hin Hread.
  pose proof (verify_archive_packed manifest file_map zf Hnd Hsafe Hin Hread) as Hv.
  cbv zeta in Hv.
  pose proof (merged_NoDup json_dumps manifest file_map) as Hm.
  set (f := fun it : string * list byte =>
              let '(p, data) := it in
              if String.eqb p "checksums.sha256" then []
              else match zip_read p zf with
                   | Ok data' =>
                       if String.eqb (sha256_hex data') (sha256_hex data)
                       then [] else ["Checksum mismatch for " ++ p]
                   | Err _ => ["Missing file: " ++ p]
                   end) in *.
  exists (flat_map f (sorted_items (merged manifest file_map))).
  split; [exact Hv|]. split.
  - intros p data Hget Hp. apply (In_sorted_items _ _ _ Hm) in Hget.
    apply String.eqb_neq in Hp. split.
    + intros Hnot. apply in_flat_map. exists (p, data). split; [exact Hget|].
      unfold f. rewrite Hp, zip_read_absent by exact Hnot. left. reflexivity.
    + intros data' Hr Hne. apply in_flat_map. exists (p, data). split; [exact Hget|].
      unfold f. rewrite Hp, Hr. apply String.eqb_neq in Hne. rewrite Hne.
      left. reflexivity.
  - split.
    + intros E p data Hget Hp. apply (In_sorted_items _ _ _ Hm) in Hget.
      apply String.eqb_neq in Hp.
      assert (Hf : f (p, data) = []).
      { destruct (f (p, data)) as [|e l] eqn:Ef; [reflexivity|].
        assert (Hc : In e (flat_map f (sorted_items (merged manifest file_map)))).
        { apply in_flat_map. exists (p, data). split; [exact Hget|].
          rewrite Ef. left. reflexivity. }
        rewrite E in Hc. destruct Hc. }
      unfold f in Hf. rewrite Hp in Hf.
      destruct (zip_read p zf) as [data'|err]; [|discriminate].
      exists data'. split; [reflexivity|].
      destruct (String.eqb_spec (sha256_hex data') (sha256_hex data));
        [assumption | discriminate].
    + intros Hall.
      assert (Hf : forall it, In it (sorted_items (merged manifest file_map)) ->
                              f it = []).
      { intros [p data] Hit. apply (In_sorted_items _ _ _ Hm) in Hit.
        unfold f. destruct (String.eqb_spec p "checksums.sha256") as [|Hp];
          [reflexivity|].
        destruct (Hall p data Hit Hp) as (data' & -> & ->).
        rewrite String.eqb_refl. reflexivity. }
      clear Hv.
      induction (sorted_items (merged manifest file_map)) as [|it l IH];
        [reflexivity|].
      cbn [flat_map]. rewrite Hf by (left; reflexivity).
      apply IH. intros; apply Hf; right; assumption.
Qed.

End PackThenVerify.

Section ValidatePacked.
Import PyStr PathText ManifestPy PackagePy.
Local Open Scope string_scope.

Variable sha256_hex : list byte -> string.
Variable json_dumps : json -> string.
Variable json_loads : string -> string + json.
Variable py_str : json -> string.

Abbreviation pack_stella := (pack_stella sha256_hex json_dumps).
Abbreviation validate_stella := (validate_stella sha256_hex json_loads py_str).
Abbreviation verify_archive := (verify_archive sha256_hex).
Abbreviation check_level := (check_level py_str).
Abbreviation check_manifest_data := (check_manifest_data py_str).


(** *** What an accepted archive holds *)

Lemma levels_loop zf : forall lvls acc res,
  for_each (fun level errors => e <- check_level zf level ;; Ok (errors ++ e)%list)
           lvls acc = Ok res ->
  exists per_level,
    Forall2 (fun level errors => check_level zf level = Ok errors) lvls per_level /\
    res = (acc ++ List.concat per_level)%list.
Proof.
  induction lvls as [|level lvls IH]; intros acc res H.
  - cbn in H. injection H as <-. exists []. split; [constructor|].
    cbn. rewrite app_nil_r. reflexivity.
  - cbn [for_each] in H.
    destruct (check_level zf level) as [e|err] eqn:E; [|discriminate].
    cbn [bind] in H. destruct (IH _ _ H) as (per & Hper & ->).
    exists (e :: per). split; [constructor; assumption|].
    cbn [List.concat]. rewrite app_assoc. reflexivity.
Qed.

Lemma concat_nil {A} (ls : list (list A)) :
  List.concat ls = [] -> Forall (fun l => l = []) ls.
Proof.
  induction ls as [|l ls IH]; [constructor|].
  cbn [List.concat]. intros H. apply app_eq_nil in H as [-> H]. constructor; auto.
Qed.

Lemma check_level_none zf level :
  check_level zf level = Ok [] ->
  exists level_id,
    py_get level "id" (JStr "unknown") = Ok level_id /\
    forall name, In name ["level.json"; "render.glb"; "collision.rlevox"] ->
      In ("levels/" ++ format_value py_str level_id ++ "/" ++ name) (namelist zf).
Proof.
  unfold PackagePy.check_level.
  destruct (py_get level "id" (JStr "unknown")) as [level_id|e]; [|discriminate].
  cbn [bind flat_map]. intros H. exists level_id. split; [reflexivity|].
  set (dir := "levels/" ++ format_value py_str level_id ++ "/") in *.
  assert (Hd : forall name, "levels/" ++ format_value py_str level_id ++ "/" ++ name
                            = dir ++ name).
  { intros name. unfold dir. rewrite !append_assoc. reflexivity. }
  destruct (list_mem (dir ++ "level.json") (namelist zf)) eqn:E1; [|discriminate].
  destruct (list_mem (dir ++ "render.glb") (namelist zf)) eqn:E2; [|discriminate].
  destruct (list_mem (dir ++ "collision.rlevox") (namelist zf)) eqn:E3; [|discriminate].
  clear H.
  intros name [<-|[<-|[<-|[]]]]; rewrite Hd; apply list_mem_In; assumption.
Qed.

Lemma verify_archive_ok zf ok errors :
  In "checksums.sha256" (namelist zf) ->
  verify_archive zf = Ok (ok, errors) -> ok = is_empty errors.
Proof.
  intros Hin. unfold PackagePy.verify_archive.
  apply list_mem_In in Hin. rewrite Hin. cbn [negb].
  destruct (zip_read _ zf); cbn [bind]; [|discriminate].
  destruct (decode _); cbn [bind]; [|discriminate].
  destruct (for_each _ _ _); cbn [bind]; [|discriminate].
  intros [= <- <-]. reflexivity.
Qed.

(** X10 (what an accepted archive holds).  When [validate_stella] returns
    [ok], the error list is empty, the path holds a ZIP archive with a
    [manifest.json] that decodes and parses, its [levels] value is not
    empty, every level has its three files in the archive, and the
    checksum manifest, when there is one, verifies without error. *)
Theorem validate_ok_sound fs stella_path errors :
  validate_stella fs stella_path = Ok (true, errors) ->
  errors = [] /\
  exists zf,
    fs stella_path = Some (Zip zf) /\
    In "manifest.json" (namelist zf) /\
    (exists manifest_bytes text manifest_data v_levels levels,
       zip_read "manifest.json" zf = Ok manifest_bytes /\
       decode manifest_bytes = Ok text /\
       json_loads text = inr manifest_data /\
       py_getitem manifest_data "levels" = Ok v_levels /\
       truthy v_levels = true /\
       py_iter v_levels = Ok levels /\
       forall level, In level levels ->
         exists level_id,
           py_get level "id" (JStr "unknown") = Ok level_id /\
           forall name, In name ["level.json"; "render.glb"; "collision.rlevox"] ->
             In ("levels/" ++ format_value py_str level_id ++ "/" ++ name)
                (namelist zf)) /\
    (In "checksums.sha256" (namelist zf) -> verify_archive zf = Ok (true, [])).
Proof.
  unfold PackagePy.validate_stella.
  destruct (path_exists fs stella_path); cbn [negb]; [|discriminate].
  destruct (zip_open fs stella_path) as [zf|e0] eqn:Hopen;
    [|destruct e0; discriminate].
  pose proof (zip_open_Some _ _ _ Hopen) as Hfs.
  set (first_checks := if negb (list_mem "manifest.json" (namelist zf)) then _ else _).
  destruct first_checks as [errors1|e] eqn:E1; cbn [bind]; [|discriminate].
  destruct (list_mem "checksums.sha256" (namelist zf)) eqn:Ec.
  - unfold PackagePy.verify_stella_checksums. rewrite Hopen. cbn [bind].
    destruct (verify_archive zf) as [[valid cerrs]|e] eqn:Ev; cbn [bind]; [|discriminate].
    pose proof (verify_archive_ok zf valid cerrs (proj1 (list_mem_In _ _) Ec) Ev) as Hv.
    intros [= Hok <-].
    assert (Hall : errors1 = [] /\ valid = true).
    { destruct valid; cbn [negb] in Hok |- *.
      - destruct errors1; [auto|discriminate].
      - destruct (errors1 ++ cerrs)%list eqn:Ea; [|discriminate].
        apply app_eq_nil in Ea as [-> ->]. discriminate. }
    destruct Hall as [-> ->]. cbn [negb]. split; [reflexivity|].
    exists zf. split; [exact Hfs|].
    assert (Hcerrs : cerrs = []) by (destruct cerrs; [reflexivity|discriminate]).
    subst cerrs.
    revert E1. unfold first_checks. clear first_checks.
    destruct (list_mem "manifest.json" (namelist zf)) eqn:Em; cbn [negb]; [|discriminate].
    destruct (zip_read "manifest.json" zf) as [mb|] eqn:Er; cbn [bind]; [|discriminate].
    destruct (decode mb) as [text|] eqn:Ed; cbn [bind]; [|discriminate].
    destruct (json_loads text) as [msg|md] eqn:Ej; [discriminate|].
    unfold PackagePy.check_manifest_data.
    destruct (py_contains md "levels") as [has|] eqn:Eh; cbn [bind]; [|discriminate].
    destruct has; cbn [negb]; [|discriminate].
    destruct (py_getitem md "levels") as [vl|] eqn:Eg; cbn [bind]; [|discriminate].
    destruct (truthy vl) eqn:Et; cbn [negb]; [|discriminate].
    destruct (py_iter vl) as [levels|] eqn:Ei; cbn [bind]; [|discriminate].
    intros Hloop. apply levels_loop in Hloop as (per & Hper & Hres).
    cbn [app] in Hres. symmetry in Hres. apply concat_nil in Hres.
    split; [apply list_mem_In, Em|]. split.
    + exists mb, text, md, vl, levels. repeat (split; [first [reflexivity | assumption]|]).
      intros level Hl.
      assert (Hcl : check_level zf level = Ok []).
      { clear -Hper Hres Hl. induction Hper as [|l e ls per Hle Hrest IH]; [destruct Hl|].
        apply Forall_cons_iff in Hres as [-> Hres].
        destruct Hl as [<-|Hl]; [exact Hle | apply IH; assumption]. }
      apply check_level_none, Hcl.
    + intros _. exact Ev.
  - intros [= Hok <-]. destruct errors1; [|discriminate].
    split; [reflexivity|]. exists zf. split; [exact Hfs|].
    revert E1. unfold first_checks. clear first_checks.
    destruct (list_mem "manifest.json" (namelist zf)) eqn:Em; cbn [negb]; [|discriminate].
    destruct (zip_read "manifest.json" zf) as [mb|] eqn:Er; cbn [bind]; [|discriminate].
    destruct (decode mb) as [text|] eqn:Ed; cbn [bind]; [|discriminate].
    destruct (json_loads text) as [msg|md] eqn:Ej; [discriminate|].
    unfold PackagePy.check_manifest_data.
    destruct (py_contains md "levels") as [has|] eqn:Eh; cbn [bind]; [|discriminate].
    destruct has; cbn [negb]; [|discriminate].
    destruct (py_getitem md "levels") as [vl|] eqn:Eg; cbn [bind]; [|discriminate].
    destruct (truthy vl) eqn:Et; cbn [negb]; [|discriminate].
    destruct (py_iter vl) as [levels|] eqn:Ei; cbn [bind]; [|discriminate].
    intros Hloop. apply levels_loop in Hloop as (per & Hper & Hres).
    cbn [app] in Hres. symmetry in Hres. apply concat_nil in Hres.
    split; [apply list_mem_In, Em|]. split.
    + exists mb, text, md, vl, levels. repeat (split; [first [reflexivity | assumption]|]).
      intros level Hl.
      assert (Hcl : check_level zf level = Ok []).
      { clear -Hper Hres Hl. induction Hper as [|l e ls per Hle Hrest IH]; [destruct Hl|].
        apply Forall_cons_iff in Hres as [-> Hres].
        destruct Hl as [<-|Hl]; [exact Hle | apply IH; assumption]. }
      apply check_level_none, Hcl.
    + intros Hin. apply list_mem_In in Hin. congruence.
Qed.

End ValidatePacked.

(** ** More on manifests *)

Section ManifestValidity.
Import PyStr ManifestPy PackagePy ManifestChecks.
Local Open Scope string_scope.

Variable py_str : json -> string.
Abbreviation validate := (validate py_str).
Abbreviation validate_level := (validate_level py_str).

Lemma validate_level_grows errors lvl :
  exists more, validate_level errors lvl = (errors ++ more)%list /\
               (more = [] <-> level_ok lvl = true).
Proof.
  unfold ManifestChecks.validate_level, level_ok.
  destruct (truthy (id lvl)), (truthy (path lvl)); cbn [negb andb].
  - exists []. rewrite app_nil_r. split; [reflexivity|]. split; reflexivity.
  - eexists. split; [reflexivity|]. split; discriminate.
  - eexists. split; [reflexivity|]. split; discriminate.
  - eexists. rewrite <- app_assoc. split; [reflexivity|]. split; discriminate.
Qed.

Lemma validate_levels_grow lvls : forall errors,
  exists more, fold_left validate_level lvls errors = (errors ++ more)%list /\
               (more = [] <-> forallb level_ok lvls = true).
Proof.
  induction lvls as [|lvl lvls IH]; intros errors.
  - exists []. cbn. rewrite app_nil_r. split; [reflexivity|]. split; reflexivity.
  - cbn [fold_left forallb].
    destruct (validate_level_grows errors lvl) as (m1 & -> & H1).
    destruct (IH (errors ++ m1)%list) as (m2 & -> & H2).
    exists (m1 ++ m2)%list. rewrite app_assoc. split; [reflexivity|].
    rewrite andb_true_iff, <- H1, <- H2. split.
    + intros H. apply app_eq_nil in H. exact H.
    + intros [-> ->]. reflexivity.
Qed.

(** When [validate] finds nothing. *)
Lemma validate_nil_iff (m : Manifest) :
  validate m = [] <-> well_formed m = true.
Proof.
  unfold ManifestChecks.validate, well_formed.
  destruct (validate_levels_grow (levels m)
              (let errors := [] in
               let errors :=
                 if negb (is_str "stella.world" (format m))
                 then (errors ++ [("Invalid format: " ++ format_value py_str (format m)
                                   ++ ", expected 'stella.world'")%string])%list
                 else errors in
               let errors :=
                 if negb (is_one (version m))
                 then (errors ++ [("Unsupported version: "
                                   ++ format_value py_str (version m)
                                   ++ ", expected 1")%string])%list
                 else errors in
               if is_empty (levels m)
               then (errors ++ ["Manifest must contain at least one level"])%list
               else errors))
    as (more & Hfold & Hmore).
  cbv zeta in Hfold |- *. rewrite Hfold. clear Hfold.
  destruct (is_str "stella.world" (format m)), (is_one (version m)),
           (is_empty (levels m)),
           (is_str "Y" (up (axis m)) || is_str "Z" (up (axis m))),
           (is_str "left" (handedness (axis m))
            || is_str "right" (handedness (axis m)));
    cbn [negb andb app];
    rewrite ?andb_true_r, ?andb_false_r;
    try (split; [intros H; repeat (apply app_eq_nil in H; destruct H as [H ?]);
                 congruence
                | discriminate]).
  exact Hmore.
Qed.

Lemma is_str_eq x v : is_str x v = true <-> v = JStr x.
Proof.
  destruct v; cbn [is_str]; try (split; [discriminate|discriminate]).
  rewrite String.eqb_eq. split; [intros ->; reflexivity | intros [= ->]; reflexivity].
Qed.

(** X13 (what [Manifest.validate] accepts).  [validate] returns no error
    exactly when the format is ["stella.world"], the version equals 1,
    there is at least one level, every level has a non-empty id and path,
    the up axis is ["Y"] or ["Z"] and the handedness is ["left"] or
    ["right"]. *)
Theorem validate_accepts_iff (m : Manifest) :
  validate m = []
  <-> format m = JStr "stella.world" /\
      is_one (version m) = true /\
      levels m <> [] /\
      Forall (fun lvl => truthy (id lvl) = true /\ truthy (path lvl) = true)
             (levels m) /\
      (up (axis m) = JStr "Y" \/ up (axis m) = JStr "Z") /\
      (handedness (axis m) = JStr "left" \/ handedness (axis m) = JStr "right").
Proof.
  rewrite validate_nil_iff. unfold well_formed, level_ok.
  rewrite !andb_true_iff, !orb_true_iff, !is_str_eq, negb_true_iff.
  rewrite forallb_forall, Forall_forall.
  assert (Hne : is_empty (levels m) = false <-> levels m <> []).
  { destruct (levels m); split; intros H; first [discriminate | reflexivity | congruence]. }
  rewrite Hne.
  assert (Hall : (forall x, In x (levels m) -> truthy (id x) && truthy (path x) = true)
                 <-> (forall x, In x (levels m) ->
                        truthy (id x) = true /\ truthy (path x) = true)).
  { split; intros H x Hx; apply andb_true_iff, H, Hx. }
  rewrite Hall. tauto.
Qed.

End ManifestValidity.

Section ManifestRoundTrip.
Import PyStr ManifestPy PackagePy ManifestChecks.
Local Open Scope string_scope.

Variable py_str : json -> string.
Abbreviation validate := (validate py_str).

(** X14 (the manifests of [make_manifest] that validate).  The manifest
    [make_manifest] builds validates when the levels are left to default;
    with levels given, it validates exactly when the list is not empty and
    every level has a non-empty id and path. *)
Theorem make_manifest_validates now title lvls tags thumbnail :
  validate (make_manifest now title lvls tags thumbnail) = []
  <-> match lvls with
      | None => True
      | Some l => l <> [] /\ Forall (fun lvl => truthy (id lvl) = true
                                                /\ truthy (path lvl) = true) l
      end.
Proof.
  rewrite validate_nil_iff. unfold well_formed, make_manifest.
  cbn [format version levels axis up handedness default_Axis is_str is_one].
  change (String.eqb "stella.world" "stella.world") with true.
  change (String.eqb "Y" "Y") with true.
  change (String.eqb "right" "left") with false.
  change (String.eqb "right" "right") with true.
  cbn [andb orb Z.eqb Pos.eqb]. rewrite !andb_true_r.
  destruct lvls as [l|].
  - rewrite andb_true_iff, negb_true_iff, forallb_forall, Forall_forall.
    split.
    + intros [He Hall]. split; [intros ->; discriminate|].
      intros lvl Hl. apply andb_true_iff, Hall, Hl.
    + intros [Hne Hall]. split; [destruct l; [congruence|reflexivity]|].
      intros lvl Hl. apply andb_true_iff, Hall, Hl.
  - split; [auto | reflexivity].
Qed.

(** *** [from_dict] after [to_dict] *)

Lemma Level_round_trip lvl :
  level_kept lvl = true ->
  Level_of (JDict (drop_none (asdict_Level lvl))) = Ok lvl.
Proof.
  destruct lvl as [i p n]. unfold level_kept. cbn [id path].
  intros H. apply andb_true_iff in H as [Hi Hp].
  unfold drop_none, asdict_Level. cbn [filter snd id path name].
  rewrite Hi, Hp.
  destruct n; reflexivity.
Qed.

Lemma levels_round_trip lvls :
  forallb level_kept lvls = true ->
  map_result Level_of (map (fun lvl => JDict (drop_none (asdict_Level lvl))) lvls)
  = Ok lvls.
Proof.
  induction lvls as [|lvl lvls IH]; [reflexivity|].
  cbn [forallb map map_result]. intros H. apply andb_true_iff in H as [Hl Hr].
  rewrite Level_round_trip by exact Hl. cbn [bind]. rewrite IH by exact Hr.
  reflexivity.
Qed.

Lemma Generator_round_trip g :
  is_not_none (gen_name g) && is_not_none (gen_version g) = true ->
  truthy (JDict (drop_none (asdict_Generator g))) = true /\
  Generator_of (JDict (drop_none (asdict_Generator g))) = Ok g.
Proof.
  destruct g as [n v c]. cbn [gen_name gen_version].
  intros H. apply andb_true_iff in H as [Hn Hv].
  unfold drop_none, asdict_Generator. cbn [filter snd gen_name gen_version git_commit].
  rewrite Hn, Hv. destruct c; split; reflexivity.
Qed.

Lemma Axis_round_trip a : Axis_of (JDict (asdict_Axis a)) = Ok a.
Proof. destruct a. reflexivity. Qed.

Lemma World_round_trip w :
  truthy (JDict (asdict_World w)) = true /\ World_of (JDict (asdict_World w)) = Ok w.
Proof. destruct w. split; reflexivity. Qed.

(** What [to_dict] puts under each key. *)
Lemma to_dict_items m :
  exists d,
    to_dict m = JDict d /\
    dict_get "axis" d = Some (JDict (asdict_Axis (axis m))) /\
    dict_get "levels" d
    = Some (JList (map (fun lvl => JDict (drop_none (asdict_Level lvl))) (levels m))) /\
    dict_get "generator" d
    = match generator m with
      | Some g => Some (JDict (drop_none (asdict_Generator g)))
      | None => None
      end /\
    dict_get "world" d
    = match world m with
      | Some w => Some (JDict (asdict_World w))
      | None => None
      end /\
    dict_get "format" d = Some (format m) /\
    dict_get "version" d = Some (version m) /\
    dict_get "created_utc" d = Some (created_utc m) /\
    dict_get "units" d = Some (units m) /\
    dict_get "assets" d = if truthy (assets m) then Some (assets m) else None.
Proof.
  unfold to_dict.
  destruct (generator m), (world m), (truthy (assets m));
    eexists; (split; [reflexivity|]); repeat split; reflexivity.
Qed.

Lemma Level_of_kept lvl lvl' :
  Level_of (JDict (drop_none (asdict_Level lvl))) = Ok lvl' -> level_kept lvl = true.
Proof.
  destruct lvl as [i p n]. unfold level_kept, drop_none, asdict_Level.
  cbn [filter snd id path name].
  destruct (is_not_none i), (is_not_none p); [reflexivity| | |];
    destruct (is_not_none n); discriminate.
Qed.

Lemma levels_kept lvls : forall lvls',
  map_result Level_of (map (fun lvl => JDict (drop_none (asdict_Level lvl))) lvls)
  = Ok lvls' ->
  forallb level_kept lvls = true.
Proof.
  induction lvls as [|lvl lvls IH]; intros lvls' H; [reflexivity|].
  cbn [map map_result forallb] in *.
  destruct (Level_of _) as [l|] eqn:El; [|discriminate]. cbn [bind] in H.
  destruct (map_result _ _) as [ls|] eqn:Els; [|discriminate].
  rewrite (Level_of_kept _ _ El), (IH _ eq_refl). reflexivity.
Qed.

Lemma Generator_kept g :
  (if truthy (JDict (drop_none (asdict_Generator g)))
   then g' <- Generator_of (JDict (drop_none (asdict_Generator g))) ;; Ok (Some g')
   else Ok None) = Ok (Some g) ->
  is_not_none (gen_name g) && is_not_none (gen_version g) = true.
Proof.
  destruct g as [n v c]. unfold drop_none, asdict_Generator.
  cbn [filter snd gen_name gen_version git_commit].
  destruct n, v, c; cbn; try reflexivity; intros H; discriminate H.
Qed.

(** When [from_dict] undoes [to_dict]. *)
Lemma from_dict_to_dict now (m : Manifest) :
  from_dict now (to_dict m) = Ok m <-> kept m = true.
Proof.
  destruct (to_dict_items m)
    as (d & -> & Eaxis & Elevels & Egen & Eworld & Ef & Ev & Ec & Eu & Ea).
  rewrite from_dict_unfold. unfold nested_parts.
  rewrite Eaxis, Elevels, Egen, Eworld, Ef, Ev, Ec, Eu, Ea.
  rewrite Axis_round_trip. cbn [bind py_iter].
  assert (Hworld : match match world m with
                         | Some w => Some (JDict (asdict_World w))
                         | None => None
                         end with
                   | Some v => if truthy v then w <- World_of v ;; Ok (Some w)
                               else Ok None
                   | None => Ok None
                   end = Ok (world m)).
  { destruct (world m) as [w|]; [|reflexivity].
    destruct (World_round_trip w) as [-> ->]. reflexivity. }
  unfold kept. split.
  - intros H.
    destruct (map_result Level_of _) as [lvls'|] eqn:El; [|discriminate].
    cbn [bind] in H. rewrite (levels_kept _ _ El). cbn [andb].
    destruct m as [f v c u a lvls g w assets].
    cbn [format version created_utc units axis levels generator world
         ManifestPy.assets] in *.
    destruct g as [g|].
    + destruct (if truthy (JDict (drop_none (asdict_Generator g))) then _ else _)
        as [g'|] eqn:Eg; [|discriminate].
      cbn [bind] in H. rewrite Hworld in H.
      cbn [bind] in H. injection H as _ Hg' Hassets. subst g'.
      rewrite (Generator_kept g Eg). cbn [andb].
      destruct (truthy assets) eqn:Et.
      * destruct assets as [| | | | | |[|]]; first [reflexivity | exact Et].
      * rewrite <- Hassets. reflexivity.
    + cbn [bind] in H. rewrite Hworld in H.
      cbn [bind] in H. injection H as _ Hassets. cbn [andb].
      destruct (truthy assets) eqn:Et.
      * destruct assets as [| | | | | |[|]]; first [reflexivity | exact Et].
      * rewrite <- Hassets. reflexivity.
  - intros H.
    apply andb_true_iff in H as [H Ha]. apply andb_true_iff in H as [Hl Hg].
    rewrite levels_round_trip by exact Hl. cbn [bind].
    assert (Hgen : match match generator m with
                         | Some g => Some (JDict (drop_none (asdict_Generator g)))
                         | None => None
                         end with
                   | Some v => if truthy v then g <- Generator_of v ;; Ok (Some g)
                               else Ok None
                   | None => Ok None
                   end = Ok (generator m)).
    { destruct (generator m) as [g|]; [|reflexivity].
      destruct (Generator_round_trip g Hg) as [-> ->]. reflexivity. }
    rewrite Hgen. cbn [bind]. rewrite Hworld. cbn [bind]. f_equal.
    destruct m as [f v c u a lvls g' w' assets].
    cbn [format version created_utc units axis levels generator world
         ManifestPy.assets] in *.
    destruct (truthy assets) eqn:Et; [reflexivity|].
    destruct assets as [| | | | | |[|]]; first [reflexivity | congruence].
Qed.

Lemma is_not_none_iff v : is_not_none v = true <-> v <> JNull.
Proof. destruct v; cbn; split; first [discriminate | congruence | reflexivity]. Qed.

(** X15 (a manifest and its dict).  [from_dict (to_dict m)] returns [m]
    exactly when [to_dict] writes [m] down in full: every level has an id
    and a path, the generator, if any, has a name and a version, and the
    assets are a non-empty value or the empty dict. *)
Theorem manifest_dict_round_trip now (m : Manifest) :
  from_dict now (to_dict m) = Ok m
  <-> Forall (fun lvl => id lvl <> JNull /\ path lvl <> JNull) (levels m) /\
      (forall g, generator m = Some g ->
                 gen_name g <> JNull /\ gen_version g <> JNull) /\
      (truthy (assets m) = true \/ assets m = JDict []).
Proof.
  rewrite from_dict_to_dict. unfold kept, level_kept.
  rewrite !andb_true_iff, forallb_forall, Forall_forall.
  assert (Hl : (forall x, In x (levels m) ->
                          is_not_none (id x) && is_not_none (path x) = true)
               <-> (forall x, In x (levels m) -> id x <> JNull /\ path x <> JNull)).
  { split; intros H x Hx; specialize (H x Hx).
    - apply andb_true_iff in H. rewrite !is_not_none_iff in H. exact H.
    - apply andb_true_iff. rewrite !is_not_none_iff. exact H. }
  assert (Hg : match generator m with
               | Some g => is_not_none (gen_name g) && is_not_none (gen_version g)
               | None => true
               end = true
               <-> (forall g, generator m = Some g ->
                              gen_name g <> JNull /\ gen_version g <> JNull)).
  { destruct (generator m) as [g|].
    - rewrite andb_true_iff, !is_not_none_iff. split.
      + intros H g' [= <-]. exact H.
      + intros H. apply H. reflexivity.
    - split; [discriminate | reflexivity]. }
  assert (Ha : match assets m with
               | JDict [] => true
               | a => truthy a
               end = true
               <-> (truthy (assets m) = true \/ assets m = JDict [])).
  { destruct (assets m) as [| | | | | |[|]]; cbn [truthy]; split; intros H;
      first [left; exact H | right; reflexivity | reflexivity
            | destruct H as [H|H]; first [exact H | discriminate H] ]. }
  rewrite Hl, Hg, Ha. tauto.
Qed.

End ManifestRoundTrip.

(** ** Unpacking *)

Section UnpackPacked.
Import PyStr PathText ManifestPy PackagePy ManifestChecks Unpack.
Local Open Scope string_scope.

Variable sha256_hex : list byte -> string.
Variable json_dumps : json -> string.
Variable json_loads : string -> string + json.
Variable py_str : json -> string.

Abbreviation pack_stella := (pack_stella sha256_hex json_dumps).
Abbreviation unpack_stella := (unpack_stella json_loads).
Abbreviation validate_stella := (validate_stella sha256_hex json_loads py_str).
Abbreviation verify_archive := (verify_archive sha256_hex).


End UnpackPacked.

(** ** Collision queries and voxelization *)

Section ExactGeometry.
Import VoxRle VoxGrid.
Local Open Scope Z_scope.

(** *** Cells in exact arithmetic *)

(** The world interval of cell [i] along one axis:
    [origin + i * voxel_size <= p < origin + (i + 1) * voxel_size]. *)
Lemma Qdiv_cell (p o v : Q) (i : Z) :
  Qlt 0 v ->
  (Qfloor (Qdiv (Qminus p o) v) = i
   <-> Qle (Qplus o (Qmult (inject_Z i) v)) p
       /\ Qlt p (Qplus o (Qmult (inject_Z (i + 1)) v))).
Proof.
  intros Hv.
  set (t := Qdiv (Qminus p o) v).
  assert (Ht : Qeq (Qmult t v) (Qminus p o)).
  { unfold t. field. intros E. rewrite E in Hv. discriminate. }
  pose proof (Qfloor_le t) as Hlo. pose proof (Qlt_floor t) as Hhi.
  split.
  - intros <-. split.
    + assert (Qle (Qmult (inject_Z (Qfloor t)) v) (Qmult t v))
        by (apply Qmult_le_compat_r; [exact Hlo | apply Qlt_le_weak, Hv]).
      lra.
    + assert (Qlt (Qmult t v) (Qmult (inject_Z (Qfloor t + 1)) v))
        by (apply Qmult_lt_compat_r; [exact Hv | exact Hhi]).
      lra.
  - intros [H1 H2].
    assert (Ha : Qle (inject_Z i) t).
    { apply (Qmult_le_r _ _ v Hv). lra. }
    assert (Hb : Qlt t (inject_Z (i + 1))).
    { apply (Qmult_lt_r _ _ v Hv). lra. }
    assert (Hc : Qlt (inject_Z (Qfloor t)) (inject_Z (i + 1)))
      by (eapply Qle_lt_trans; eassumption).
    assert (Hd : Qlt (inject_Z i) (inject_Z (Qfloor t + 1)))
      by (eapply Qle_lt_trans; eassumption).
    rewrite <- Zlt_Qlt in Hc, Hd. lia.
Qed.



(** *** The capsule *)

Lemma In_range2 a b i : In i (range2 a b) <-> a <= i < b.
Proof.
  unfold range2. rewrite in_map_iff. split.
  - intros (k & <- & Hk). apply in_range in Hk. lia.
  - intros Hi. exists (i - a). split; [lia|]. apply in_range. lia.
Qed.

Lemma check_collision_point_true (grid : Grid) (position : Q * Q * Q)
    (voxel_size : Q) (origin : Q * Q * Q) :
  check_collision_point grid position voxel_size origin = Some true ->
  exists ix iy iz,
    world_to_grid position voxel_size origin = Some (ix, iy, iz) /\
    0 <= ix < dim_x grid /\ 0 <= iy < dim_y grid /\ 0 <= iz < dim_z grid /\
    cell grid ix iy iz = true.
Proof.
  unfold check_collision_point.
  destruct (world_to_grid position voxel_size origin) as [[[ix iy] iz]|];
    [|discriminate].
  intros [= H]. exists ix, iy, iz. split; [reflexivity|].
  repeat match type of H with
         | context [?a <? ?b] => destruct (Z.ltb_spec a b)
         | context [?a >=? ?b] => destruct (Z.geb_spec a b)
         end; cbn [orb] in H; try discriminate.
  repeat split; try lia. exact H.
Qed.

Lemma floor_below (t t' : Q) : Qle t' t -> Qfloor t' <= Qfloor t.
Proof. apply Qfloor_resp_le. Qed.

Lemma ceil_above (t t' : Q) : Qlt t t' -> Qfloor t < Qceiling t'.
Proof.
  intros H. pose proof (Qfloor_le t) as H1. pose proof (Qle_ceiling t') as H2.
  assert (H3 : Qlt (inject_Z (Qfloor t)) (inject_Z (Qceiling t'))) by lra.
  rewrite <- Zlt_Qlt in H3. exact H3.
Qed.

Lemma Qdiv_lt_compat (a b v : Q) : Qlt 0 v -> Qlt a b -> Qlt (Qdiv a v) (Qdiv b v).
Proof.
  intros Hv H. apply (Qmult_lt_r _ _ v Hv).
  assert (E : ~ Qeq v 0) by (intros E; rewrite E in Hv; discriminate).
  assert (Ea : Qeq (Qmult (Qdiv a v) v) a) by (field; exact E).
  assert (Eb : Qeq (Qmult (Qdiv b v) v) b) by (field; exact E).
  rewrite Ea, Eb. exact H.
Qed.

Lemma Qdiv_le_compat (a b v : Q) : Qlt 0 v -> Qle a b -> Qle (Qdiv a v) (Qdiv b v).
Proof.
  intros Hv H. apply (Qmult_le_r _ _ v Hv).
  assert (E : ~ Qeq v 0) by (intros E; rewrite E in Hv; discriminate).
  assert (Ea : Qeq (Qmult (Qdiv a v) v) a) by (field; exact E).
  assert (Eb : Qeq (Qmult (Qdiv b v) v) b) by (field; exact E).
  rewrite Ea, Eb. exact H.
Qed.


End ExactGeometry.

Section Voxelize.
Import VoxRle VoxGrid.
Local Open Scope Z_scope.

Lemma n_min_le (a b : Q) : Qle (n_min a b) a /\ Qle (n_min a b) b.
Proof.
  cbn [n_min exact_bounds]. destruct (Qle_bool a b) eqn:E.
  - apply Qle_bool_iff in E. split; [apply Qle_refl | exact E].
  - split; [|apply Qle_refl].
    destruct (Qlt_le_dec b a) as [H|H]; [apply Qlt_le_weak, H|].
    apply Qle_bool_iff in H. congruence.
Qed.

Lemma n_max_ge (a b : Q) : Qle a (n_max a b) /\ Qle b (n_max a b).
Proof.
  cbn [n_max exact_bounds]. destruct (Qle_bool a b) eqn:E.
  - apply Qle_bool_iff in E. split; [exact E | apply Qle_refl].
  - split; [apply Qle_refl|].
    destruct (Qlt_le_dec b a) as [H|H]; [apply Qlt_le_weak, H|].
    apply Qle_bool_iff in H. congruence.
Qed.

Lemma axis_min_below rest : forall p0 p,
  In p (p0 :: rest) -> below (axis_min p0 rest) p.
Proof.
  assert (Hacc : forall l acc, below (axis_min acc l) acc).
  { induction l as [|q rest' IH]; intros [[ax ay] az].
    - cbn. repeat split; apply Qle_refl.
    - unfold axis_min. cbn [fold_left]. destruct q as [[x y] z].
      specialize (IH (n_min ax x, n_min ay y, n_min az z)).
      unfold axis_min in IH.
      destruct (fold_left _ rest' _) as [[mx my] mz]. cbn in IH |- *.
      destruct IH as (H1 & H2 & H3).
      pose proof (n_min_le ax x). pose proof (n_min_le ay y). pose proof (n_min_le az z).
      cbn [n_min exact_bounds] in *. repeat split; eapply Qle_trans; try eassumption; tauto. }
  induction rest as [|q rest IH]; intros p0 p Hp.
  - destruct Hp as [<-|[]]. apply Hacc.
  - destruct Hp as [<-|[<-|Hp]].
    + apply Hacc.
    + unfold axis_min. cbn [fold_left]. destruct p0 as [[ax ay] az], q as [[x y] z].
      pose proof (Hacc rest (n_min ax x, n_min ay y, n_min az z)) as H.
      unfold axis_min in H. destruct (fold_left _ rest _) as [[mx my] mz].
      cbn in H |- *. destruct H as (H1 & H2 & H3).
      pose proof (n_min_le ax x). pose proof (n_min_le ay y). pose proof (n_min_le az z).
      cbn [n_min exact_bounds] in *. repeat split; eapply Qle_trans; try eassumption; tauto.
    + unfold axis_min. cbn [fold_left]. destruct p0 as [[ax ay] az], q as [[x y] z].
      apply (IH (n_min ax x, n_min ay y, n_min az z) p). right. exact Hp.
Qed.

Lemma axis_max_above rest : forall p0 p,
  In p (p0 :: rest) -> below p (axis_max p0 rest).
Proof.
  assert (Hacc : forall l acc, below acc (axis_max acc l)).
  { induction l as [|q rest' IH]; intros [[ax ay] az].
    - cbn. repeat split; apply Qle_refl.
    - unfold axis_max. cbn [fold_left]. destruct q as [[x y] z].
      specialize (IH (n_max ax x, n_max ay y, n_max az z)).
      unfold axis_max in IH.
      destruct (fold_left _ rest' _) as [[mx my] mz]. cbn in IH |- *.
      destruct IH as (H1 & H2 & H3).
      pose proof (n_max_ge ax x). pose proof (n_max_ge ay y). pose proof (n_max_ge az z).
      cbn [n_max exact_bounds] in *. repeat split; eapply Qle_trans; try eassumption; tauto. }
  induction rest as [|q rest IH]; intros p0 p Hp.
  - destruct Hp as [<-|[]]. apply Hacc.
  - destruct Hp as [<-|[<-|Hp]].
    + apply Hacc.
    + unfold axis_max. cbn [fold_left]. destruct p0 as [[ax ay] az], q as [[x y] z].
      pose proof (Hacc rest (n_max ax x, n_max ay y, n_max az z)) as H.
      unfold axis_max in H. destruct (fold_left _ rest _) as [[mx my] mz].
      cbn in H |- *. destruct H as (H1 & H2 & H3).
      pose proof (n_max_ge ax x). pose proof (n_max_ge ay y). pose proof (n_max_ge az z).
      cbn [n_max exact_bounds] in *. repeat split; eapply Qle_trans; try eassumption; tauto.
    + unfold axis_max. cbn [fold_left]. destruct p0 as [[ax ay] az], q as [[x y] z].
      apply (IH (n_max ax x, n_max ay y, n_max az z) p). right. exact Hp.
Qed.

(** One axis: with a padding of at least one voxel, the cell of a point
    between the least and the greatest coordinate is inside the grid. *)
Lemma padded_index (p lo hi v : Q) (padding : Z) :
  Qlt 0 v -> 1 <= padding -> Qle lo p -> Qle p hi ->
  let pad := Qmult (inject_Z padding) v in
  let o := Qminus lo pad in
  let d := Z.max (Qceiling (Qdiv (Qminus (Qplus hi pad) o) v)) 1 in
  0 <= Qfloor (Qdiv (Qminus p o) v) < d.
Proof.
  intros Hv Hpad Hlo Hhi pad o d.
  assert (E : ~ Qeq v 0) by (intros E; rewrite E in Hv; discriminate).
  set (t := Qdiv (Qminus p o) v).
  set (D := Qdiv (Qminus (Qplus hi pad) o) v).
  assert (Ht : Qeq (Qmult t v) (Qminus p o)) by (unfold t; field; exact E).
  assert (HD : Qeq (Qmult D v) (Qminus (Qplus hi pad) o)) by (unfold D; field; exact E).
  assert (Hp1 : Qle (inject_Z 1) (inject_Z padding)) by (rewrite <- Zle_Qle; exact Hpad).
  assert (Hpv : Qle v pad).
  { unfold pad. assert (Qle (Qmult (inject_Z 1) v) (Qmult (inject_Z padding) v))
      by (apply Qmult_le_compat_r; [exact Hp1 | apply Qlt_le_weak, Hv]).
    unfold inject_Z in *. lra. }
  assert (H1 : Qle (inject_Z 1) t).
  { apply (Qmult_le_r _ _ v Hv). unfold o in Ht. unfold inject_Z in *. lra. }
  assert (H2 : Qle (Qplus t (inject_Z 1)) D).
  { apply (Qmult_le_r _ _ v Hv). unfold o in Ht, HD. unfold inject_Z in *. lra. }
  split.
  - assert (H : 1 <= Qfloor t).
    { rewrite <- (Qfloor_Z 1). apply Qfloor_resp_le, H1. }
    lia.
  - assert (H : Qfloor t < Qceiling D).
    { pose proof (Qfloor_le t). pose proof (Qle_ceiling D).
      assert (H3 : Qlt (inject_Z (Qfloor t)) (inject_Z (Qceiling D))).
      { unfold inject_Z in *. lra. }
      rewrite <- Zlt_Qlt in H3. exact H3. }
    unfold d. fold D. lia.
Qed.


End Voxelize.

Section GridStats.
Import VoxRle VoxGrid.
Local Open Scope Z_scope.

Lemma sumZ_map_bounds {A} (f : A -> Z) (c : Z) (l : list A) :
  (forall a, In a l -> 0 <= f a <= c) ->
  0 <= sumZ (map f l) <= Z.of_nat (List.length l) * c.
Proof.
  unfold sumZ. induction l as [|a l IH]; intros H; cbn [map fold_right List.length].
  - lia.
  - pose proof (H a (or_introl eq_refl)).
    assert (0 <= fold_right Z.add 0 (map f l) <= Z.of_nat (List.length l) * c)
      by (apply IH; intros; apply H; right; assumption).
    lia.
Qed.

Lemma sumZ_map_zero {A} (f : A -> Z) (l : list A) :
  (forall a, In a l -> 0 <= f a) ->
  (sumZ (map f l) = 0 <-> forall a, In a l -> f a = 0).
Proof.
  unfold sumZ. induction l as [|a l IH]; intros H; cbn [map fold_right].
  - split; [intros _ a []|reflexivity].
  - assert (Hl : forall a, In a l -> 0 <= f a) by (intros; apply H; right; assumption).
    pose proof (H a (or_introl eq_refl)).
    assert (0 <= fold_right Z.add 0 (map f l)).
    { clear -Hl. induction l as [|b l IH]; cbn [map fold_right]; [lia|].
      pose proof (Hl b (or_introl eq_refl)).
      assert (0 <= fold_right Z.add 0 (map f l))
        by (apply IH; intros; apply Hl; right; assumption).
      lia. }
    specialize (IH Hl). split.
    + intros E a' [<-|Ha']; [lia|]. apply IH; [lia | exact Ha'].
    + intros E. rewrite (E a (or_introl eq_refl)).
      assert (fold_right Z.add 0 (map f l) = 0)
        by (apply IH; intros; apply E; right; assumption).
      lia.
Qed.

(** X20.  For a grid of non-negative dimensions, the counts of
    [get_grid_stats] are consistent: the total is the product of the
    dimensions, the solid and the empty count lie between zero and the
    total and add up to it, and the solid count is zero exactly when no
    voxel of the grid is set. *)
Theorem grid_stats_consistent {num : Type} `{Arith num} (grid : Grid)
    (voxel_size : num) :
  0 <= dim_x grid -> 0 <= dim_y grid -> 0 <= dim_z grid ->
  let stats := get_grid_stats grid voxel_size in
  total_voxels stats = dim_x grid * dim_y grid * dim_z grid /\
  0 <= solid_voxels stats <= total_voxels stats /\
  0 <= empty_voxels stats <= total_voxels stats /\
  solid_voxels stats + empty_voxels stats = total_voxels stats /\
  (solid_voxels stats = 0
   <-> forall x y z, 0 <= x < dim_x grid -> 0 <= y < dim_y grid ->
                     0 <= z < dim_z grid -> cell grid x y z = false).
Proof.
  intros Hx Hy Hz stats. unfold stats, get_grid_stats.
  cbn [total_voxels solid_voxels empty_voxels].
  assert (Hrow : forall x y,
            0 <= sumZ (map (fun z => int_of_bool (cell grid x y z)) (range (dim_z grid)))
            <= dim_z grid).
  { intros x y.
    pose proof (sumZ_map_bounds (fun z => int_of_bool (cell grid x y z)) 1
                  (range (dim_z grid))) as H0.
    rewrite range_length in H0.
    assert (forall a, In a (range (dim_z grid)) ->
                      0 <= int_of_bool (cell grid x y a) <= 1)
      by (intros; destruct (cell grid x y a); cbn; lia).
    specialize (H0 H1). lia. }
  assert (Hplane : forall x,
            0 <= sumZ (map (fun y =>
                   sumZ (map (fun z => int_of_bool (cell grid x y z))
                             (range (dim_z grid)))) (range (dim_y grid)))
            <= dim_y grid * dim_z grid).
  { intros x.
    pose proof (sumZ_map_bounds
                  (fun y => sumZ (map (fun z => int_of_bool (cell grid x y z))
                                      (range (dim_z grid))))
                  (dim_z grid) (range (dim_y grid))) as H0.
    rewrite range_length in H0.
    specialize (H0 (fun a _ => Hrow x a)). lia. }
  assert (Hsum : 0 <= grid_sum grid <= dim_x grid * dim_y grid * dim_z grid).
  { unfold grid_sum.
    pose proof (sumZ_map_bounds
                  (fun x => sumZ (map (fun y =>
                     sumZ (map (fun z => int_of_bool (cell grid x y z))
                               (range (dim_z grid)))) (range (dim_y grid))))
                  (dim_y grid * dim_z grid) (range (dim_x grid))) as H0.
    rewrite range_length in H0.
    specialize (H0 (fun a _ => Hplane a)). lia. }
  split; [reflexivity|]. split; [exact Hsum|]. split; [lia|]. split; [lia|].
  unfold grid_sum.
  rewrite sumZ_map_zero by (intros; apply Hplane).
  split.
  - intros E x y z Bx By Bz.
    specialize (E x (proj2 (in_range _ _) Bx)).
    rewrite sumZ_map_zero in E by (intros; apply Hrow).
    specialize (E y (proj2 (in_range _ _) By)).
    rewrite sumZ_map_zero in E by (intros; destruct (cell grid x y a); cbn; lia).
    specialize (E z (proj2 (in_range _ _) Bz)).
    destruct (cell grid x y z); [discriminate E | reflexivity].
  - intros E x Bx. apply in_range in Bx.
    apply sumZ_map_zero; [intros; apply Hrow|].
    intros y By. apply in_range in By.
    apply sumZ_map_zero; [intros; destruct (cell grid x y a); cbn; lia|].
    intros z Bz. apply in_range in Bz. rewrite E by assumption. reflexivity.
Qed.

End GridStats.

(** ** Levels *)

Section LevelRoundTrip.
Import PyStr ManifestPy LevelPy.
Local Open Scope string_scope.

Lemma is_not_none_false v : is_not_none v = false -> v = JNull.
Proof. destruct v; try discriminate. reflexivity. Qed.

Lemma is_not_none_true v : is_not_none v = true <-> v <> JNull.
Proof. destruct v; cbn; split; congruence. Qed.

Lemma Spawn_round_trip s : Spawn_of (JDict (asdict_Spawn s)) = Ok s.
Proof. destruct s. reflexivity. Qed.

Lemma RenderAsset_round_trip r : RenderAsset_of (JDict (asdict_RenderAsset r)) = Ok r.
Proof. destruct r. reflexivity. Qed.

Lemma CollisionAsset_round_trip c :
  CollisionAsset_of (JDict (asdict_CollisionAsset c)) = Ok c.
Proof. destruct c as [t u [h r s]]. reflexivity. Qed.

(** What comes back for a navigation asset: a type of [None] was left out
    and reads as the default. *)
Lemma NavigationAsset_kept n :
  NavigationAsset_of (JDict (drop_none (asdict_NavigationAsset n)))
  = Ok (mkNavigationAsset
          (if is_not_none (navigation_type n) then navigation_type n else JStr "none")
          (navigation_uri n)).
Proof.
  destruct n as [t u]. unfold asdict_NavigationAsset, drop_none.
  cbn [filter snd navigation_type navigation_uri].
  destruct (is_not_none t) eqn:Et, (is_not_none u) eqn:Eu;
    try (apply is_not_none_false in Eu; subst u); reflexivity.
Qed.

(** What comes back for capture information: without a source it is not
    the one written. *)
Lemma CaptureInfo_kept c :
  (if truthy (JDict (drop_none (asdict_CaptureInfo c)))
   then x <- CaptureInfo_of (JDict (drop_none (asdict_CaptureInfo c))) ;; Ok (Some x)
   else Ok None) = Ok (Some c)
  <-> source c <> JNull.
Proof.
  rewrite <- is_not_none_true.
  destruct c as [s f n]. unfold asdict_CaptureInfo, drop_none.
  cbn [filter snd source source_fps notes].
  destruct (is_not_none s) eqn:Es;
    [|apply is_not_none_false in Es; subst s];
    (destruct (is_not_none f) eqn:Ef;
     [|apply is_not_none_false in Ef; subst f]);
    (destruct (is_not_none n) eqn:En;
     [|apply is_not_none_false in En; subst n]);
    cbn; split; congruence.
Qed.

Lemma level_from_dict_to_dict (l : LevelJson) :
  LevelPy.from_dict (LevelPy.to_dict l) = Ok l
  <-> navigation_type (navigation l) <> JNull
      /\ (forall c, capture l = Some c -> source c <> JNull).
Proof.
  destruct l as [ver nm sc sp re co na ca].
  cbn [navigation capture].
  assert (E : LevelPy.from_dict
                (LevelPy.to_dict (mkLevelJson ver nm sc sp re co na ca))
              = nav <- NavigationAsset_of (JDict (drop_none (asdict_NavigationAsset na))) ;;
                cap <- match ca with
                       | Some c =>
                           if truthy (JDict (drop_none (asdict_CaptureInfo c)))
                           then x <- CaptureInfo_of (JDict (drop_none (asdict_CaptureInfo c))) ;;
                                Ok (Some x)
                           else Ok None
                       | None => Ok None
                       end ;;
                Ok (mkLevelJson ver nm sc sp re co nav cap)).
  { unfold LevelPy.from_dict, LevelPy.to_dict.
    cbn [level_version level_name scale spawn render collision navigation capture].
    destruct ca as [c|]; cbn [dict_set dict_get py_get String.eqb Ascii.eqb Bool.eqb bind];
      rewrite Spawn_round_trip, RenderAsset_round_trip, CollisionAsset_round_trip;
      cbn [bind]; reflexivity. }
  rewrite E, NavigationAsset_kept. cbn [bind].
  destruct ca as [c|].
  - pose proof (CaptureInfo_kept c) as Hc.
    destruct (if truthy _ then _ else _) as [cap|e] eqn:Ec; cbn [bind].
    + split.
      * intros [= Hn Hcap]. split.
        -- destruct (is_not_none (navigation_type na)) eqn:En;
             [apply is_not_none_true, En|].
           apply is_not_none_false in En. destruct na as [t u]. cbn in *. congruence.
        -- intros c' [= <-]. apply Hc. congruence.
      * intros [Hn Hs]. apply is_not_none_true in Hn. rewrite Hn.
        specialize (Hs c eq_refl). apply Hc in Hs. injection Hs as ->.
        destruct na. reflexivity.
    + split; [discriminate|]. intros [_ Hs]. specialize (Hs c eq_refl).
      apply Hc in Hs. discriminate.
  - cbn [bind]. split.
    + intros [= Hn]. split; [|discriminate].
      destruct (is_not_none (navigation_type na)) eqn:En;
        [apply is_not_none_true, En|].
      apply is_not_none_false in En. destruct na as [t u]. cbn in *. congruence.
    + intros [Hn _]. apply is_not_none_true in Hn. rewrite Hn.
      destruct na. reflexivity.
Qed.

End LevelRoundTrip.

Section LevelParsing.
Import PyStr ManifestPy LevelPy.
Local Open Scope string_scope.

Lemma kwargs_fits fields v kw :
  kwargs fields [] v = Ok kw -> fits fields (Some v) = true.
Proof.
  destruct v; cbn [kwargs fits]; try discriminate.
  cbn [forallb]. rewrite andb_true_r.
  destruct (forallb _ (keys d)); [reflexivity | discriminate].
Qed.

Lemma kwargs_raises fields v e :
  kwargs fields [] v = Err e -> fits fields (Some v) = false /\ e = TypeError.
Proof.
  destruct v; cbn [kwargs fits]; try (intros [= <-]; split; reflexivity).
  cbn [forallb]. rewrite andb_true_r.
  destruct (forallb _ (keys d)); [discriminate | intros [= <-]; split; reflexivity].
Qed.

Lemma fits_get fields k (d : dict json) :
  fits fields (Some (match dict_get k d with Some v => v | None => JDict [] end))
  = fits fields (dict_get k d).
Proof. destruct (dict_get k d); reflexivity. Qed.

Lemma keys_dict_remove k (d : dict json) fields :
  forallb (fun x => list_mem x fields) (keys (dict_remove k d))
  = forallb (fun x => list_mem x (fields ++ [k])) (keys d).
Proof.
  induction d as [|[k0 v0] d IH]; [reflexivity|].
  unfold dict_remove in *. cbn [filter fst keys map forallb].
  assert (Hm : list_mem k0 (fields ++ [k]) = list_mem k0 fields || String.eqb k0 k).
  { unfold list_mem. rewrite existsb_app. cbn [existsb]. rewrite orb_false_r.
    reflexivity. }
  rewrite Hm. fold (keys d).
  destruct (String.eqb k0 k) eqn:E; cbn [negb].
  - rewrite orb_true_r. cbn [andb]. exact IH.
  - rewrite orb_false_r. cbn [keys map fst forallb].
    fold (keys (filter (fun kv => negb (String.eqb (fst kv) k)) d)).
    rewrite IH. reflexivity.
Qed.

(** Each nested dataclass is built exactly from the values that fit it,
    and what it raises otherwise is a [TypeError]. *)
Ltac dataclass_of :=
  let v := fresh "v" in
  intros v; match goal with |- context [kwargs ?f [] v] =>
    destruct (kwargs f [] v) as [kw|e0] eqn:E;
    [apply kwargs_fits in E | apply kwargs_raises in E as [E ->]];
    rewrite E; cbn [bind]; eauto
  end.

Lemma Spawn_of_fits : forall v,
  match Spawn_of v with
  | Ok _ => fits ["position"; "yaw_degrees"] (Some v) = true
  | Err e => fits ["position"; "yaw_degrees"] (Some v) = false /\ e = TypeError
  end.
Proof. unfold Spawn_of. dataclass_of. Qed.

Lemma RenderAsset_of_fits : forall v,
  match RenderAsset_of v with
  | Ok _ => fits ["type"; "uri"] (Some v) = true
  | Err e => fits ["type"; "uri"] (Some v) = false /\ e = TypeError
  end.
Proof. unfold RenderAsset_of. dataclass_of. Qed.

Lemma PlayerCollision_of_fits : forall v,
  match PlayerCollision_of v with
  | Ok _ => fits ["height_m"; "radius_m"; "step_height_m"] (Some v) = true
  | Err e => fits ["height_m"; "radius_m"; "step_height_m"] (Some v) = false
             /\ e = TypeError
  end.
Proof. unfold PlayerCollision_of. dataclass_of. Qed.

Lemma NavigationAsset_of_fits : forall v,
  match NavigationAsset_of v with
  | Ok _ => fits ["type"; "uri"] (Some v) = true
  | Err e => fits ["type"; "uri"] (Some v) = false /\ e = TypeError
  end.
Proof. unfold NavigationAsset_of. dataclass_of. Qed.

Lemma CaptureInfo_of_fits : forall v,
  match CaptureInfo_of v with
  | Ok _ => fits ["source"; "source_fps"; "notes"] (Some v) = true
  | Err e => fits ["source"; "source_fps"; "notes"] (Some v) = false /\ e = TypeError
  end.
Proof. unfold CaptureInfo_of. dataclass_of. Qed.

Lemma CollisionAsset_of_fits v :
  match CollisionAsset_of v with
  | Ok _ =>
      fits ["type"; "uri"; "player"] (Some v)
      && match v with
         | JDict items =>
             fits ["height_m"; "radius_m"; "step_height_m"] (dict_get "player" items)
         | _ => true
         end = true
  | Err e =>
      fits ["type"; "uri"; "player"] (Some v)
      && match v with
         | JDict items =>
             fits ["height_m"; "radius_m"; "step_height_m"] (dict_get "player" items)
         | _ => true
         end = false
      /\ (e = TypeError \/ e = AttributeError)
  end.
Proof.
  unfold CollisionAsset_of.
  destruct v as [| | | | | |items]; cbn [copy_and_pop_player bind fits andb]; auto.
  rewrite <- (fits_get _ "player" items).
  pose proof (PlayerCollision_of_fits
                (match dict_get "player" items with Some p => p | None => JDict [] end))
    as Hp.
  destruct (PlayerCollision_of _) as [pl|e]; cbn [bind].
  - rewrite Hp, andb_true_r. unfold kwargs. cbn [forallb]. rewrite andb_true_r.
    rewrite (keys_dict_remove "player" items ["type"; "uri"]). cbn [app].
    destruct (forallb _ (keys items)); cbn [bind]; auto.
  - destruct Hp as [-> ->]. rewrite andb_false_r. auto.
Qed.

Lemma level_from_dict_outcome (d : dict json) :
  match LevelPy.from_dict (JDict d) with
  | Ok _ => accepted d = true
  | Err e => accepted d = false /\ (e = TypeError \/ e = AttributeError)
  end.
Proof.
  unfold LevelPy.from_dict, accepted. cbn [py_get bind].
  rewrite <- (fits_get _ "spawn" d), <- (fits_get _ "render" d),
    <- (fits_get _ "navigation" d).
  pose proof (Spawn_of_fits
    (match dict_get "spawn" d with Some v => v | None => JDict [] end)) as H1.
  destruct (Spawn_of _) as [sp|e1]; cbn [bind];
    [rewrite H1; cbn [andb] | destruct H1 as [-> ->]; auto].
  pose proof (RenderAsset_of_fits
    (match dict_get "render" d with Some v => v | None => JDict [] end)) as H2.
  destruct (RenderAsset_of _) as [re|e2]; cbn [bind];
    [rewrite H2; cbn [andb] | destruct H2 as [-> ->]; auto].
  pose proof (CollisionAsset_of_fits
    (match dict_get "collision" d with Some v => v | None => JDict [] end)) as H3.
  assert (E3 : fits ["type"; "uri"; "player"]
                 (Some (match dict_get "collision" d with
                        | Some v => v | None => JDict [] end))
               && match (match dict_get "collision" d with
                         | Some v => v | None => JDict [] end) with
                  | JDict items =>
                      fits ["height_m"; "radius_m"; "step_height_m"]
                           (dict_get "player" items)
                  | _ => true
                  end
               = fits ["type"; "uri"; "player"] (dict_get "collision" d)
                 && match dict_get "collision" d with
                    | Some (JDict items) =>
                        fits ["height_m"; "radius_m"; "step_height_m"]
                             (dict_get "player" items)
                    | _ => true
                    end).
  { destruct (dict_get "collision" d) as [[| | | | | |items]|]; reflexivity. }
  rewrite E3 in H3. clear E3.
  destruct (CollisionAsset_of _) as [co|e3]; cbn [bind];
    [rewrite H3; cbn [andb] | destruct H3 as [-> H3]; auto].
  pose proof (NavigationAsset_of_fits
    (match dict_get "navigation" d with Some v => v | None => JDict [] end)) as H4.
  destruct (NavigationAsset_of _) as [na|e4]; cbn [bind];
    [rewrite H4; cbn [andb] | destruct H4 as [-> ->]; auto].
  destruct (dict_get "capture" d) as [v|]; cbn [bind]; [|reflexivity].
  destruct (truthy v); cbn [negb orb bind]; [|reflexivity].
  pose proof (CaptureInfo_of_fits v) as H5.
  destruct (CaptureInfo_of v) as [ca|e5]; cbn [bind];
    [exact H5 | destruct H5 as [-> ->]; auto].
Qed.

Lemma not_in_level_fields k :
  ~ In k level_fields ->
  forall f, In f level_fields -> String.eqb f k = false.
Proof.
  intros Hk f Hf. destruct (String.eqb_spec f k) as [->|]; [contradiction | reflexivity].
Qed.

(** X22.  [LevelJson.from_dict] accepts exactly the dicts whose nested
    objects (spawn, render, collision and its player, navigation, and a
    capture that is not empty) are dicts without an unknown key; whatever
    else it is given, it raises [TypeError] or [AttributeError]; and a key
    it does not know at the top level changes nothing. *)
Theorem level_from_dict_accepts (v : json) :
  ((exists l, LevelPy.from_dict v = Ok l)
   <-> exists d, v = JDict d /\ accepted d = true)
  /\ (forall e, LevelPy.from_dict v = Err e -> e = TypeError \/ e = AttributeError)
  /\ (forall d k x, v = JDict d -> ~ In k level_fields ->
        LevelPy.from_dict (JDict (dict_set d k x)) = LevelPy.from_dict v).
Proof.
  split; [|split].
  - split.
    + intros [l Hl]. destruct v as [| | | | | |d]; try discriminate Hl.
      exists d. split; [reflexivity|].
      pose proof (level_from_dict_outcome d) as H. rewrite Hl in H. exact H.
    + intros (d & -> & Hd). pose proof (level_from_dict_outcome d) as H.
      destruct (LevelPy.from_dict (JDict d)) as [l|e]; [eauto|].
      destruct H as [H _]. congruence.
  - intros e He. destruct v as [| | | | | |d];
      try (injection He as <-; auto).
    pose proof (level_from_dict_outcome d) as H. rewrite He in H. apply H.
  - intros d k x -> Hk. pose proof (not_in_level_fields k Hk) as Hf.
    unfold LevelPy.from_dict. cbn [py_get].
    rewrite !dict_get_set.
    rewrite !Hf by (cbn; tauto). reflexivity.
Qed.

End LevelParsing.

Section LevelFiles.
Import PyStr PathText ManifestPy PackagePy ManifestChecks Unpack LevelPy.
Local Open Scope string_scope.

Variable sha256_hex : list byte -> string.
Variable json_dumps : json -> string.
Variable json_loads : string -> string + json.

Abbreviation pack_stella := (pack_stella sha256_hex json_dumps).
Abbreviation get_level_json := (get_level_json json_loads).

(** X21.  When the [json] library reads back the dict it printed,
    [LevelJson.from_json] returns the level [to_json] wrote exactly when
    the navigation type is not [None] and the capture information, if
    there is any, has a source that is not [None]. *)
Theorem level_json_round_trip (l : LevelJson) :
  json_loads (json_dumps (LevelPy.to_dict l)) = inr (LevelPy.to_dict l) ->
  (LevelPy.from_json json_loads (LevelPy.to_json json_dumps l) = Ok l
   <-> navigation_type (navigation l) <> JNull
       /\ (forall c, capture l = Some c -> source c <> JNull)).
Proof.
  intros Hjson. unfold LevelPy.from_json, LevelPy.to_json. rewrite Hjson.
  apply level_from_dict_to_dict.
Qed.

(** X23.  Whatever its arguments, the level [make_level_json] builds is
    one [from_dict] reads back unchanged from [to_dict]; an empty spawn
    position is replaced by the default like a missing one. *)
Theorem make_level_json_round_trip (name : string)
    (spawn_position : option (list json)) (player_height : float)
    (render_uri collision_uri : string) :
  let l := make_level_json name spawn_position player_height render_uri
                           collision_uri in
  LevelPy.from_dict (LevelPy.to_dict l) = Ok l
  /\ (spawn_position = Some [] ->
      l = make_level_json name None player_height render_uri collision_uri).
Proof.
  intros l. split.
  - apply level_from_dict_to_dict. unfold l, make_level_json.
    cbn [navigation navigation_type capture]. split; [discriminate|].
    intros c Hc. discriminate Hc.
  - intros ->. reflexivity.
Qed.


End LevelFiles.

(** ** The further properties at work *)

Section MoreExamples.
Import VoxRle PyStr PathText ManifestPy PackagePy ManifestChecks Unpack Fixtures Samples.
Local Open Scope string_scope.

Lemma write_rlevox_file_layout_witness :
  exists data,
    write_rlevox sample_grid 0.5%float (1, 2, 3)%float = Ok data /\
    firstn 4 data = MAGIC /\
    unpack_I (firstn 4 (skipn 8 data)) = Ok 3%Z.
Proof.
  eexists. split; [vm_compute; reflexivity|].
  match goal with
  | |- firstn 4 ?d = _ /\ _ =>
      assert (H : write_rlevox sample_grid 0.5%float (1, 2, 3)%float = Ok d)
        by (vm_compute; reflexivity)
  end.
  destruct (write_rlevox_file_layout sample_grid 0.5%float 1%float 2%float 3%float
              _ H) as (H1 & _ & _ & H4 & _).
  split; [exact H1 | exact H4].
Defined.

Lemma read_rlevox_ignores_trailing_bytes_witness :
  exists data grid',
    write_rlevox sample_grid 0.5%float (1, 2, 3)%float = Ok data /\
    read_rlevox (data ++ [x00; xff]) = Ok (grid', 0.5%float, (1, 2, 3)%float) /\
    array_equal grid' sample_grid.
Proof.
  assert (Hw : { data | write_rlevox sample_grid 0.5%float (1, 2, 3)%float = Ok data })
    by (eexists; vm_compute; reflexivity).
  destruct Hw as [data Hw]. exists data.
  destruct (read_rlevox_ignores_trailing_bytes sample_grid 0.5%float 1%float 2%float
              3%float data [x00; xff] Hw) as (grid' & Hr & He).
  exists grid'. split; [exact Hw|]. split; [exact Hr | exact He].
Defined.

Lemma read_rlevox_rejects_truncated_witness :
  exists data,
    write_rlevox sample_grid 0.5%float (1, 2, 3)%float = Ok data /\
    exists e, read_rlevox (firstn 70 data) = Err e.
Proof.
  eexists. split; [vm_compute; reflexivity|].
  apply (read_rlevox_rejects_truncated sample_grid 0.5%float 1%float 2%float 3%float).
  - cbn. lia.
  - cbn. lia.
  - cbn. lia.
  - vm_compute. reflexivity.
  - cbn. lia.
Defined.


Lemma full_level_line_safe : Forall (fun p => line_safe p = true) (keys full_level).
Proof. repeat constructor. Qed.


Lemma verify_detects_changes_witness :
  exists errors,
    verify_archive Hashlib.sha256_hex tampered = Ok (is_empty errors, errors) /\
    In "Checksum mismatch for a.txt" errors.
Proof.
  destruct (verify_detects_changes Hashlib.sha256_hex JsonText.json_dumps
              sha256_hex_digest (inr (JDict [])) hello_files tampered)
    as (errors & Hv & Hdetect & _).
  - repeat constructor. intros [].
  - repeat constructor.
  - cbn. auto.
  - reflexivity.
  - exists errors. split; [exact Hv|].
    apply (proj2 (Hdetect "a.txt" (encode "hello") eq_refl ltac:(discriminate))
             (encode "HELLO") eq_refl).
    vm_compute. discriminate.
Defined.


Lemma validate_ok_sound_witness :
  exists zf,
    fst (pack no_files world_stella (inl default_manifest) full_level false)
        world_stella = Some (Zip zf) /\
    In "manifest.json" (namelist zf).
Proof.
  destruct (validate_ok_sound Hashlib.sha256_hex JsonText.json_loads JsonText.py_str
              (fst (pack no_files world_stella (inl default_manifest) full_level
                         false))
              world_stella [])
    as (_ & zf & Hfs & Hm & _).
  - vm_compute. reflexivity.
  - exists zf. split; [exact Hfs | exact Hm].
Defined.


Lemma validate_accepts_iff_witness :
  validate JsonText.py_str default_manifest = [].
Proof.
  apply (proj2 (validate_accepts_iff JsonText.py_str default_manifest)).
  repeat split; try reflexivity; try discriminate.
  - repeat constructor.
  - left. reflexivity.
  - right. reflexivity.
Defined.

Lemma make_manifest_validates_witness :
  validate JsonText.py_str
    (make_manifest "2025-12-15T00:00:00+00:00" "Home"
       (Some [mkLevel (JStr "0") (JStr "levels/0/level.json") JNull]) None None)
  = []
  /\ validate JsonText.py_str
       (make_manifest "2025-12-15T00:00:00+00:00" "Home" (Some []) None None)
     <> [].
Proof.
  split.
  - apply (proj2 (make_manifest_validates JsonText.py_str _ _ _ _ _)).
    split; [discriminate|]. repeat constructor.
  - intros H.
    apply (proj1 (make_manifest_validates JsonText.py_str _ _ _ _ _)) in H.
    destruct H as [H _]. apply H. reflexivity.
Defined.

Lemma manifest_dict_round_trip_witness :
  from_dict "2026-01-01T00:00:00+00:00" (to_dict default_manifest)
  = Ok default_manifest.
Proof.
  apply (proj2 (manifest_dict_round_trip _ default_manifest)).
  split; [|split].
  - repeat constructor; discriminate.
  - intros g [= <-]. split; discriminate.
  - right. reflexivity.
Defined.

End MoreExamples.

(** ** The geometry at work *)

Section GeometryExamples.
Import VoxRle VoxGrid.
Local Open Scope Z_scope.





Lemma grid_stats_consistent_witness :
  let stats := get_grid_stats sample_grid 0.5%float in
  total_voxels stats = 12 /\
  0 <= solid_voxels stats <= total_voxels stats /\
  0 <= empty_voxels stats <= total_voxels stats /\
  solid_voxels stats + empty_voxels stats = total_voxels stats /\
  (solid_voxels stats = 0
   <-> forall x y z, 0 <= x < 3 -> 0 <= y < 2 -> 0 <= z < 2 ->
                     cell sample_grid x y z = false).
Proof.
  apply (grid_stats_consistent sample_grid 0.5%float); simpl; lia.
Defined.

(** The values of the repository's voxelization tests, in binary64: three
    points half a metre apart fill three voxels of a 4 x 4 x 4 grid, and no
    point gives one empty voxel. *)
Example voxelize_test_values :
  match voxelize_points [(0, 0, 0); (0.5, 0.5, 0.5); (1, 1, 1)]%float 0.5%float 1 with
  | Some (grid, origin) =>
      (dim_x grid, dim_y grid, dim_z grid) = (4, 4, 4) /\ grid_sum grid = 3
      /\ origin = (-0.5, -0.5, -0.5)%float
  | None => False
  end
  /\ match voxelize_points (num := float) [] 0x1.999999999999ap-4%float 1 with
     | Some (grid, origin) =>
         (dim_x grid, dim_y grid, dim_z grid) = (1, 1, 1) /\ grid_sum grid = 0
     | None => False
     end.
Proof. vm_compute. repeat split. Qed.

(** The statistics of the sample grid, in binary64. *)
Example grid_stats_sample :
  let stats := get_grid_stats sample_grid 0.5%float in
  (total_voxels stats, solid_voxels stats, empty_voxels stats) = (12, 8, 4)
  /\ world_size_m stats = (1.5, 1, 1)%float.
Proof. vm_compute. split; reflexivity. Qed.
End GeometryExamples.

(** ** Levels at work *)

Section LevelExamples.
Import PyStr ManifestPy PackagePy ManifestChecks Unpack LevelPy Fixtures LevelSamples.
Local Open Scope string_scope.

Lemma level_json_round_trip_witness :
  LevelPy.from_json JsonText.json_loads
    (LevelPy.to_json JsonText.json_dumps ground_floor)
  = Ok ground_floor.
Proof.
  apply (level_json_round_trip JsonText.json_dumps JsonText.json_loads ground_floor).
  - vm_compute. reflexivity.
  - split; [discriminate|]. intros c Hc. discriminate Hc.
Defined.


(** What an empty dict reads as, and a spawn with a key of a later
    version. *)
Example level_from_dict_values :
  LevelPy.from_dict (JDict [])
  = Ok (make_level_json "Level 0" None 0x1.b333333333333p+0 "render.glb"
                        "collision.rlevox")
  /\ LevelPy.from_dict (JDict [("spawn", JDict [("pitch", JInt 0)])])
     = Err TypeError.
Proof. vm_compute. split; reflexivity. Qed.

End LevelExamples.
